(** * build-demo-site: the clustered demo server and its load generator

    A shallow embedding of the programs of the repository,

    - the clustered HTTP server (primary process supervising one worker per
      CPU, and the request handler every worker runs),
    - the theme script of the page that the workers send, and
    - [loadtest.js], the load generator with its percentile statistics and
      its four validation checks,

    together with the properties their specification states about them and
    further properties that the code shows.

    ** Modelling conventions

    - A JavaScript number that the programs only ever count with
      ([requestCount], [totalRequests], an HTTP status code, a buffer
      length, a [Date.now()] or [hrtime.bigint()] reading) is an integer
      ([N] or [Z]); below 2^53 the arithmetic of the engine agrees with it.
    - Every other number (a latency in milliseconds, a sum of latencies, a
      rate, a percentile) is a value of a type [num] with the operations of
      the class [Number].  The programs are written once, over any instance.
      The instance [binary64] is IEEE 754 double precision as specified by
      [SpecFloat]: these are the numbers of the engine.  The instance
      [exact] computes with rationals (and NaN, +Infinity and -Infinity).
      What a computation yields (a printed average, a sum, the rank of a
      percentile, the pause of a loop) is stated for every instance or for
      [binary64]; [exact] carries only statements about order, selection
      and the verdict of a run, which rounding preserves, and the figures
      of the specification are evaluated in both.
    - An object used as a dictionary ([metrics.errors],
      [metrics.statusCodes], the headers of a request or a response) is a
      [gmap] with [string] keys; under a name that a plain object inherits
      from [Object.prototype] the program stores no count.
    - The event loop runs each callback to completion, so a run is the
      sequence of callbacks that fired, in the order they fired.  A request
      fires one of them, two (a timeout, then the error of the destroyed
      request) or none (a response that is cut short). *)

From Stdlib Require Import ZArith NArith QArith Qround Qabs String Ascii List Lia Sorted.
From Stdlib Require Import DecimalString DecimalPos DecimalN.
From Corelib Require Import SpecFloat.
From stdpp Require Import base gmap strings list sorting.

Local Open Scope Z_scope.

(** * The JavaScript values and built-ins the programs use *)

Module JS.

(** What a number is, as far as [toFixed] and array indexing can tell. *)
Inductive view :=
| VNaN
| VInf (negative : bool)
| VFin (q : Q).

Class Number (num : Type) := {
  (** an integer literal of the source, or an integer quantity used as a number *)
  num_of_Z : Z → num;
  Infinity : num;
  num_neg : num → num;
  num_add : num → num → num;
  num_sub : num → num → num;
  num_mul : num → num → num;
  num_div : num → num → num;
  (** [x < y]; [x > y] is [num_lt y x] *)
  num_lt : num → num → bool;
  Math_ceil : num → num;
  Math_max : num → num → num;
  Math_min : num → num → num;
  num_view : num → view
}.

Definition num_of_N {num} `{!Number num} (n : N) : num := num_of_Z (Z.of_N n).
Definition num_gt {num} `{!Number num} (x y : num) : bool := num_lt y x.

(** A value that is a number or [undefined] (what reading an array element
    yields). *)
Inductive value (num : Type) :=
| Num (x : num)
| Undefined.
Arguments Num {num} x.
Arguments Undefined {num}.

(** The result of running code that may throw. *)
Inductive completion (A : Type) :=
| Return (a : A)
| Throw (error : string).
Arguments Return {A} a.
Arguments Throw {A} error.

Definition bind {A B} (c : completion A) (k : A → completion B) : completion B :=
  match c with
  | Return a => k a
  | Throw e => Throw e
  end.

(** A promise that is awaited: it resolves, it is rejected, or it stays
    pending for ever, and then the code after the [await] never runs. *)
Inductive promise (A : Type) :=
| Resolved (a : A)
| Rejected (error : string)
| Pending.
Arguments Resolved {A} a.
Arguments Rejected {A} error.
Arguments Pending {A}.

(** [x < y] where [x] may be [undefined]: [undefined] converts to NaN and
    every comparison with NaN is false. *)
Definition value_lt {num} `{!Number num} (x : value num) (y : num) : bool :=
  match x with
  | Num a => num_lt a y
  | Undefined => false
  end.

(** ** Arrays *)

(** [a[k]] for a number [k]: the element when [k] is a non-negative integer
    below the length, [undefined] otherwise (no such property). *)
Definition array_index (q : Q) : option nat :=
  if Qeq_bool q (inject_Z (Qfloor q)) && (0 <=? Qfloor q)
  then Some (Z.to_nat (Qfloor q)) else None.

Definition array_get {num} `{!Number num} (a : list num) (k : num) : value num :=
  match num_view k with
  | VFin q =>
      match array_index q with
      | Some i => match a !! i with Some x => Num x | None => Undefined end
      | None => Undefined
      end
  | _ => Undefined
  end.

(** [a.sort((x, y) => x - y)]: the sort is stable and places [x] after [y]
    exactly when the comparator is positive (a NaN comparator result counts
    as zero); on the numbers of a run it is the ascending sort.  Modelled
    as the stable insertion sort. *)
Section Sort.
Context {num : Type} `{!Number num}.

Definition comparator (x y : num) : num := num_sub x y.

Fixpoint sort_insert (x : num) (sorted : list num) : list num :=
  match sorted with
  | [] => [x]
  | y :: rest =>
      if num_gt (comparator x y) (num_of_Z 0)
      then y :: sort_insert x rest
      else x :: y :: rest
  end.

Definition Array_sort (a : list num) : list num := foldr sort_insert [] a.
End Sort.

(** ** Plain objects used as dictionaries *)

(** The property names every plain object inherits from
    [Object.prototype]. *)
Definition Object_prototype : list string :=
  ["constructor"; "__proto__"; "__defineGetter__"; "__defineSetter__";
   "__lookupGetter__"; "__lookupSetter__"; "hasOwnProperty"; "isPrototypeOf";
   "propertyIsEnumerable"; "toLocaleString"; "toString"; "valueOf"].

Definition inherited (key : string) : bool :=
  existsb (String.eqb key) Object_prototype.

(** ** Strings *)

Fixpoint starts_with (prefix s : string) : bool :=
  match prefix, s with
  | EmptyString, _ => true
  | String a p, String b s' => if Ascii.eqb a b then starts_with p s' else false
  | String _ _, EmptyString => false
  end.

(** [s.includes(search)] *)
Fixpoint String_includes (s search : string) : bool :=
  starts_with search s ||
  match s with
  | EmptyString => false
  | String _ s' => String_includes s' search
  end.

(** The decimal digits of a non-negative integer, as [Number::toString]
    prints an integer below 10^21. *)
Definition decimal (n : N) : string := NilZero.string_of_uint (N.to_uint n).

Definition decimal_Z (z : Z) : string :=
  if z <? 0 then "-" +:+ decimal (Z.to_N (- z)) else decimal (Z.to_N z).

Fixpoint zeros (k : nat) : string :=
  match k with
  | O => EmptyString
  | S k' => String "0" (zeros k')
  end.

(** Steps 8 to 10 of [Number.prototype.toFixed]: the digits of [n], padded
    on the left with zeros to [f + 1] digits, with a point before the last
    [f] of them. *)
Definition fixed_digits (f : nat) (n : N) : string :=
  let m := decimal n in
  match f with
  | O => m
  | _ =>
      let m := if (String.length m <=? f)%nat then zeros (f + 1 - String.length m) +:+ m else m in
      let k := String.length m in
      substring 0 (k - f) m +:+ "." +:+ substring (k - f) f m
  end.

(** The number a string of decimal digits denotes. *)
Definition digits_value (s : string) : option N :=
  N.of_uint <$> NilEmpty.uint_of_string s.

Section ToFixed.
Context {num : Type} `{!Number num}.

(** [Number::toString] of the engine.  [toFixed] falls back to it for a
    magnitude of 10^21 or more; its digits there (and those of an
    infinity) are the engine's business. *)
Variable Number_toString : num → string.

(** [x.toFixed(f)]: NaN prints as such; otherwise the sign is split off
    and the magnitude is printed with the integer [n] for which
    [n / 10^f] is nearest to it, the larger one on a tie. *)
Definition toFixed (f : nat) (x : num) : string :=
  match num_view x with
  | VNaN => "NaN"
  | VInf negative =>
      if negative then "-" +:+ Number_toString (num_neg x) else Number_toString x
  | VFin q =>
      let s := if Qle_bool 0 q then "" else "-" in
      let x' := if Qle_bool 0 q then x else num_neg x in
      let a := Qabs q in
      if Qle_bool (inject_Z (10 ^ 21)) a
      then s +:+ Number_toString x'
      else s +:+ fixed_digits f (Z.to_N (Qfloor (a * inject_Z (10 ^ Z.of_nat f) + (1 # 2))))
  end.
End ToFixed.

End JS.

(** * Two implementations of the numbers *)

(** ** Exact numbers: the rationals with NaN and the two infinities

    Sums, products and quotients are kept in lowest terms ([Qred]), which
    changes no value and keeps long runs computable. *)

Module Exact.
Import JS.

Inductive xnum :=
| Fin (q : Q)
| NaN
| PosInf
| NegInf.

Definition neg (x : xnum) : xnum :=
  match x with
  | Fin q => Fin (- q)
  | NaN => NaN
  | PosInf => NegInf
  | NegInf => PosInf
  end.

Definition add (x y : xnum) : xnum :=
  match x, y with
  | NaN, _ | _, NaN => NaN
  | Fin a, Fin b => Fin (Qred (a + b))
  | PosInf, NegInf | NegInf, PosInf => NaN
  | PosInf, _ | _, PosInf => PosInf
  | NegInf, _ | _, NegInf => NegInf
  end.

Definition sub (x y : xnum) : xnum := add x (neg y).

(** The infinity with the sign of [q] times the sign of [negative]; NaN
    for the product of an infinity and zero. *)
Definition scaled_infinity (negative : bool) (q : Q) : xnum :=
  if Qeq_bool q 0 then NaN
  else if xorb negative (Qle_bool 0 q) then PosInf else NegInf.

Definition mul (x y : xnum) : xnum :=
  match x, y with
  | NaN, _ | _, NaN => NaN
  | Fin a, Fin b => Fin (Qred (a * b))
  | PosInf, Fin q | Fin q, PosInf => scaled_infinity false q
  | NegInf, Fin q | Fin q, NegInf => scaled_infinity true q
  | PosInf, PosInf | NegInf, NegInf => PosInf
  | PosInf, NegInf | NegInf, PosInf => NegInf
  end.

Definition div (x y : xnum) : xnum :=
  match x, y with
  | NaN, _ | _, NaN => NaN
  | Fin a, Fin b =>
      if Qeq_bool b 0
      then scaled_infinity false a
      else Fin (Qred (a / b))
  | Fin _, (PosInf | NegInf) => Fin 0
  | (PosInf | NegInf), (PosInf | NegInf) => NaN
  | PosInf, Fin b => if Qle_bool 0 b then PosInf else NegInf
  | NegInf, Fin b => if Qle_bool 0 b then NegInf else PosInf
  end.

Definition Qlt_bool (a b : Q) : bool := negb (Qle_bool b a).

Definition lt (x y : xnum) : bool :=
  match x, y with
  | NaN, _ | _, NaN => false
  | Fin a, Fin b => Qlt_bool a b
  | _, NegInf => false
  | NegInf, _ => true
  | PosInf, _ => false
  | _, PosInf => true
  end.

Definition ceil (x : xnum) : xnum :=
  match x with
  | Fin q => Fin (inject_Z (Qceiling q))
  | _ => x
  end.

Definition max (x y : xnum) : xnum :=
  match x, y with
  | NaN, _ | _, NaN => NaN
  | _, _ => if lt x y then y else x
  end.

Definition min (x y : xnum) : xnum :=
  match x, y with
  | NaN, _ | _, NaN => NaN
  | _, _ => if lt y x then y else x
  end.

Definition view_of (x : xnum) : view :=
  match x with
  | Fin q => VFin q
  | NaN => VNaN
  | PosInf => VInf false
  | NegInf => VInf true
  end.

#[global] Instance exact : Number xnum := {
  num_of_Z z := Fin (inject_Z z);
  Infinity := PosInf;
  num_neg := neg;
  num_add := add;
  num_sub := sub;
  num_mul := mul;
  num_div := div;
  num_lt := lt;
  Math_ceil := ceil;
  Math_max := max;
  Math_min := min;
  num_view := view_of
}.

End Exact.

(** ** IEEE 754 double precision *)

Module Binary64.
Import JS.

Definition prec : Z := 53.
Definition emax : Z := 1024.

Definition of_Z (z : Z) : spec_float := binary_normalize prec emax z 0 false.

(** The rational a finite double stands for. *)
Definition to_Q (negative : bool) (m : positive) (e : Z) : Q :=
  let a :=
    match e with
    | Zneg p => Qmake (Zpos m) (Pos.pow 2 p)
    | _ => inject_Z (Zpos m * 2 ^ e)
    end in
  if negative then Qopp a else a.

Definition view_of (x : spec_float) : view :=
  match x with
  | S754_zero _ => VFin 0
  | S754_infinity s => VInf s
  | S754_nan => VNaN
  | S754_finite s m e => VFin (to_Q s m e)
  end.

(** [Math.ceil]: a double with a non-negative exponent is an integer; the
    ceiling of a negative fraction above -1 is the negative zero. *)
Definition ceil (x : spec_float) : spec_float :=
  match x with
  | S754_finite s m e =>
      if 0 <=? e then x
      else
        let c := Qceiling (to_Q s m e) in
        if c =? 0 then S754_zero s else of_Z c
  | _ => x
  end.

Definition is_negative_zero (x : spec_float) : bool :=
  match x with
  | S754_zero true => true
  | _ => false
  end.

(** [Math.max] and [Math.min]: NaN when an argument is NaN, and the
    positive zero counts as larger than the negative zero. *)
Definition max (x y : spec_float) : spec_float :=
  match x, y with
  | S754_nan, _ | _, S754_nan => S754_nan
  | _, _ =>
      if SFltb x y then y
      else if SFltb y x then x
      else if is_negative_zero x then y else x
  end.

Definition min (x y : spec_float) : spec_float :=
  match x, y with
  | S754_nan, _ | _, S754_nan => S754_nan
  | _, _ =>
      if SFltb y x then y
      else if SFltb x y then x
      else if is_negative_zero y then y else x
  end.

#[global] Instance binary64 : Number spec_float := {
  num_of_Z := of_Z;
  Infinity := S754_infinity false;
  num_neg := SFopp;
  num_add := SFadd prec emax;
  num_sub := SFsub prec emax;
  num_mul := SFmul prec emax;
  num_div := SFdiv prec emax;
  num_lt := SFltb;
  Math_ceil := ceil;
  Math_max := max;
  Math_min := min;
  num_view := view_of
}.

End Binary64.

(** * The load generator ([loadtest.js]) *)

Module LoadTest.
Import JS.

Section Program.
Context {num : Type} `{!Number num}.

(** The command line, after [parseInt] (which yields NaN for an argument
    that is no number). *)
Record config := {
  TARGET_URL : string;
  DURATION_SECONDS : num;
  CONCURRENCY : num;
  TARGET_RPS : num
}.

Record metrics := {
  totalRequests : N;
  successfulRequests : N;
  failedRequests : N;
  totalLatency : num;
  minLatency : num;
  maxLatency : num;
  latencies : list num;
  statusCodes : gmap string N;
  errors : gmap string N
}.

Definition initial_metrics : metrics := {|
  totalRequests := 0;
  successfulRequests := 0;
  failedRequests := 0;
  totalLatency := num_of_Z 0;
  minLatency := Infinity;
  maxLatency := num_of_Z 0;
  latencies := [];
  statusCodes := ∅;
  errors := ∅
|}.

(** The options handed to [httpModule.get]; the timeout is in
    milliseconds. *)
Record options := {
  headers : gmap string string;
  timeout : Z
}.

Definition request_options : options := {|
  headers := {[ "Accept-Encoding" := "gzip, deflate"; "Connection" := "keep-alive" ]};
  timeout := 30000
|}.

(** [counts[key] = (counts[key] || 0) + 1] on a plain object; [counts]
    holds its numeric entries.  Under a name that the object inherits the
    old value is the inherited one, which is truthy and no number: adding
    1 to it makes a string, so that no count is stored (for [__proto__]
    nothing at all is stored). *)
Definition bump (key : string) (counts : gmap string N) : gmap string N :=
  if inherited key then counts
  else <[key := (default 0 (counts !! key) + 1)%N]> counts.

(** The [res.on("end")] callback; [startTime] and [endTime] are the two
    [process.hrtime.bigint()] readings, in nanoseconds. *)
Definition on_end (statusCode : N) (startTime endTime : Z) (m : metrics) : metrics :=
  let latencyMs := num_div (num_of_Z (endTime - startTime)) (num_of_Z 1000000) in
  let success := ((200 <=? statusCode) && (statusCode <? 400))%N in
  {| totalRequests := totalRequests m + 1;
     totalLatency := num_add (totalLatency m) latencyMs;
     latencies := latencies m ++ [latencyMs];
     minLatency := Math_min (minLatency m) latencyMs;
     maxLatency := Math_max (maxLatency m) latencyMs;
     statusCodes := bump (decimal statusCode) (statusCodes m);
     successfulRequests := if success then successfulRequests m + 1 else successfulRequests m;
     failedRequests := if success then failedRequests m else failedRequests m + 1;
     errors := errors m |}%N.

(** An error object: its [code] may be missing. *)
Record error := {
  code : option string;
  message : string
}.

(** [err.code || err.message]: a missing or empty code is falsy. *)
Definition errorType (err : error) : string :=
  match code err with
  | Some c => if String.eqb c "" then message err else c
  | None => message err
  end.

Definition failed_with (kind : string) (m : metrics) : metrics :=
  {| totalRequests := totalRequests m + 1;
     failedRequests := failedRequests m + 1;
     errors := bump kind (errors m);
     successfulRequests := successfulRequests m;
     totalLatency := totalLatency m;
     minLatency := minLatency m;
     maxLatency := maxLatency m;
     latencies := latencies m;
     statusCodes := statusCodes m |}%N.

(** The [req.on("error")] callback. *)
Definition on_error (err : error) (m : metrics) : metrics :=
  failed_with (errorType err) m.

(** The [req.on("timeout")] callback; its [req.destroy()] is accounted
    for in [callbacks] below. *)
Definition on_timeout (m : metrics) : metrics :=
  failed_with "TIMEOUT" m.

(** A callback of [makeRequest] that fires: the [end] of the response, the
    [error] of the request or its [timeout]. *)
Inductive outcome :=
| ResponseEnd (statusCode : N) (startTime endTime : Z)
| RequestError (err : error)
| RequestTimeout.

Definition record (m : metrics) (o : outcome) : metrics :=
  match o with
  | ResponseEnd statusCode startTime endTime => on_end statusCode startTime endTime m
  | RequestError err => on_error err m
  | RequestTimeout => on_timeout m
  end.

(** The error that Node emits on a request which is destroyed before its
    response has come. *)
Definition socket_hang_up : error :=
  {| code := Some "ECONNRESET"; message := "socket hang up" |}.

(** What becomes of a request:
    - the response comes and ends;
    - the socket reports an error (a refused connection, a reset);
    - the socket stays idle for [timeout] milliseconds before a response
      has come;
    - the socket stays idle for [timeout] milliseconds after the response
      has begun;
    - the response begins and the connection is closed before it ends. *)
Inductive fate :=
| Responded (statusCode : N) (startTime endTime : Z)
| Failed (err : error)
| TimedOut
| TimedOutResponding
| Cut.

(** The callbacks of [makeRequest] that fire for a request, in order.
    The [timeout] listener destroys the request.  A request without a
    response then emits [error] with [socket_hang_up], so that the [error]
    listener runs as well; when the response has begun, the error goes to
    the response instead.  A response whose connection closes early never
    emits [end], and it emits [error] only to a listener, of which it has
    none here. *)
Definition callbacks (f : fate) : list outcome :=
  match f with
  | Responded statusCode startTime endTime => [ResponseEnd statusCode startTime endTime]
  | Failed err => [RequestError err]
  | TimedOut => [RequestTimeout; RequestError socket_hang_up]
  | TimedOutResponding => [RequestTimeout]
  | Cut => []
  end.

(** [makeRequest()]: every callback that fires records what it saw and
    calls [resolve()].  The promise resolves at the first of them (a later
    [resolve()] does nothing), nothing ever rejects it, and it stays
    pending when no callback fires. *)
Definition makeRequest (f : fate) (m : metrics) : promise unit * metrics :=
  (match callbacks f with
   | [] => Pending
   | _ :: _ => Resolved tt
   end,
   fold_left record (callbacks f) m).

Definition delayBetweenRequests (c : config) : num :=
  num_div (num_of_Z 1000) (num_div (TARGET_RPS c) (CONCURRENCY c)).

Definition endTime (c : config) (startTime : Z) : num :=
  num_add (num_of_Z startTime) (num_mul (DURATION_SECONDS c) (num_of_Z 1000)).

(** One issuing loop, [worker()].  Each element of [iterations] is the
    [Date.now()] reading of a loop test and what becomes of the request
    issued after it; [running] stays true until every loop has finished.
    The loop goes on when the awaited promise has resolved; it would end
    by throwing if the promise were rejected, and it never goes on while
    the promise is pending. *)
Fixpoint worker (endTime : num) (iterations : list (Z * fate)) (m : metrics)
  : promise unit * metrics :=
  match iterations with
  | [] => (Resolved tt, m)
  | (now, f) :: rest =>
      if num_lt (num_of_Z now) endTime
      then
        match makeRequest f m with
        | (Resolved _, m') => worker endTime rest m'
        | (Rejected e, m') => (Rejected e, m')
        | (Pending, m') => (Pending, m')
        end
      else (Resolved tt, m)
  end.

(** The shared accumulator after the callbacks of all loops, in the order
    in which they fired. *)
Definition run (outcomes : list outcome) : metrics :=
  fold_left record outcomes initial_metrics.

Definition calculatePercentile (sortedArray : list num) (percentile : num) : value num :=
  if (length sortedArray =? 0)%nat then Num (num_of_Z 0)
  else
    let index :=
      num_sub
        (Math_ceil (num_mul (num_div percentile (num_of_Z 100))
                            (num_of_Z (Z.of_nat (length sortedArray)))))
        (num_of_Z 1) in
    array_get sortedArray (Math_max (num_of_Z 0) index).

(** ** The final report of [runLoadTest] *)

Record check := {
  name : string;
  passed : bool
}.

Definition successRate (m : metrics) : num :=
  num_mul (num_div (num_of_N (successfulRequests m)) (num_of_N (totalRequests m)))
          (num_of_Z 100).

Definition connectionErrors (m : metrics) : N :=
  (default 0 (errors m !! "ECONNREFUSED") +
   default 0 (errors m !! "ECONNRESET") +
   default 0 (errors m !! "TIMEOUT"))%N.

Definition percentile_of (m : metrics) (p : Z) : value num :=
  calculatePercentile (Array_sort (latencies m)) (num_of_Z p).

(** The receiver of a [.toFixed(2)] call in the printed results: calling
    a method on [undefined] throws. *)
Definition printable (x : value num) : completion num :=
  match x with
  | Num a => Return a
  | Undefined => Throw "TypeError"
  end.

Definition checks (m : metrics) (p95 p99 : num) : list check :=
  [ {| name := "Success Rate > 99%"; passed := num_gt (successRate m) (num_of_Z 99) |};
    {| name := "P95 Latency < 500ms"; passed := num_lt p95 (num_of_Z 500) |};
    {| name := "P99 Latency < 1000ms"; passed := num_lt p99 (num_of_Z 1000) |};
    {| name := "No Connection Errors"; passed := (connectionErrors m =? 0)%N |} ].

(** [for (const check of checks) if (!check.passed) allPassed = false] *)
Definition allPassed (cs : list check) : bool :=
  fold_left (fun all c => if negb (passed c) then false else all) cs true.

(** The end of [runLoadTest]: the percentiles of the sorted latencies, the
    printed results (of the console output only what can throw is kept:
    the [toFixed] calls on the three percentiles), the validation, and the
    exit code handed to [process.exit]. *)
Definition report (m : metrics) : completion N :=
  bind (printable (percentile_of m 50)) (fun p50 =>
  bind (printable (percentile_of m 95)) (fun p95 =>
  bind (printable (percentile_of m 99)) (fun p99 =>
  Return (if allPassed (checks m p95 p99) then 0%N else 1%N)))).

(** [runLoadTest().catch(err => process.exit(1))] *)
Definition exit_code (r : completion N) : N :=
  match r with
  | Return c => c
  | Throw _ => 1%N
  end.

Definition runLoadTest (outcomes : list outcome) : completion N :=
  report (run outcomes).

(** ** The rest of [loadtest.js] *)

(** [args.indexOf(x)]: the first position of [x], or -1. *)
Fixpoint indexOf (args : list string) (x : string) : Z :=
  match args with
  | [] => -1
  | a :: rest =>
      if String.eqb a x then 0
      else
        let index := indexOf rest x in
        if index =? -1 then -1 else index + 1
  end.

(** [getArg(name, defaultValue)] over the arguments [args] of the command
    line; [None] is [undefined], which is what reading past the end of
    [args] yields. *)
Definition getArg (args : list string) (name defaultValue : string) : option string :=
  let index := indexOf args ("--" +:+ name) in
  if negb (index =? -1) then args !! Z.to_nat (index + 1) else Some defaultValue.

(** The average printed in the results:
    [totalRequests > 0 ? totalLatency / totalRequests : 0]. *)
Definition avgLatency (m : metrics) : num :=
  if (0 <? totalRequests m)%N
  then num_div (totalLatency m) (num_of_N (totalRequests m))
  else num_of_Z 0.
End Program.

Arguments config num : clear implicits.
Arguments metrics num : clear implicits.

End LoadTest.

(** * The clustered server *)

Module Server.
Import JS.

(** ** The primary process: the supervisor of the workers *)

Module Primary.

(** What the primary does to the outside. *)
Inductive action :=
| Fork (id : N)
| Kill (id : N) (signal : string)
| Exit (code : N).

(** What happens to the primary: a worker process is gone (the cluster
    module emits ["exit"] with the worker, its exit code and the signal
    that killed it), or the primary receives SIGTERM. *)
Inductive event :=
| WorkerExit (id : N) (code : option Z) (signal : option string)
| SIGTERM.

#[global] Instance event_eq_dec : EqDecision event.
Proof. solve_decision. Defined.

(** [workers] holds the ids of the live worker processes
    ([cluster.workers]); [next_id] is the id the cluster module gives to
    the next worker; [running] is false once the primary has exited. *)
Record primary := {
  running : bool;
  workers : gset N;
  next_id : N
}.

Definition cluster_fork (s : primary) : primary * list action :=
  ({| running := running s;
      workers := {[next_id s]} ∪ workers s;
      next_id := (next_id s + 1)%N |},
   [Fork (next_id s)]).

(** [for (let i = 0; i < numCPUs; i++) cluster.fork()] *)
Fixpoint fork_workers (numCPUs : nat) (s : primary) : primary * list action :=
  match numCPUs with
  | O => (s, [])
  | S n =>
      let '(s1, a1) := cluster_fork s in
      let '(s2, a2) := fork_workers n s1 in
      (s2, a1 ++ a2)
  end.

Definition start (numCPUs : nat) : primary * list action :=
  fork_workers numCPUs {| running := true; workers := ∅; next_id := 1 |}.

(** The ["exit"] listener: whatever the code or the signal, fork. *)
Definition on_exit (id : N) (code : option Z) (signal : option string) (s : primary)
  : primary * list action :=
  cluster_fork s.

(** [for (const id in cluster.workers)] visits the ids in ascending
    order. *)
Definition ascending (ids : gset N) : list N := merge_sort N.le (elements ids).

(** The SIGTERM listener: signal every worker, then exit at once. *)
Definition on_SIGTERM (s : primary) : primary * list action :=
  ({| running := false; workers := workers s; next_id := next_id s |},
   map (fun id => Kill id "SIGTERM") (ascending (workers s)) ++ [Exit 0]).

(** A gone worker is no longer in [cluster.workers].  Listeners run only
    while the primary process exists. *)
Definition handle (s : primary) (e : event) : primary * list action :=
  match e with
  | WorkerExit id code signal =>
      let s' := {| running := running s;
                   workers := workers s ∖ {[id]};
                   next_id := next_id s |} in
      if running s then on_exit id code signal s' else (s', [])
  | SIGTERM =>
      if running s then on_SIGTERM s else (s, [])
  end.

(** Only a live worker can exit. *)
Definition possible (s : primary) (e : event) : Prop :=
  match e with
  | WorkerExit id _ _ => id ∈ workers s
  | SIGTERM => True
  end.

Fixpoint handle_all (s : primary) (es : list event) : primary * list action :=
  match es with
  | [] => (s, [])
  | e :: rest =>
      let '(s1, a1) := handle s e in
      let '(s2, a2) := handle_all s1 rest in
      (s2, a1 ++ a2)
  end.

Fixpoint possible_all (s : primary) (es : list event) : Prop :=
  match es with
  | [] => True
  | e :: rest => possible s e ∧ possible_all (handle s e).1 rest
  end.

Definition forks (actions : list action) : list N :=
  omap (fun a => match a with Fork id => Some id | _ => None end) actions.

End Primary.

(** ** A worker process: the request handler *)

Module Worker.
Section Program.
Context {num : Type} `{!Number num}.

(** [Number::toString] of the engine (see [toFixed]). *)
Variable Number_toString : num → string.
(** The page, as the bytes of its UTF-8 text, and [zlib.gzipSync]. *)
Variable html : string.
Variable gzipSync : list Byte.byte → list Byte.byte.
(** [process.pid] *)
Variable pid : N.

Record metrics := {
  requestCount : N;
  totalResponseTime : num;
  startTime : Z;
  errors : N
}.

(** [startTime] is the [Date.now()] reading taken when the worker starts. *)
Definition initial_metrics (startTime : Z) : metrics :=
  {| requestCount := 0; totalResponseTime := num_of_Z 0; startTime := startTime; errors := 0 |}.

Definition htmlBuffer : list Byte.byte := list_byte_of_string html.
Definition compressedHtml : list Byte.byte := gzipSync htmlBuffer.

(** The request, as far as the handler looks at it. *)
Record request := {
  url : string;
  headers : gmap string string
}.

(** The clock readings the handler takes: [process.hrtime.bigint()] on
    entry and after the response is handed over, [Date.now()] between. *)
Record readings := {
  hr_start : Z;
  now : Z;
  hr_end : Z
}.

Inductive json :=
| JNumber (x : num)
| JString (s : string).

Inductive content :=
| Json (fields : list (string * json))
| Text (s : string)
| Bytes (b : list Byte.byte).

Inductive header_value :=
| HString (s : string)
| HNumber (n : N).

Record response := {
  statusCode : N;
  response_headers : gmap string header_value;
  body : option content
}.

Definition fresh_response : response :=
  {| statusCode := 200; response_headers := ∅; body := None |}.

Definition set_statusCode (c : N) (res : response) : response :=
  {| statusCode := c; response_headers := response_headers res; body := body res |}.

Definition setHeader (name : string) (v : header_value) (res : response) : response :=
  {| statusCode := statusCode res;
     response_headers := <[name := v]> (response_headers res);
     body := body res |}.

Definition end_with (c : content) (res : response) : response :=
  {| statusCode := statusCode res;
     response_headers := response_headers res;
     body := Some c |}.

Definition quote : string := String (ascii_of_nat 34) EmptyString.

(** [requestCount > 0 ? (totalResponseTime / requestCount).toFixed(2) : 0] *)
Definition avgResponseTime (m : metrics) : json :=
  if (0 <? requestCount m)%N
  then JString (toFixed Number_toString 2
                  (num_div (totalResponseTime m) (num_of_N (requestCount m))))
  else JNumber (num_of_Z 0).

(** A number or a string interpolated into a template. *)
Definition interpolate (j : json) : string :=
  match j with
  | JNumber x => Number_toString x
  | JString s => s
  end.

Definition health (t : readings) (m : metrics) : response :=
  let uptime := now t - startTime m in
  end_with (Json [ ("status", JString "healthy");
                   ("worker", JNumber (num_of_N pid));
                   ("uptime_ms", JNumber (num_of_Z uptime));
                   ("requests_handled", JNumber (num_of_N (requestCount m)));
                   ("avg_response_time_ms", avgResponseTime m);
                   ("errors", JNumber (num_of_N (errors m))) ])
    (setHeader "Cache-Control" (HString "no-cache, no-store, must-revalidate")
      (setHeader "Content-Type" (HString "application/json")
        (set_statusCode 200 fresh_response))).

Definition worker_label : string :=
  "{worker=" +:+ quote +:+ decimal pid +:+ quote +:+ "} ".

Definition metrics_text (t : readings) (m : metrics) : string :=
  let uptime := now t - startTime m in
  "# HELP http_requests_total Total HTTP requests handled
# TYPE http_requests_total counter
http_requests_total" +:+ worker_label +:+ decimal (requestCount m) +:+ "

# HELP http_response_time_avg_ms Average response time in milliseconds
# TYPE http_response_time_avg_ms gauge
http_response_time_avg_ms" +:+ worker_label +:+ interpolate (avgResponseTime m) +:+ "

# HELP process_uptime_ms Process uptime in milliseconds
# TYPE process_uptime_ms gauge
process_uptime_ms" +:+ worker_label +:+ decimal_Z uptime +:+ "

# HELP http_errors_total Total HTTP errors
# TYPE http_errors_total counter
http_errors_total" +:+ worker_label +:+ decimal (errors m) +:+ "
".

Definition metrics_endpoint (t : readings) (m : metrics) : response :=
  end_with (Text (metrics_text t m))
    (setHeader "Cache-Control" (HString "no-cache, no-store, must-revalidate")
      (setHeader "Content-Type" (HString "text/plain")
        (set_statusCode 200 fresh_response))).

(** The page: the headers common to both encodings, then the body in
    the encoding the request accepts. *)
Definition page (req : request) : response :=
  let res :=
    setHeader "X-Frame-Options" (HString "DENY")
      (setHeader "X-Content-Type-Options" (HString "nosniff")
        (setHeader "ETag"
           (HString (quote +:+ decimal (N.of_nat (length htmlBuffer)) +:+ "-v1" +:+ quote))
          (setHeader "Cache-Control"
             (HString "public, max-age=300, stale-while-revalidate=600")
            (setHeader "Content-Type" (HString "text/html; charset=utf-8")
              (set_statusCode 200 fresh_response))))) in
  let acceptEncoding := default "" (headers req !! "accept-encoding") in
  if String_includes acceptEncoding "gzip"
  then
    end_with (Bytes compressedHtml)
      (setHeader "Content-Length" (HNumber (N.of_nat (length compressedHtml)))
        (setHeader "Content-Encoding" (HString "gzip") res))
  else
    end_with (Bytes htmlBuffer)
      (setHeader "Content-Length" (HNumber (N.of_nat (length htmlBuffer))) res).

(** The callback of [http.createServer]. *)
Definition handler (req : request) (t : readings) (m : metrics) : response * metrics :=
  if String.eqb (url req) "/health" then (health t m, m)
  else if String.eqb (url req) "/metrics" then (metrics_endpoint t m, m)
  else
    let m1 := {| requestCount := requestCount m + 1;
                 totalResponseTime := totalResponseTime m;
                 startTime := startTime m;
                 errors := errors m |}%N in
    let res := page req in
    let responseTimeMs := num_div (num_of_Z (hr_end t - hr_start t)) (num_of_Z 1000000) in
    (res,
     {| requestCount := requestCount m1;
        totalResponseTime := num_add (totalResponseTime m1) responseTimeMs;
        startTime := startTime m1;
        errors := errors m1 |}).

(** The ["error"] listener of the server. *)
Definition on_error (m : metrics) : metrics :=
  {| requestCount := requestCount m;
     totalResponseTime := totalResponseTime m;
     startTime := startTime m;
     errors := errors m + 1 |}%N.

(** What happens to a worker: a request arrives (and the handler takes its
    clock readings), or the server reports an error. *)
Inductive event :=
| Request (req : request) (t : readings)
| ServerError.

Definition step (m : metrics) (e : event) : metrics :=
  match e with
  | Request req t => (handler req t m).2
  | ServerError => on_error m
  end.

(** The accumulator of a worker started at [startTime], after the events. *)
Definition serve (startTime : Z) (events : list event) : metrics :=
  fold_left step events (initial_metrics startTime).

(** The value of a field of a JSON body. *)
Definition field (key : string) (res : response) : option json :=
  match body res with
  | Some (Json fields) => snd <$> find (fun kv => String.eqb (fst kv) key) fields
  | _ => None
  end.
End Program.

Arguments metrics num : clear implicits.
Arguments json num : clear implicits.
Arguments content num : clear implicits.
Arguments response num : clear implicits.

End Worker.

End Server.

(** * The theme script of the page *)

(** The script at the end of the page that the workers send.  It runs in
    the browser: it reads the clock, keeps the visitor's choice in
    [localStorage] (taken to be available) and shows a theme through the
    attribute [data-theme] of the root element and the text of the label
    of the toggle. *)
Module Theme.
Import JS.

(** The values the script meets: what [JSON.parse] returns, and
    [undefined] for a property that is not there.  The properties of an
    object are listed in insertion order, each key once. *)
#[warnings="-register-all"] Inductive value :=
| VUndefined
| VNull
| VBoolean (b : bool)
| VNumber (x : spec_float)
| VString (s : string)
| VArray (items : list value)
| VObject (properties : list (string * value)).

(** What a [new Date()] tells the script, in the visitor's local time. *)
Record date := {
  getMonth : Z;
  getDate : Z;
  getHours : Z
}.

(** What the script reads and writes of the browser: the item
    [theme-preference] of [localStorage], the attribute [data-theme] of
    [document.documentElement], the text of the element [.toggle-label]
    (if there is one), and whether there is an element [#theme-toggle]. *)
Record browser := {
  localStorage : option string;
  data_theme : option string;
  toggle_label : option string;
  toggle_button : bool
}.

Definition DAY_START : Z := 6.
Definition DAY_END : Z := 18.

Definition isChristmas (now : date) : bool :=
  (getMonth now =? 11) && (getDate now =? 25).

Definition isDaytime (now : date) : bool :=
  let hour := getHours now in
  (DAY_START <=? hour) && (hour <? DAY_END).

(** [{ mode, theme }] *)
Definition preference (mode theme : value) : value :=
  VObject [("mode", mode); ("theme", theme)].

Fixpoint property (key : string) (properties : list (string * value)) : value :=
  match properties with
  | [] => VUndefined
  | (k, v) :: rest => if String.eqb k key then v else property key rest
  end.

(** [v.key], for the keys the script reads ([mode] and [theme], which no
    prototype defines): a TypeError on [null] and [undefined]. *)
Definition get (v : value) (key : string) : completion value :=
  match v with
  | VUndefined | VNull => Throw "TypeError"
  | VObject properties => Return (property key properties)
  | _ => Return VUndefined
  end.

(** [v === s] for a string [s]. *)
Definition is_string (v : value) (s : string) : bool :=
  match v with
  | VString s' => String.eqb s' s
  | _ => false
  end.

Definition setAttribute (v : string) (b : browser) : browser :=
  {| localStorage := localStorage b; data_theme := Some v;
     toggle_label := toggle_label b; toggle_button := toggle_button b |}.

Definition removeAttribute (b : browser) : browser :=
  {| localStorage := localStorage b; data_theme := None;
     toggle_label := toggle_label b; toggle_button := toggle_button b |}.

(** [if (toggleLabel) toggleLabel.textContent = text] *)
Definition set_textContent (text : string) (b : browser) : browser :=
  {| localStorage := localStorage b; data_theme := data_theme b;
     toggle_label := match toggle_label b with Some _ => Some text | None => None end;
     toggle_button := toggle_button b |}.

Definition setItem (v : string) (b : browser) : browser :=
  {| localStorage := Some v; data_theme := data_theme b;
     toggle_label := toggle_label b; toggle_button := toggle_button b |}.

Definition applyTheme (theme : value) (b : browser) : browser :=
  if is_string theme "christmas" then
    set_textContent "Merry Christmas!" (setAttribute "christmas" b)
  else if is_string theme "day" then
    set_textContent "Switch to Night" (setAttribute "day" b)
  else
    set_textContent "Switch to Day" (removeAttribute b).

Section Program.

(** The built-ins [JSON.parse] (which throws on a text that is not JSON)
    and [JSON.stringify]. *)
Variable JSON_parse : string → completion value.
Variable JSON_stringify : value → string.

(** An empty string is falsy, as is [null]. *)
Definition getThemePreference (b : browser) : completion value :=
  match localStorage b with
  | Some stored =>
      if String.eqb stored "" then Return (preference (VString "auto") VNull)
      else JSON_parse stored
  | None => Return (preference (VString "auto") VNull)
  end.

Definition saveThemePreference (mode theme : string) (b : browser) : browser :=
  setItem (JSON_stringify (preference (VString mode) (VString theme))) b.

(** [isChristmas] and [isDaytime] each take a reading of the clock of
    their own: [christmas_reading] and [daytime_reading]. *)
Definition getCurrentTheme (b : browser) (christmas_reading daytime_reading : date)
  : completion value :=
  bind (getThemePreference b) (λ pref,
  bind (get pref "mode") (λ mode,
    if is_string mode "auto" && isChristmas christmas_reading then Return (VString "christmas")
    else if is_string mode "manual" then get pref "theme"
    else Return (VString (if isDaytime daytime_reading then "day" else "night")))).

Definition initTheme (b : browser) (christmas_reading daytime_reading : date)
  : completion browser :=
  bind (getCurrentTheme b christmas_reading daytime_reading) (λ theme,
  Return (applyTheme theme b)).

Definition toggleTheme (b : browser) : browser :=
  let currentTheme :=
    match data_theme b with
    | Some v => if String.eqb v "day" then "day" else "night"
    | None => "night"
    end in
  let newTheme := if String.eqb currentTheme "day" then "night" else "day" in
  saveThemePreference "manual" newTheme (applyTheme (VString newTheme) b).

(** The function that [setInterval] calls every minute. *)
Definition tick (b : browser) (christmas_reading daytime_reading : date)
  : completion browser :=
  bind (getThemePreference b) (λ pref,
  bind (get pref "mode") (λ mode,
    if is_string mode "auto" then
      let theme :=
        if isChristmas christmas_reading then "christmas"
        else if isDaytime daytime_reading then "day" else "night" in
      Return (applyTheme (VString theme) b)
    else Return b)).

(** The page while the script is in it: whether the listener for
    [DOMContentLoaded] is registered, whether [toggleTheme] listens to the
    clicks on the button, and whether the interval is set. *)
Record page := {
  dom : browser;
  awaits_DOMContentLoaded : bool;
  listens_to_click : bool;
  interval_set : bool
}.

(** The body of the script: [initTheme()], then the listener and the
    interval.  An exception of [initTheme] ends the script there. *)
Definition load (b : browser) (christmas_reading daytime_reading : date) : page :=
  match initTheme b christmas_reading daytime_reading with
  | Return b' =>
      {| dom := b'; awaits_DOMContentLoaded := true;
         listens_to_click := false; interval_set := true |}
  | Throw _ =>
      {| dom := b; awaits_DOMContentLoaded := false;
         listens_to_click := false; interval_set := false |}
  end.

Inductive event :=
| DOMContentLoaded
| Click
| Tick (christmas_reading daytime_reading : date).

(** An exception in the function of the interval ends that call only. *)
Definition step (p : page) (e : event) : page :=
  match e with
  | DOMContentLoaded =>
      if awaits_DOMContentLoaded p && toggle_button (dom p)
      then {| dom := dom p; awaits_DOMContentLoaded := awaits_DOMContentLoaded p;
              listens_to_click := true; interval_set := interval_set p |}
      else p
  | Click =>
      if listens_to_click p
      then {| dom := toggleTheme (dom p);
              awaits_DOMContentLoaded := awaits_DOMContentLoaded p;
              listens_to_click := listens_to_click p; interval_set := interval_set p |}
      else p
  | Tick christmas_reading daytime_reading =>
      if interval_set p
      then match tick (dom p) christmas_reading daytime_reading with
           | Return b' =>
               {| dom := b'; awaits_DOMContentLoaded := awaits_DOMContentLoaded p;
                  listens_to_click := listens_to_click p; interval_set := interval_set p |}
           | Throw _ => p
           end
      else p
  end.

Definition run (p : page) (events : list event) : page := fold_left step events p.

(** [JSON.parse] gives back the preference that [saveThemePreference]
    wrote for a manual choice of [theme], and its text is not empty. *)
Definition reads_back (theme : string) : Prop :=
  let pref := preference (VString "manual") (VString theme) in
  JSON_stringify pref ≠ "" ∧ JSON_parse (JSON_stringify pref) = Return pref.

End Program.

(** The theme and the label go together. *)
Definition consistent (b : browser) : Prop :=
  ∃ text : string,
    (toggle_label b = None ∨ toggle_label b = Some text) ∧
    (data_theme b = Some "christmas" ∧ text = "Merry Christmas!" ∨
     data_theme b = Some "day" ∧ text = "Switch to Night" ∨
     data_theme b = None ∧ text = "Switch to Day").

End Theme.

(** * The vocabulary of the properties *)

Section Vocabulary.
Import JS LoadTest.
Context {num : Type} `{!Number num}.

(** The requests a loop issues: those whose loop test read a clock
    before the deadline, up to the first that did not, and none after a
    request whose promise stays pending. *)
Fixpoint issued (endTime : num) (iterations : list (Z * fate)) : list fate :=
  match iterations with
  | [] => []
  | (now, f) :: rest =>
      if num_lt (num_of_Z now) endTime
      then f :: match callbacks f with
                | [] => []
                | _ :: _ => issued endTime rest
                end
      else []
  end.

(** Whether the promise of one of the requests stays pending. *)
Definition stalled (fates : list fate) : bool :=
  existsb (λ f, match callbacks f with [] => true | _ :: _ => false end) fates.

Definition balanced (m : metrics num) : Prop :=
  (successfulRequests m + failedRequests m = totalRequests m)%N.

(** The error kind a request is recorded under, if it failed without a
    response. *)
Definition kind (o : outcome) : option string :=
  match o with
  | ResponseEnd _ _ _ => None
  | RequestError err => Some (errorType err)
  | RequestTimeout => Some "TIMEOUT"
  end.

Definition connection_failure (o : outcome) : Prop :=
  kind o = Some "ECONNREFUSED" ∨ kind o = Some "ECONNRESET" ∨ kind o = Some "TIMEOUT".

End Vocabulary.

(** The nearest rank of the [p]-th percentile among [n] samples. *)
Definition rank (p : Q) (n : nat) : Z :=
  Qceiling (p / inject_Z 100 * inject_Z (Z.of_nat n)).

(** A request for the page: any request for a path other than [/health]
    and [/metrics]. *)
Definition page_request (e : Server.Worker.event) : bool :=
  match e with
  | Server.Worker.Request req _ =>
      negb (String.eqb (Server.Worker.url req) "/health") &&
      negb (String.eqb (Server.Worker.url req) "/metrics")
  | Server.Worker.ServerError => false
  end.

(** The cluster module numbers the workers upwards: the next id is above
    the id of every live worker. *)
Definition fresh_ids (s : Server.Primary.primary) : Prop :=
  ∀ id : N, id ∈ Server.Primary.workers s → (id < Server.Primary.next_id s)%N.

(** * Concrete figures *)

Module Figures.
Import JS LoadTest.
Section Generic.
Context {num : Type} `{!Number num}.

(** The sorted sequence [10, 20, 30, 40, 50]. *)
Definition samples : list num := num_of_Z <$> [10; 20; 30; 40; 50].

(** Ninety-nine pages served in 1 ms each and one server error. *)
Definition ninety_nine_of_100 : list outcome :=
  replicate 99 (ResponseEnd 200 0 1000000) ++ [ResponseEnd 500 0 2000000].

(** An accumulator with [s] successes among [t] requests and no latency
    samples. *)
Definition counted (s t : N) : metrics num :=
  {| totalRequests := t;
     successfulRequests := s;
     failedRequests := t - s;
     totalLatency := totalLatency initial_metrics;
     minLatency := minLatency initial_metrics;
     maxLatency := maxLatency initial_metrics;
     latencies := [];
     statusCodes := ∅;
     errors := ∅ |}.

Definition refused : error :=
  {| code := Some "ECONNREFUSED"; message := "connect ECONNREFUSED 127.0.0.1:3000" |}.

(** Three requests: a page served in 1.5 ms, a timeout, a server error. *)
Definition three : list outcome :=
  [ResponseEnd 200 0 1500000; RequestTimeout; ResponseEnd 503 10 2000010].

(** The samples [0, 1, ..., n - 1]: the percentile of these is its own
    index. *)
Definition ramp (n : nat) : list num := (λ i, num_of_Z (Z.of_nat i)) <$> seq 0 n.

(** A request for the health report, and one for the page as the load
    generator sends it. *)
Definition health_request : Server.Worker.request :=
  {| Server.Worker.url := "/health"; Server.Worker.headers := ∅ |}.

Definition page_request_gzip : Server.Worker.request :=
  {| Server.Worker.url := "/";
     Server.Worker.headers := {[ "accept-encoding" := "gzip, deflate" ]} |}.

Definition page_request_plain : Server.Worker.request :=
  {| Server.Worker.url := "/index.html"; Server.Worker.headers := ∅ |}.

Definition clock : Server.Worker.readings :=
  {| Server.Worker.hr_start := 5000000; Server.Worker.now := 61000;
     Server.Worker.hr_end := 5250000 |}.

(** A worker that has served three pages in 37 ms altogether. *)
Definition busy : Server.Worker.metrics num :=
  {| Server.Worker.requestCount := 3;
     Server.Worker.totalResponseTime := num_of_Z 37;
     Server.Worker.startTime := 1000;
     Server.Worker.errors := 0 |}.

(** Stand-ins for what lies outside the program: the page, the
    compressor and the printing of huge numbers. *)
Definition page_text : string := "<!DOCTYPE html><html></html>".
Definition stored (b : list Byte.byte) : list Byte.byte := b.

(** A compressor that changes its input: it puts the two bytes that
    begin a gzip member before it. *)
Definition framed (b : list Byte.byte) : list Byte.byte := Byte.x1f :: Byte.x8b :: b.
Definition unprinted (x : num) : string := "".
End Generic.

(** Two CPUs; worker 1 crashes, the primary is told to stop, worker 2
    exits on the signal. *)
Definition crash_then_stop : list Server.Primary.event :=
  [Server.Primary.WorkerExit 1 (Some 1) None;
   Server.Primary.SIGTERM;
   Server.Primary.WorkerExit 2 None (Some "SIGTERM")].
End Figures.

(** Equality of doubles as values of [spec_float]. *)
Definition same_double (x y : JS.value spec_float) : bool :=
  match x, y with
  | JS.Num (S754_finite s m e), JS.Num (S754_finite s' m' e') =>
      Bool.eqb s s' && (m =? m')%positive && (e =? e')
  | JS.Num (S754_zero s), JS.Num (S754_zero s') => Bool.eqb s s'
  | _, _ => false
  end.

(** The doubles choose the sample the exact nearest rank chooses. *)
Definition ranks_agree (p : Z) (n : nat) : bool :=
  same_double
    (LoadTest.calculatePercentile (num := spec_float) (Figures.ramp n) (JS.num_of_Z p))
    (JS.Num (JS.num_of_Z (Z.max 0 (rank (inject_Z p) n - 1)))).

(** * More vocabulary *)

Section Samples.
Import JS LoadTest.
Context {num : Type} `{!Number num}.

(** The latency sample a request leaves: one per response, none for a
    transport error or a timeout. *)
Definition latencyMs (o : outcome) : option num :=
  match o with
  | ResponseEnd _ startTime endTime =>
      Some (num_div (num_of_Z (endTime - startTime)) (num_of_Z 1000000))
  | _ => None
  end.

(** The status code of a response. *)
Definition status (o : outcome) : option N :=
  match o with
  | ResponseEnd statusCode _ _ => Some statusCode
  | _ => None
  end.

(** A response with a status code in [200, 400). *)
Definition succeeded (o : outcome) : bool :=
  match o with
  | ResponseEnd statusCode _ _ => ((200 <=? statusCode) && (statusCode <? 400))%N
  | _ => false
  end.

(** How often a key occurs. *)
Definition occurrences {A} `{EqDecision A} (x : A) (l : list (option A)) : N :=
  N.of_nat (length (filter (λ y, y = Some x) l)).

(** A counter of a dictionary after [more] occurrences of its key: absent
    until the first occurrence. *)
Definition counted_up (old : option N) (more : N) : option N :=
  if (more =? 0)%N then old else Some (default 0 old + more)%N.

Definition counter (n : N) : option N := counted_up None n.
End Samples.

(** A request that timed out before a response had come (it fires two
    callbacks), and one whose response was cut short (it fires none). *)
Definition timed_out (f : LoadTest.fate) : bool :=
  match f with
  | LoadTest.TimedOut => true
  | _ => false
  end.

Definition cut_short (f : LoadTest.fate) : bool :=
  match f with
  | LoadTest.Cut => true
  | _ => false
  end.

(** The error kind of a request that is recorded as failed once: under
    the kind of its error, or as a timeout while it was responding. *)
Definition failure_kind (f : LoadTest.fate) : option string :=
  match f with
  | LoadTest.Failed err => Some (LoadTest.errorType err)
  | LoadTest.TimedOutResponding => Some "TIMEOUT"
  | _ => None
  end.

(** The latency sample of a request as a rational number of milliseconds. *)
Definition sample (o : LoadTest.outcome) : option Q :=
  match o with
  | LoadTest.ResponseEnd _ startTime endTime =>
      Some (inject_Z (endTime - startTime) / inject_Z 1000000)%Q
  | _ => None
  end.

Definition Qsum (l : list Q) : Q := foldr Qplus 0%Q l.


(** A latency in doubles: a zero, or a positive double in canonical form. *)
Definition latency_double (x : spec_float) : bool :=
  match x with
  | S754_zero _ => true
  | S754_finite false m e => bounded Binary64.prec Binary64.emax m e
  | _ => false
  end.

(** The value of such a double in units of 2^-1074, the smallest positive
    double: an integer. *)
Definition ulps (x : spec_float) : Z :=
  match x with
  | S754_finite false m e => Zpos m * 2 ^ (e + 1074)
  | _ => 0
  end.

(** How many of the doubles are at most [x], and how many are below it,
    by the comparison of the engine. *)
Definition at_most_double (x : spec_float) (l : list spec_float) : nat :=
  length (filter (λ y, JS.num_lt x y = false) l).

Definition below_double (x : spec_float) (l : list spec_float) : nat :=
  length (filter (λ y, JS.num_lt y x = true) l).

(** A request for [/health] or [/metrics]. *)
Definition diagnostic (e : Server.Worker.event) : bool :=
  match e with
  | Server.Worker.Request req _ =>
      String.eqb (Server.Worker.url req) "/health" ||
      String.eqb (Server.Worker.url req) "/metrics"
  | Server.Worker.ServerError => false
  end.

Definition server_error (e : Server.Worker.event) : bool :=
  match e with
  | Server.Worker.ServerError => true
  | _ => false
  end.

(** The time a worker took over a page request, in milliseconds, as the
    handler computes it. *)
Definition response_time {num : Type} `{!JS.Number num} (e : Server.Worker.event)
  : option num :=
  if page_request e then
    match e with
    | Server.Worker.Request _ t =>
        Some (JS.num_div (JS.num_of_Z (Server.Worker.hr_end t - Server.Worker.hr_start t))
                         (JS.num_of_Z 1000000))
    | Server.Worker.ServerError => None
    end
  else None.

(** The ids [first], [first + 1], ... ([count] of them). *)
Fixpoint ids_from (first : N) (count : nat) : list N :=
  match count with
  | O => []
  | S n => first :: ids_from (first + 1) n
  end.

(** The workers that the events report as gone. *)
Definition exited (es : list Server.Primary.event) : list N :=
  omap (λ e, match e with
             | Server.Primary.WorkerExit id _ _ => Some id
             | Server.Primary.SIGTERM => None
             end) es.

(** Stand-ins for the JSON of the browser, on the two preferences the
    script writes. *)
Definition manual_text (theme : string) : string :=
  "{" +:+ Server.Worker.quote +:+ "mode" +:+ Server.Worker.quote +:+ ":"
  +:+ Server.Worker.quote +:+ "manual" +:+ Server.Worker.quote +:+ ","
  +:+ Server.Worker.quote +:+ "theme" +:+ Server.Worker.quote +:+ ":"
  +:+ Server.Worker.quote +:+ theme +:+ Server.Worker.quote +:+ "}".

Definition stringify_preference (v : Theme.value) : string :=
  match v with
  | Theme.VObject [(_, Theme.VString "manual"); (_, Theme.VString theme)] => manual_text theme
  | _ => "null"
  end.

Definition parse_preference (text : string) : JS.completion Theme.value :=
  if String.eqb text (manual_text "day")
  then JS.Return (Theme.preference (Theme.VString "manual") (Theme.VString "day"))
  else if String.eqb text (manual_text "night")
  then JS.Return (Theme.preference (Theme.VString "manual") (Theme.VString "night"))
  else if String.eqb text "null" then JS.Return Theme.VNull
  else JS.Throw "SyntaxError".

(** The page as it arrives, and as a visitor with a broken preference
    gets it. *)
Definition arrived : Theme.browser :=
  {| Theme.localStorage := None; Theme.data_theme := None;
     Theme.toggle_label := Some "Switch to Day"; Theme.toggle_button := true |}.

Definition broken : Theme.browser :=
  {| Theme.localStorage := Some "{mode"; Theme.data_theme := None;
     Theme.toggle_label := Some "Switch to Day"; Theme.toggle_button := true |}.

Definition christmas_noon : Theme.date :=
  {| Theme.getMonth := 11; Theme.getDate := 25; Theme.getHours := 12 |}.

Definition summer_night : Theme.date :=
  {| Theme.getMonth := 6; Theme.getDate := 1; Theme.getHours := 23 |}.

(** Three pages served in 10, 30 and 20 ms. *)
Definition three_pages : list LoadTest.outcome :=
  [LoadTest.ResponseEnd 200 0 10000000;
   LoadTest.ResponseEnd 200 5 30000005;
   LoadTest.ResponseEnd 304 7 20000007].

(** A thousand requests per second over a hundred loops. *)
Definition defaults {num : Type} `{!JS.Number num} : LoadTest.config num :=
  {| LoadTest.TARGET_URL := "http://localhost:3000";
     LoadTest.DURATION_SECONDS := JS.num_of_Z 60;
     LoadTest.CONCURRENCY := JS.num_of_Z 100;
     LoadTest.TARGET_RPS := JS.num_of_Z 1000 |}.

(** * Properties of the load generator *)

Section LoadGenerator.
Import JS LoadTest.
Context {num : Type} `{!Number num}.

Lemma record_total (m : metrics num) (o : outcome) :
  totalRequests (record m o) = (totalRequests m + 1)%N.
Proof. destruct o; reflexivity. Qed.

Lemma record_balanced (m : metrics num) (o : outcome) :
  balanced m → balanced (record m o).
Proof.
  unfold balanced. destruct o as [statusCode t0 t1 | err | ]; simpl; [| lia | lia].
  destruct ((200 <=? statusCode)%N && (statusCode <? 400)%N); lia.
Qed.

Lemma fold_record_balanced (outcomes : list outcome) (m : metrics num) :
  balanced m → balanced (fold_left record outcomes m).
Proof.
  revert m. induction outcomes as [| o outcomes IH]; intros m Hm; simpl.
  - exact Hm.
  - apply IH, record_balanced, Hm.
Qed.

Lemma run_snoc (outcomes : list outcome) (o : outcome) :
  run (num := num) (outcomes ++ [o]) = record (run outcomes) o.
Proof. unfold run. rewrite fold_left_app. reflexivity. Qed.

(** C4: in the accumulator of the load generator
    [successfulRequests + failedRequests = totalRequests] is kept by
    every recording step (response end, transport error, timeout), so it
    holds after each step of every run and at its completion. *)
Theorem counts_balanced_after_every_step :
  (∀ (m : metrics num) (o : outcome), balanced m → balanced (record m o)) ∧
  (∀ outcomes : list outcome, balanced (run (num := num) outcomes)) ∧
  (∀ (outcomes : list outcome) (o : outcome),
      balanced (run (num := num) outcomes) ∧ balanced (record (run outcomes) o)).
Proof.
  split; [exact record_balanced |].
  assert (Hrun : ∀ outcomes : list outcome, balanced (run (num := num) outcomes)).
  { intros outcomes. apply fold_record_balanced. reflexivity. }
  split; [exact Hrun |].
  intros outcomes o. split; [apply Hrun | apply record_balanced, Hrun].
Qed.

Lemma makeRequest_resolves (f : fate) (m : metrics num) :
  f ≠ Cut → makeRequest f m = (Resolved tt, fold_left record (callbacks f) m).
Proof. intros Hf. destruct f; first [reflexivity | congruence]. Qed.

Lemma worker_issues (endTime : num) (iterations : list (Z * fate)) (m : metrics num) :
  worker endTime iterations m
  = (if stalled (issued endTime iterations) then Pending else Resolved tt,
     fold_left record (issued endTime iterations ≫= callbacks) m).
Proof.
  revert m. induction iterations as [| [now f] rest IH]; intros m; cbn [worker issued].
  - reflexivity.
  - destruct (num_lt (num_of_Z now) endTime); [| reflexivity].
    destruct f as [statusCode t0 t1 | err | | |]; cbn [makeRequest callbacks fst snd];
      try (rewrite IH; reflexivity).
    reflexivity.
Qed.

Lemma bump_lookup (key : string) (counts : gmap string N) :
  inherited key = false →
  bump key counts !! key = Some (default 0 (counts !! key) + 1)%N.
Proof. intros Hown. unfold bump. rewrite Hown. apply lookup_insert_eq. Qed.

Lemma bump_lookup_ne (key other : string) (counts : gmap string N) :
  key ≠ other → bump key counts !! other = counts !! other.
Proof.
  intros Hne. unfold bump. destruct (inherited key); [reflexivity |].
  apply lookup_insert_ne, Hne.
Qed.

Lemma bump_inherited (key : string) (counts : gmap string N) :
  inherited key = true → bump key counts = counts.
Proof. intros Hin. unfold bump. rewrite Hin. reflexivity. Qed.

(** The digits of a number are no inherited name. *)
Lemma decimal_own (n : N) : inherited (decimal n) = false.
Proof.
  unfold decimal. destruct (N.to_uint n) as [| u | u | u | u | u | u | u | u | u | u];
    reflexivity.
Qed.

Lemma record_failure (m : metrics num) (k : string) :
  inherited k = false →
  let m' := failed_with k m in
  totalRequests m' = (totalRequests m + 1)%N ∧
  successfulRequests m' = successfulRequests m ∧
  failedRequests m' = (failedRequests m + 1)%N ∧
  errors m' !! k = Some (default 0 (errors m !! k) + 1)%N ∧
  ∀ other : string, k ≠ other → errors m' !! other = errors m !! other.
Proof.
  intros Hown. cbn. split; [reflexivity |]. split; [reflexivity |]. split; [reflexivity |].
  split; [apply bump_lookup, Hown | intros other Hne; apply bump_lookup_ne, Hne].
Qed.

(** C9: what the load generator does with a request, for everything that
    can become of it.  A response that ends is recorded once, as
    successful exactly when its status code is in [200, 400); a transport
    error before the response is recorded once, as failed under its code
    (its message when the code is missing or empty); in both cases the
    promise resolves and the loop goes on.  A timeout resolves the promise
    too.  After the response has begun it is recorded once, as failed
    under ["TIMEOUT"]; before a response it is recorded twice, as failed
    under ["TIMEOUT"] and as failed under ["ECONNRESET"], because the
    destroyed request reports an error.  A response that is cut short is
    not recorded at all and its promise stays pending: the loop that
    issued the request never goes on, whatever its later requests would
    have met. *)
Theorem cut_response_is_not_recorded_and_stalls_its_loop :
  (∀ m : metrics num, makeRequest Cut m = (Pending, m)) ∧
  (∀ (endTime : num) (now : Z) (rest : list (Z * fate)) (m : metrics num),
      num_lt (num_of_Z now) endTime = true →
      worker endTime ((now, Cut) :: rest) m = (Pending, m)) ∧
  (∀ m : metrics num,
      let m' := snd (makeRequest TimedOut m) in
      fst (makeRequest TimedOut m) = Resolved tt ∧
      totalRequests m' = (totalRequests m + 2)%N ∧
      successfulRequests m' = successfulRequests m ∧
      failedRequests m' = (failedRequests m + 2)%N ∧
      errors m' !! "TIMEOUT" = Some (default 0 (errors m !! "TIMEOUT") + 1)%N ∧
      errors m' !! "ECONNRESET" = Some (default 0 (errors m !! "ECONNRESET") + 1)%N) ∧
  (∀ m : metrics num,
      let m' := snd (makeRequest TimedOutResponding m) in
      fst (makeRequest TimedOutResponding m) = Resolved tt ∧
      totalRequests m' = (totalRequests m + 1)%N ∧
      successfulRequests m' = successfulRequests m ∧
      failedRequests m' = (failedRequests m + 1)%N ∧
      errors m' !! "TIMEOUT" = Some (default 0 (errors m !! "TIMEOUT") + 1)%N) ∧
  (∀ (m : metrics num) (statusCode : N) (t0 t1 : Z),
      let m' := snd (makeRequest (Responded statusCode t0 t1) m) in
      fst (makeRequest (Responded statusCode t0 t1) m) = Resolved tt ∧
      totalRequests m' = (totalRequests m + 1)%N ∧
      ((200 ≤ statusCode < 400)%N →
         successfulRequests m' = (successfulRequests m + 1)%N ∧
         failedRequests m' = failedRequests m) ∧
      (¬ (200 ≤ statusCode < 400)%N →
         successfulRequests m' = successfulRequests m ∧
         failedRequests m' = (failedRequests m + 1)%N) ∧
      errors m' = errors m) ∧
  (∀ (m : metrics num) (err : error),
      let m' := snd (makeRequest (Failed err) m) in
      fst (makeRequest (Failed err) m) = Resolved tt ∧
      totalRequests m' = (totalRequests m + 1)%N ∧
      successfulRequests m' = successfulRequests m ∧
      failedRequests m' = (failedRequests m + 1)%N ∧
      (inherited (errorType err) = false →
         errors m' !! errorType err = Some (default 0 (errors m !! errorType err) + 1)%N) ∧
      (inherited (errorType err) = true → errors m' = errors m) ∧
      (∀ c : string, code err = Some c → c ≠ "" → errorType err = c) ∧
      (code err = None ∨ code err = Some "" → errorType err = message err)) ∧
  timeout request_options = 30000 ∧
  (∀ (endTime : num) (now : Z) (f : fate) (rest : list (Z * fate)) (m : metrics num),
      num_lt (num_of_Z now) endTime = true → f ≠ Cut →
      worker endTime ((now, f) :: rest) m = worker endTime rest (snd (makeRequest f m))) ∧
  (∀ (endTime : num) (iterations : list (Z * fate)) (m : metrics num),
      worker endTime iterations m
      = (if stalled (issued endTime iterations) then Pending else Resolved tt,
         fold_left record (issued endTime iterations ≫= callbacks) m)).
Proof.
  split; [reflexivity |].
  split; [intros endTime now rest m Hlt; cbn [worker]; rewrite Hlt; reflexivity |].
  split.
  { intros m. cbv zeta.
    change (snd (makeRequest TimedOut m))
      with (failed_with "ECONNRESET" (failed_with "TIMEOUT" m)).
    change (fst (makeRequest TimedOut m)) with (Resolved tt).
    destruct (record_failure m "TIMEOUT" eq_refl) as (Ht & Hs & Hf & He & Hother).
    destruct (record_failure (failed_with "TIMEOUT" m) "ECONNRESET" eq_refl)
      as (Ht' & Hs' & Hf' & He' & Hother').
    split; [reflexivity |]. split; [rewrite Ht', Ht; lia |].
    split; [rewrite Hs', Hs; reflexivity |]. split; [rewrite Hf', Hf; lia |].
    split.
    - rewrite Hother' by discriminate. exact He.
    - rewrite He', Hother by discriminate. reflexivity. }
  split.
  { intros m. cbv zeta.
    change (snd (makeRequest TimedOutResponding m)) with (failed_with "TIMEOUT" m).
    change (fst (makeRequest TimedOutResponding m)) with (Resolved tt).
    destruct (record_failure m "TIMEOUT" eq_refl) as (Ht & Hs & Hf & He & _).
    split; [reflexivity |]. split; [exact Ht |]. split; [exact Hs |].
    split; [exact Hf | exact He]. }
  split.
  { intros m statusCode t0 t1. cbn [makeRequest callbacks fst snd fold_left record].
    split; [reflexivity |]. split; [reflexivity |]. cbn.
    destruct (N.leb_spec 200 statusCode); destruct (N.ltb_spec statusCode 400);
      cbn; (split; [| split]); try reflexivity; intros Hr; lia. }
  split.
  { intros m err. cbn [makeRequest callbacks fst snd fold_left record on_error].
    split; [reflexivity |]. split; [reflexivity |]. split; [reflexivity |].
    split; [reflexivity |].
    split; [intros Hown; apply (record_failure m (errorType err) Hown) |].
    split; [intros Hin; cbn; apply bump_inherited, Hin |]. split.
    - intros c Hc Hne. unfold errorType. rewrite Hc.
      destruct (String.eqb c "") eqn:E; [| reflexivity].
      apply String.eqb_eq in E. contradiction.
    - intros [Hc | Hc]; unfold errorType; rewrite Hc; reflexivity. }
  split; [reflexivity |].
  split.
  { intros endTime now f rest m Hlt Hf. cbn [worker]. rewrite Hlt.
    rewrite (makeRequest_resolves f m Hf). reflexivity. }
  exact worker_issues.
Qed.

End LoadGenerator.

(** * The exact numbers: arithmetic facts *)

Section ExactArithmetic.
Import JS Exact.

Lemma Qlt_bool_iff (a b : Q) : Qlt_bool a b = true ↔ (a < b)%Q.
Proof.
  unfold Qlt_bool. rewrite negb_true_iff. split.
  - intros Hle. apply Qnot_le_lt. intros Hba.
    apply Qle_bool_iff in Hba. congruence.
  - intros Hlt. destruct (Qle_bool b a) eqn:E; [| reflexivity].
    apply Qle_bool_iff in E. exfalso. exact (Qlt_not_le _ _ Hlt E).
Qed.

Lemma Qlt_bool_false_iff (a b : Q) : Qlt_bool a b = false ↔ (b <= a)%Q.
Proof.
  unfold Qlt_bool. rewrite negb_false_iff. apply Qle_bool_iff.
Qed.

Lemma array_index_of_Z (z : Z) :
  0 ≤ z → array_index (inject_Z z) = Some (Z.to_nat z).
Proof.
  intros Hz. unfold array_index. rewrite Qfloor_Z.
  rewrite Qeq_bool_refl. simpl.
  destruct (Z.leb_spec 0 z); [reflexivity | lia].
Qed.

Lemma array_index_proper (q r : Q) : (q == r)%Q → array_index q = array_index r.
Proof.
  intros Hqr. unfold array_index.
  assert (Hf : Qfloor q = Qfloor r) by (apply Qfloor_comp; exact Hqr).
  rewrite Hf.
  assert (Hb : Qeq_bool q (inject_Z (Qfloor r)) = Qeq_bool r (inject_Z (Qfloor r))).
  { destruct (Qeq_bool r (inject_Z (Qfloor r))) eqn:E.
    - apply Qeq_bool_iff. apply Qeq_bool_iff in E. rewrite Hqr. exact E.
    - destruct (Qeq_bool q (inject_Z (Qfloor r))) eqn:E'; [| reflexivity].
      apply Qeq_bool_iff in E'. rewrite Hqr in E'.
      apply Qeq_bool_iff in E'. congruence. }
  rewrite Hb. reflexivity.
Qed.

(** Reading an array at [Math.max(0, c - 1)] for an integer [c]. *)
Lemma array_get_clamped (a : list xnum) (c : Z) :
  array_get a (Math_max (num_of_Z 0) (num_sub (Fin (inject_Z c)) (num_of_Z 1)))
  = match a !! Z.to_nat (Z.max 0 (c - 1)) with
    | Some x => Num x
    | None => Undefined
    end.
Proof.
  assert (Heq : (Qred (inject_Z c + - inject_Z 1) == inject_Z (c - 1))%Q).
  { rewrite Qred_correct. unfold Z.sub. rewrite inject_Z_plus, inject_Z_opp. reflexivity. }
  unfold array_get. cbn [Math_max num_of_Z num_sub exact sub neg add num_view].
  unfold max, lt.
  destruct (Qlt_bool (inject_Z 0) (Qred (inject_Z c + - inject_Z 1))) eqn:E;
    cbn [view_of].
  - apply Qlt_bool_iff in E. rewrite Heq in E. rewrite <- Zlt_Qlt in E.
    rewrite (array_index_proper _ _ Heq).
    rewrite array_index_of_Z by lia.
    replace (Z.max 0 (c - 1)) with (c - 1) by lia. reflexivity.
  - apply Qlt_bool_false_iff in E. rewrite Heq in E. rewrite <- Zle_Qle in E.
    rewrite (array_index_of_Z 0) by lia.
    replace (Z.max 0 (c - 1)) with 0 by lia. reflexivity.
Qed.

Lemma rank_upper (p : Q) (n : nat) : (p <= inject_Z 100)%Q → rank p n ≤ Z.of_nat n.
Proof.
  intros Hp. unfold rank.
  rewrite <- (Qceiling_Z (Z.of_nat n)) at 2.
  apply Qceiling_resp_le.
  assert (Hn : (0 <= inject_Z (Z.of_nat n))%Q).
  { change 0%Q with (inject_Z 0). rewrite <- Zle_Qle. lia. }
  assert (Hq : (p / inject_Z 100 <= 1)%Q).
  { apply Qle_shift_div_r; [reflexivity |]. rewrite Qmult_1_l. exact Hp. }
  rewrite <- (Qmult_1_l (inject_Z (Z.of_nat n))) at 2.
  apply Qmult_le_compat_r; assumption.
Qed.

Lemma calculatePercentile_exact (sortedArray : list xnum) (p : Q) :
  sortedArray ≠ [] →
  LoadTest.calculatePercentile sortedArray (Fin p)
  = match sortedArray !! Z.to_nat (Z.max 0 (rank p (length sortedArray) - 1)) with
    | Some x => Num x
    | None => Undefined
    end.
Proof.
  intros Hne. unfold LoadTest.calculatePercentile.
  destruct sortedArray as [| x rest]; [congruence |].
  change (length (x :: rest) =? 0)%nat with false. cbv iota.
  rewrite <- array_get_clamped. unfold rank.
  set (n := Z.of_nat (length (x :: rest))).
  assert (Hc : Qceiling (Qred (Qred (p / inject_Z 100) * inject_Z n))
               = Qceiling (p / inject_Z 100 * inject_Z n)).
  { apply Qceiling_comp. rewrite !Qred_correct. reflexivity. }
  rewrite <- Hc. reflexivity.
Qed.

Lemma calculatePercentile_in_range (sortedArray : list xnum) (p : Q) :
  sortedArray ≠ [] → (p <= inject_Z 100)%Q →
  ∃ x, LoadTest.calculatePercentile sortedArray (Fin p) = Num x ∧
       sortedArray !! Z.to_nat (Z.max 0 (rank p (length sortedArray) - 1)) = Some x.
Proof.
  intros Hne Hp. rewrite calculatePercentile_exact by exact Hne.
  pose proof (rank_upper p (length sortedArray) Hp) as Hr.
  assert (Hlen : (0 < length sortedArray)%nat).
  { destruct sortedArray; [congruence | simpl; lia]. }
  destruct (lookup_lt_is_Some_2 sortedArray
              (Z.to_nat (Z.max 0 (rank p (length sortedArray) - 1)))) as [x Hx]; [lia |].
  exists x. rewrite Hx. split; reflexivity.
Qed.

End ExactArithmetic.

(** * The exact numbers: the sort of the latencies *)

Section ExactSort.
Import JS Exact.

Lemma comparator_positive (a b : Q) :
  num_gt (comparator (Fin a) (Fin b)) (num_of_Z 0) = true ↔ (b < a)%Q.
Proof.
  unfold num_gt, comparator. simpl. rewrite Qlt_bool_iff, Qred_correct.
  change (inject_Z 0) with 0%Q. split; intros Hlt.
  - apply (Qplus_lt_l _ _ (- b)). rewrite Qplus_opp_r. exact Hlt.
  - apply (Qplus_lt_l _ _ (- b)) in Hlt. rewrite Qplus_opp_r in Hlt. exact Hlt.
Qed.

Lemma sort_insert_exact (a : Q) (l : list Q) :
  ∃ l' : list Q,
    sort_insert (Fin a) (Fin <$> l) = Fin <$> l' ∧
    Permutation (a :: l) l' ∧
    (∀ y : Q, (y <= a)%Q → HdRel Qle y l → HdRel Qle y l') ∧
    (Sorted Qle l → Sorted Qle l').
Proof.
  induction l as [| b l IH].
  - exists [a]. split; [reflexivity |]. split; [reflexivity |]. split.
    + intros y Hy _. constructor. exact Hy.
    + intros _. repeat constructor.
  - destruct IH as (l' & Heq & Hperm & Hhd & Hsorted).
    rewrite fmap_cons. cbn [sort_insert].
    destruct (num_gt (comparator (Fin a) (Fin b)) (num_of_Z 0)) eqn:E.
    + apply comparator_positive in E.
      exists (b :: l'). rewrite Heq. split; [reflexivity |]. split; [| split].
      * rewrite perm_swap. constructor. exact Hperm.
      * intros y _ Hy. inversion Hy; subst. constructor. assumption.
      * intros Hs. inversion Hs; subst. constructor.
        -- apply Hsorted. assumption.
        -- apply Hhd; [apply Qlt_le_weak; exact E | assumption].
    + exists (a :: b :: l). split; [reflexivity |]. split; [reflexivity |]. split.
      * intros y Hy _. constructor. exact Hy.
      * intros Hs. constructor; [exact Hs |]. constructor.
        destruct (Qlt_le_dec b a) as [Hlt | Hle]; [| exact Hle].
        apply comparator_positive in Hlt. congruence.
Qed.

(** On finite numbers [Array_sort] is the ascending sort. *)
Lemma Array_sort_exact (l : list Q) :
  ∃ l' : list Q,
    Array_sort (Fin <$> l) = Fin <$> l' ∧ Permutation l l' ∧ Sorted Qle l'.
Proof.
  induction l as [| a l IH].
  - exists []. split; [reflexivity |]. split; constructor.
  - destruct IH as (l1 & Heq & Hperm & Hsorted).
    destruct (sort_insert_exact a l1) as (l' & Heq' & Hperm' & _ & Hsorted').
    exists l'. unfold Array_sort in *. rewrite fmap_cons. cbn [foldr]. rewrite Heq, Heq'.
    split; [reflexivity |]. split.
    + rewrite <- Hperm'. constructor. exact Hperm.
    + apply Hsorted', Hsorted.
Qed.

End ExactSort.

(** * The final report, for any numbers *)

Section Report.
Import JS LoadTest.
Context {num : Type} `{!Number num}.

Lemma allPassed_checks (m : metrics num) (p95 p99 : num) :
  allPassed (checks m p95 p99)
  = num_gt (successRate m) (num_of_Z 99) && num_lt p95 (num_of_Z 500) &&
    num_lt p99 (num_of_Z 1000) && (connectionErrors m =? 0)%N.
Proof.
  unfold allPassed, checks. cbn [fold_left passed].
  destruct (num_gt (successRate m) (num_of_Z 99)), (num_lt p95 (num_of_Z 500)),
    (num_lt p99 (num_of_Z 1000)), (connectionErrors m =? 0)%N; reflexivity.
Qed.

Lemma report_defined (m : metrics num) (p50 p95 p99 : num) :
  percentile_of m 50 = Num p50 → percentile_of m 95 = Num p95 →
  percentile_of m 99 = Num p99 →
  report m = Return (if allPassed (checks m p95 p99) then 0%N else 1%N).
Proof. intros H50 H95 H99. unfold report. rewrite H50, H95, H99. reflexivity. Qed.

Lemma report_undefined (m : metrics num) :
  percentile_of m 50 = Undefined ∨ percentile_of m 95 = Undefined ∨
  percentile_of m 99 = Undefined →
  report m = Throw "TypeError".
Proof.
  unfold report. intros Hundef.
  destruct (percentile_of m 50); [| reflexivity].
  destruct (percentile_of m 95); [| reflexivity].
  destruct (percentile_of m 99); [| reflexivity].
  destruct Hundef as [H | [H | H]]; discriminate H.
Qed.

Lemma record_errors (m : metrics num) (o : outcome) (k : string) :
  inherited k = false →
  default 0%N (errors (record m o) !! k)
  = (default 0 (errors m !! k) + if decide (kind o = Some k) then 1 else 0)%N.
Proof.
  intros Hown.
  destruct o as [statusCode t0 t1 | err |]; cbn [record on_end on_error on_timeout
    failed_with errors kind].
  - rewrite decide_False by discriminate. lia.
  - destruct (decide (errorType err = k)) as [-> | Hne].
    + rewrite bump_lookup, decide_True by (reflexivity || exact Hown). reflexivity.
    + rewrite bump_lookup_ne by exact Hne.
      rewrite decide_False by congruence. lia.
  - destruct (decide ("TIMEOUT" = k)) as [<- | Hne].
    + rewrite bump_lookup, decide_True by reflexivity. reflexivity.
    + rewrite bump_lookup_ne by exact Hne.
      rewrite decide_False by congruence. lia.
Qed.

Lemma fold_record_errors_zero (outcomes : list outcome) (m : metrics num) (k : string) :
  inherited k = false →
  default 0%N (errors (fold_left record outcomes m) !! k) = 0%N ↔
  default 0%N (errors m !! k) = 0%N ∧ ∀ o, o ∈ outcomes → kind o ≠ Some k.
Proof.
  intros Hown.
  revert m. induction outcomes as [| o outcomes IH]; intros m; cbn [fold_left].
  - split; [intros Hz; split; [exact Hz | intros o Ho; inversion Ho] | intros [Hz _]; exact Hz].
  - rewrite IH, record_errors by exact Hown. split.
    + intros [Hz Hall]. destruct (decide (kind o = Some k)) as [Hk | Hk]; [lia |].
      split; [lia |]. intros o' Ho'. apply elem_of_cons in Ho' as [-> | Ho'];
        [exact Hk | apply Hall, Ho'].
    + intros [Hz Hall]. split.
      * rewrite decide_False; [lia |]. apply Hall. left.
      * intros o' Ho'. apply Hall. right. exact Ho'.
Qed.

(** The fourth check passes exactly when no request of the run ended in a
    refused connection, a reset connection or a timeout. *)
Lemma connectionErrors_zero (outcomes : list outcome) :
  connectionErrors (run (num := num) outcomes) = 0%N ↔
  ∀ o, o ∈ outcomes → ¬ connection_failure o.
Proof.
  unfold connectionErrors, run, connection_failure.
  pose proof (fold_record_errors_zero outcomes (initial_metrics (num := num)) "ECONNREFUSED" eq_refl) as H1.
  pose proof (fold_record_errors_zero outcomes (initial_metrics (num := num)) "ECONNRESET" eq_refl) as H2.
  pose proof (fold_record_errors_zero outcomes (initial_metrics (num := num)) "TIMEOUT" eq_refl) as H3.
  split.
  - intros Hz o Ho.
    assert (Hz1 : default 0%N (errors (fold_left record outcomes initial_metrics) !! "ECONNREFUSED") = 0%N) by lia.
    assert (Hz2 : default 0%N (errors (fold_left record outcomes initial_metrics) !! "ECONNRESET") = 0%N) by lia.
    assert (Hz3 : default 0%N (errors (fold_left record outcomes initial_metrics) !! "TIMEOUT") = 0%N) by lia.
    apply H1 in Hz1 as [_ Hz1]. apply H2 in Hz2 as [_ Hz2]. apply H3 in Hz3 as [_ Hz3].
    intros [Hk | [Hk | Hk]]; [exact (Hz1 o Ho Hk) | exact (Hz2 o Ho Hk) | exact (Hz3 o Ho Hk)].
  - intros Hall.
    assert (Hz1 : default 0%N (errors (fold_left record outcomes initial_metrics) !! "ECONNREFUSED") = 0%N).
    { apply H1. split; [reflexivity |]. intros o Ho Hk. apply (Hall o Ho). left. exact Hk. }
    assert (Hz2 : default 0%N (errors (fold_left record outcomes initial_metrics) !! "ECONNRESET") = 0%N).
    { apply H2. split; [reflexivity |]. intros o Ho Hk. apply (Hall o Ho). right. left. exact Hk. }
    assert (Hz3 : default 0%N (errors (fold_left record outcomes initial_metrics) !! "TIMEOUT") = 0%N).
    { apply H3. split; [reflexivity |]. intros o Ho Hk. apply (Hall o Ho). right. right. exact Hk. }
    lia.
Qed.

End Report.

(** * The final report, in exact numbers *)

Section ExactReport.
Import JS LoadTest Exact.

Lemma rate_above_iff (s t c : Z) :
  0 < t →
  (inject_Z c < inject_Z s / inject_Z t * inject_Z 100)%Q ↔ c * t < 100 * s.
Proof.
  intros Ht.
  assert (Hq : (0 < inject_Z t)%Q).
  { change 0%Q with (inject_Z 0). rewrite <- Zlt_Qlt. exact Ht. }
  assert (Hne : ¬ (inject_Z t == 0)%Q).
  { intros Hz. rewrite Hz in Hq. exact (Qlt_irrefl _ Hq). }
  rewrite <- (Qmult_lt_r _ _ (inject_Z t) Hq).
  assert (Heq : (inject_Z s / inject_Z t * inject_Z 100 * inject_Z t == inject_Z (100 * s))%Q).
  { rewrite inject_Z_mult. field. exact Hne. }
  rewrite Heq, <- inject_Z_mult, <- Zlt_Qlt. reflexivity.
Qed.

Lemma rate_equal_iff (s t c : Z) :
  0 < t →
  (inject_Z s / inject_Z t * inject_Z 100 == inject_Z c)%Q ↔ 100 * s = c * t.
Proof.
  intros Ht.
  assert (Hne : ¬ (inject_Z t == 0)%Q).
  { change 0%Q with (inject_Z 0). rewrite inject_Z_injective. lia. }
  assert (Heq : (inject_Z s / inject_Z t * inject_Z 100 * inject_Z t == inject_Z (100 * s))%Q).
  { rewrite inject_Z_mult. field. exact Hne. }
  split.
  - intros Hr.
    assert (Hct : (inject_Z (c * t) == inject_Z (100 * s))%Q).
    { rewrite inject_Z_mult, <- Hr. exact Heq. }
    rewrite inject_Z_injective in Hct. lia.
  - intros Hst. apply (Qmult_inj_r _ _ (inject_Z t) Hne).
    rewrite Heq, <- inject_Z_mult. apply inject_Z_injective. exact Hst.
Qed.

(** The success rate as the exact numbers compute it: the percentage when
    there was a request, and 0/0 (NaN) when there was none. *)
Lemma successRate_exact (m : metrics xnum) :
  ((0 < totalRequests m)%N →
     ∃ q : Q, successRate m = Fin q ∧
       (q == inject_Z (Z.of_N (successfulRequests m))
             / inject_Z (Z.of_N (totalRequests m)) * inject_Z 100)%Q) ∧
  (totalRequests m = 0%N → successfulRequests m = 0%N → successRate m = NaN).
Proof.
  unfold successRate, num_of_N. cbn [num_div num_mul num_of_Z exact].
  split.
  - intros Ht. unfold div.
    destruct (Qeq_bool (inject_Z (Z.of_N (totalRequests m))) 0) eqn:E.
    + apply Qeq_bool_iff in E. change 0%Q with (inject_Z 0) in E.
      rewrite inject_Z_injective in E. lia.
    + eexists. split; [reflexivity |]. rewrite !Qred_correct. reflexivity.
  - intros -> ->. reflexivity.
Qed.

Lemma success_check_iff (m : metrics xnum) :
  num_gt (successRate m) (num_of_Z 99) = true ↔
  (99 * totalRequests m < 100 * successfulRequests m)%N.
Proof.
  destruct (N.eq_dec (totalRequests m) 0%N) as [Hz | Hnz].
  - unfold num_gt, successRate, num_of_N. rewrite Hz.
    cbn [num_div num_mul num_of_Z num_lt exact].
    destruct (N.eq_dec (successfulRequests m) 0%N) as [Hs | Hs].
    + rewrite Hs. cbn. split; [discriminate | lia].
    + assert (Hpos : (0 < inject_Z (Z.of_N (successfulRequests m)))%Q).
      { change 0%Q with (inject_Z 0). rewrite <- Zlt_Qlt. lia. }
      unfold div. change (Qeq_bool (inject_Z (Z.of_N 0)) 0) with true. cbv iota.
      unfold scaled_infinity.
      destruct (Qeq_bool (inject_Z (Z.of_N (successfulRequests m))) 0) eqn:E.
      { apply Qeq_bool_iff in E. rewrite E in Hpos. destruct (Qlt_irrefl _ Hpos). }
      destruct (Qle_bool 0 (inject_Z (Z.of_N (successfulRequests m)))) eqn:E'.
      * cbn. split; [lia | reflexivity].
      * exfalso. apply Qlt_le_weak, Qle_bool_iff in Hpos. congruence.
  - destruct (successRate_exact m) as [Hfin _].
    destruct Hfin as (q & Hq & Heq); [lia |].
    unfold num_gt. rewrite Hq. cbn [num_lt num_of_Z exact lt].
    rewrite Qlt_bool_iff, Heq, rate_above_iff by lia. lia.
Qed.

(** With exact numbers the three percentiles of a report are numbers. *)
Lemma percentile_of_defined (m : metrics xnum) (p : Z) :
  p ≤ 100 → ∃ x : xnum, percentile_of m p = Num x.
Proof.
  intros Hp. unfold percentile_of.
  destruct (Array_sort (latencies m)) as [| y rest] eqn:E.
  - exists (Fin (inject_Z 0)). reflexivity.
  - rewrite <- E.
    destruct (calculatePercentile_in_range (Array_sort (latencies m)) (inject_Z p))
      as (x & Hx & _).
    + rewrite E. discriminate.
    + rewrite <- Zle_Qle. exact Hp.
    + exists x. exact Hx.
Qed.

Lemma report_exact (m : metrics xnum) :
  ∃ p50 p95 p99 : xnum,
    percentile_of m 50 = Num p50 ∧ percentile_of m 95 = Num p95 ∧
    percentile_of m 99 = Num p99 ∧
    report m = Return (if allPassed (checks m p95 p99) then 0%N else 1%N).
Proof.
  destruct (percentile_of_defined m 50) as [p50 H50]; [lia |].
  destruct (percentile_of_defined m 95) as [p95 H95]; [lia |].
  destruct (percentile_of_defined m 99) as [p99 H99]; [lia |].
  exists p50, p95, p99. repeat (split; [assumption |]).
  apply (report_defined m p50 p95 p99); assumption.
Qed.

Lemma run_empty_iff (outcomes : list outcome) :
  totalRequests (run (num := xnum) outcomes) = 0%N ↔ outcomes = [].
Proof.
  split; [| intros ->; reflexivity].
  destruct outcomes as [| o outcomes] using rev_ind; [reflexivity |].
  rewrite run_snoc, record_total. lia.
Qed.

End ExactReport.

(** * Double precision: integers, the rank of a percentile, the sort

    What [SpecFloat] computes for the operations [calculatePercentile]
    and the sort apply: integers below 2^53 are doubles, subtracting 1
    from one and taking the maximum with 0 is exact, and the rounded
    product [(p / 100) * n] has the ceiling of the exact product for the
    percentiles the program asks for; the difference of two latencies has
    the sign of the exact difference, so that the sort orders them. *)

Section DoubleArithmetic.
Import JS Binary64.

Lemma digits2_pos_log2 (p : positive) : Zpos (digits2_pos p) = Z.log2 (Zpos p) + 1.
Proof.
  assert (Hsize : ∀ q, digits2_pos q = Pos.size q).
  { induction q as [q IH | q IH |]; cbn; [rewrite IH | rewrite IH |]; reflexivity. }
  destruct p as [q | q |]; cbn [digits2_pos Z.log2]; rewrite ?Hsize; lia.
Qed.

Lemma digits2_pos_bounds (p : positive) :
  2 ^ (Zpos (digits2_pos p) - 1) ≤ Zpos p < 2 ^ Zpos (digits2_pos p).
Proof.
  rewrite digits2_pos_log2.
  replace (Z.log2 (Z.pos p) + 1 - 1) with (Z.log2 (Z.pos p)) by lia.
  replace (Z.log2 (Z.pos p) + 1) with (Z.succ (Z.log2 (Z.pos p))) by lia.
  apply Z.log2_spec. lia.
Qed.

Lemma digits2_pos_unique (p : positive) (d : Z) :
  2 ^ (d - 1) ≤ Zpos p < 2 ^ d → Zpos (digits2_pos p) = d.
Proof.
  intros Hd. rewrite digits2_pos_log2.
  assert (0 < d).
  { destruct (Z.ltb_spec 0 d) as [H | H]; [exact H |].
    destruct Hd as [_ Hd]. destruct (Z.eqb_spec d 0) as [-> | Hne]; [cbn in Hd; lia |].
    rewrite Z.pow_neg_r in Hd by lia. lia. }
  rewrite (Z.log2_unique (Zpos p) (d - 1)); [lia | lia |].
  replace (Z.succ (d - 1)) with d by lia. exact Hd.
Qed.

(** One step of the shift to the right. *)
Lemma shr_1_spec (mrs : shr_record) :
  0 ≤ shr_m mrs →
  shr_m (shr_1 mrs) = shr_m mrs / 2 ∧
  (shr_r mrs = false → shr_s mrs = false → shr_m mrs mod 2 = 0 →
   shr_r (shr_1 mrs) = false ∧ shr_s (shr_1 mrs) = false).
Proof.
  destruct mrs as [m r s]. cbn [shr_m shr_r shr_s]. intros Hm.
  destruct m as [| [q | q |] | q]; cbn [shr_1 shr_m shr_r shr_s]; try lia.
  - split; [reflexivity | intros -> -> _; split; reflexivity].
  - split; [rewrite Pos2Z.inj_xI; apply Z.div_unique with (r := 1); lia |].
    intros _ _ Hodd. rewrite Pos2Z.inj_xI in Hodd.
    rewrite Z.add_comm, Z.mul_comm, Z.mod_add in Hodd by lia. discriminate Hodd.
  - split; [rewrite Pos2Z.inj_xO; apply Z.div_unique with (r := 0); lia |].
    intros -> -> _. split; reflexivity.
  - split; [reflexivity |]. intros _ _ Hodd. discriminate Hodd.
Qed.

Lemma iter_pos_shr_1 (p : positive) :
  ∀ mrs : shr_record,
    0 ≤ shr_m mrs →
    shr_m (SpecFloat.iter_pos shr_1 p mrs) = shr_m mrs / 2 ^ Zpos p ∧
    (shr_r mrs = false → shr_s mrs = false → shr_m mrs mod 2 ^ Zpos p = 0 →
     shr_r (SpecFloat.iter_pos shr_1 p mrs) = false ∧ shr_s (SpecFloat.iter_pos shr_1 p mrs) = false).
Proof.
  assert (Hdouble : ∀ (q : positive) (mrs : shr_record),
             (∀ mrs : shr_record,
                 0 ≤ shr_m mrs →
                 shr_m (SpecFloat.iter_pos shr_1 q mrs) = shr_m mrs / 2 ^ Zpos q ∧
                 (shr_r mrs = false → shr_s mrs = false → shr_m mrs mod 2 ^ Zpos q = 0 →
                  shr_r (SpecFloat.iter_pos shr_1 q mrs) = false ∧
                  shr_s (SpecFloat.iter_pos shr_1 q mrs) = false)) →
             0 ≤ shr_m mrs →
             shr_m (SpecFloat.iter_pos shr_1 q (SpecFloat.iter_pos shr_1 q mrs))
             = shr_m mrs / 2 ^ Zpos (q~0) ∧
             (shr_r mrs = false → shr_s mrs = false → shr_m mrs mod 2 ^ Zpos (q~0) = 0 →
              shr_r (SpecFloat.iter_pos shr_1 q (SpecFloat.iter_pos shr_1 q mrs)) = false ∧
              shr_s (SpecFloat.iter_pos shr_1 q (SpecFloat.iter_pos shr_1 q mrs)) = false)).
  { intros q mrs IH Hm.
    assert (Hpow : 2 ^ Zpos (q~0) = 2 ^ Zpos q * 2 ^ Zpos q).
    { rewrite Pos2Z.inj_xO, <- Z.pow_add_r by lia. f_equal. lia. }
    assert (Hpos : 0 < 2 ^ Zpos q) by (apply Z.pow_pos_nonneg; lia).
    destruct (IH mrs Hm) as [Hfirst Hexact].
    assert (Hm' : 0 ≤ shr_m (SpecFloat.iter_pos shr_1 q mrs)).
    { rewrite Hfirst. apply Z.div_pos; lia. }
    destruct (IH _ Hm') as [Hsecond Hexact'].
    split.
    - rewrite Hsecond, Hfirst, Hpow, Z.div_div by lia. reflexivity.
    - intros Hr Hs Hdiv. rewrite Hpow in Hdiv.
      apply Z.mod_divide in Hdiv; [| lia]. destruct Hdiv as [k Hk].
      assert (Hdiv1 : shr_m mrs mod 2 ^ Zpos q = 0).
      { rewrite Hk. replace (k * (2 ^ Zpos q * 2 ^ Zpos q)) with (k * 2 ^ Zpos q * 2 ^ Zpos q) by lia.
        apply Z.mod_mul. lia. }
      destruct (Hexact Hr Hs Hdiv1) as [Hr' Hs'].
      apply Hexact'; [exact Hr' | exact Hs' |].
      rewrite Hfirst, Hk.
      replace (k * (2 ^ Zpos q * 2 ^ Zpos q)) with (k * 2 ^ Zpos q * 2 ^ Zpos q) by lia.
      rewrite Z.div_mul by lia. apply Z.mod_mul. lia. }
  induction p as [q IH | q IH |]; intros mrs Hm.
  - cbn [SpecFloat.iter_pos].
    destruct (shr_1_spec mrs Hm) as [Hone Hexact1].
    assert (Hm1 : 0 ≤ shr_m (shr_1 mrs)) by (rewrite Hone; apply Z.div_pos; lia).
    destruct (Hdouble q (shr_1 mrs) IH Hm1) as [Hrest Hexact].
    assert (Hpow : 2 ^ Zpos (q~1) = 2 * 2 ^ Zpos (q~0)).
    { change (Zpos q~1) with (Z.succ (Zpos q~0)). apply Z.pow_succ_r. lia. }
    assert (Hpos : 0 < 2 ^ Zpos (q~0)) by (apply Z.pow_pos_nonneg; lia).
    split.
    + rewrite Hrest, Hone, Hpow, Z.div_div by lia. reflexivity.
    + intros Hr Hs Hdiv. rewrite Hpow in Hdiv.
      apply Z.mod_divide in Hdiv; [| lia]. destruct Hdiv as [k Hk].
      assert (Heven : shr_m mrs mod 2 = 0).
      { rewrite Hk. replace (k * (2 * 2 ^ Zpos q~0)) with (k * 2 ^ Zpos q~0 * 2) by lia.
        apply Z.mod_mul. lia. }
      destruct (Hexact1 Hr Hs Heven) as [Hr' Hs'].
      apply Hexact; [exact Hr' | exact Hs' |].
      rewrite Hone, Hk. replace (k * (2 * 2 ^ Zpos q~0)) with (k * 2 ^ Zpos q~0 * 2) by lia.
      rewrite Z.div_mul by lia. apply Z.mod_mul. lia.
  - cbn [SpecFloat.iter_pos]. apply Hdouble; [exact IH | exact Hm].
  - cbn [SpecFloat.iter_pos]. change (2 ^ 1) with 2. apply shr_1_spec, Hm.
Qed.


Lemma shr_spec (M : positive) (e s : Z) :
  0 ≤ s →
  ∃ mrs : shr_record,
    shr {| shr_m := Zpos M; shr_r := false; shr_s := false |} e s = (mrs, e + s) ∧
    shr_m mrs = Zpos M / 2 ^ s ∧
    (Zpos M mod 2 ^ s = 0 → loc_of_shr_record mrs = loc_Exact).
Proof.
  intros Hs. destruct s as [| p | p]; [| | lia].
  - eexists. split; [cbn [shr]; rewrite Z.add_0_r; reflexivity |].
    cbn [shr_m]. rewrite Z.div_1_r. split; reflexivity.
  - destruct (iter_pos_shr_1 p {| shr_m := Zpos M; shr_r := false; shr_s := false |})
      as [Hm Hexact]; [cbn; lia |].
    eexists. split; [reflexivity |]. split; [exact Hm |].
    intros Hdiv. destruct (Hexact eq_refl eq_refl Hdiv) as [Hr Hs'].
    destruct (SpecFloat.iter_pos shr_1 p _) as [m r s']. cbn in Hr, Hs'. subst r s'.
    reflexivity.
Qed.

Lemma round_nearest_even_bounds (q : Z) (l : location) :
  q ≤ round_nearest_even q l ≤ q + 1 ∧ (l = loc_Exact → round_nearest_even q l = q).
Proof.
  destruct l as [| [| |]]; cbn [round_nearest_even]; try destruct (Z.even q);
    (split; [lia | intros H; first [reflexivity | discriminate H]]).
Qed.

(** What rounding to 53 bits does to a mantissa of at least 53 bits, away
    from the subnormal numbers: the mantissa loses its low bits, and goes
    up by at most 1; it stays as it is when the low bits are zero. *)
Lemma binary_round_aux_cases (sx : bool) (M : positive) (e : Z) :
  let d := Zpos (digits2_pos M) in
  let s := d - 53 in
  53 ≤ d → -1074 ≤ e + s →
  ∃ q : Z,
    Zpos M / 2 ^ s ≤ q ≤ Zpos M / 2 ^ s + 1 ∧
    (Zpos M mod 2 ^ s = 0 → q = Zpos M / 2 ^ s) ∧
    binary_round_aux prec emax sx (Zpos M) e loc_Exact
    = if q <? 2 ^ 53
      then if e + s <=? 971 then S754_finite sx (Z.to_pos q) (e + s) else S754_infinity sx
      else if e + s + 1 <=? 971 then S754_finite sx (Z.to_pos (2 ^ 52)) (e + s + 1)
           else S754_infinity sx.
Proof.
  intros d s Hd Hlow.
  pose proof (digits2_pos_bounds M) as HM. fold d in HM.
  assert (Hsd : s = d - 53) by reflexivity. clearbody s.
  assert (Hs : 0 ≤ s) by lia.
  assert (Hpow : 2 ^ d = 2 ^ 53 * 2 ^ s).
  { rewrite <- Z.pow_add_r by lia. f_equal. lia. }
  assert (Hpow' : 2 ^ (d - 1) = 2 ^ 52 * 2 ^ s).
  { rewrite <- Z.pow_add_r by lia. f_equal. lia. }
  assert (Hpos : 0 < 2 ^ s) by (apply Z.pow_pos_nonneg; lia).
  assert (Hq : 2 ^ 52 ≤ Zpos M / 2 ^ s < 2 ^ 53).
  { split.
    - apply Z.div_le_lower_bound; [exact Hpos |]. lia.
    - apply Z.div_lt_upper_bound; [exact Hpos |]. lia. }
  unfold binary_round_aux, shr_fexp. cbn [shr_record_of_loc Zdigits2]. fold d.
  assert (Hfexp : fexp prec emax (d + e) - e = s).
  { unfold fexp, emin, prec, emax. clearbody d. clear HM Hpow Hpow' Hpos Hq. rewrite Z.max_l; lia. }
  rewrite Hfexp.
  destruct (shr_spec M e s Hs) as (mrs & -> & Hm & Hexact).
  destruct (round_nearest_even_bounds (shr_m mrs) (loc_of_shr_record mrs)) as [Hbounds Hsame].
  set (q := round_nearest_even (shr_m mrs) (loc_of_shr_record mrs)) in *.
  rewrite Hm in Hbounds.
  exists q. split; [exact Hbounds |].
  split; [intros Hdiv; rewrite (Hsame (Hexact Hdiv)); exact Hm |].
  assert (Hqpos : 0 < q) by lia.
  destruct q as [| mq | mq]; [lia | | lia].
  cbn [shr_record_of_loc Zdigits2 Z.to_pos].
  destruct (Z.ltb_spec (Zpos mq) (2 ^ 53)) as [Hlt | Hge].
  - assert (Hdq : Zpos (digits2_pos mq) = 53) by (apply digits2_pos_unique; lia).
    rewrite Hdq.
    assert (Hnone : fexp prec emax (53 + (e + s)) - (e + s) = 0).
    { unfold fexp, emin, prec, emax. rewrite Z.max_l; lia. }
    rewrite Hnone. cbn [shr shr_m]. reflexivity.
  - assert (H54 : 2 ^ 54 = 2 * 2 ^ 53) by reflexivity.
    assert (Hmq : Zpos mq = 2 ^ 53) by lia.
    assert (Hdq : Zpos (digits2_pos mq) = 54).
    { apply digits2_pos_unique. change (54 - 1) with 53. lia. }
    rewrite Hdq.
    assert (Hone : fexp prec emax (54 + (e + s)) - (e + s) = 1).
    { unfold fexp, emin, prec, emax. rewrite Z.max_l; lia. }
    rewrite Hone. cbn [shr SpecFloat.iter_pos].
    destruct (shr_1_spec {| shr_m := Zpos mq; shr_r := false; shr_s := false |})
      as [Hhalf _]; [cbn; lia |].
    rewrite Hhalf. cbn [shr_m]. rewrite Hmq.
    replace (2 ^ 53 / 2) with (Zpos (Z.to_pos (2 ^ 52))) by (vm_compute; reflexivity).
    reflexivity.
Qed.

(** The same, away from overflow as well. *)
Lemma binary_round_aux_spec (sx : bool) (M : positive) (e : Z) :
  let d := Zpos (digits2_pos M) in
  let s := d - 53 in
  53 ≤ d → -1074 ≤ e + s → e + s + 1 ≤ 971 →
  ∃ q : Z,
    Zpos M / 2 ^ s ≤ q ≤ Zpos M / 2 ^ s + 1 ∧
    (Zpos M mod 2 ^ s = 0 → q = Zpos M / 2 ^ s) ∧
    binary_round_aux prec emax sx (Zpos M) e loc_Exact
    = if q <? 2 ^ 53 then S754_finite sx (Z.to_pos q) (e + s)
      else S754_finite sx (Z.to_pos (2 ^ 52)) (e + s + 1).
Proof.
  intros d s Hd Hlow Hhigh.
  pose proof (binary_round_aux_cases sx M e) as Hcases. cbv zeta in Hcases.
  fold d in Hcases. fold s in Hcases.
  destruct (Hcases Hd Hlow) as (q & Hq & Hexact & ->).
  exists q. split; [exact Hq |]. split; [exact Hexact |].
  destruct (Z.leb_spec (e + s) 971) as [_ | H]; [| lia].
  destruct (Z.leb_spec (e + s + 1) 971) as [_ | H]; [| lia].
  reflexivity.
Qed.

Lemma iter_xO_spec (m d : positive) : Zpos (Pos.iter xO m d) = Zpos m * 2 ^ Zpos d.
Proof.
  induction d as [| d IH] using Pos.peano_ind.
  - cbn [Pos.iter]. rewrite Pos2Z.inj_xO. change (2 ^ 1) with 2. lia.
  - rewrite Pos.iter_succ, Pos2Z.inj_xO, IH, Pos2Z.inj_succ, Z.pow_succ_r by lia. lia.
Qed.

Lemma digits2_pos_shift (M M' : positive) (t : Z) :
  0 ≤ t → Zpos M' = Zpos M * 2 ^ t →
  Zpos (digits2_pos M') = Zpos (digits2_pos M) + t.
Proof.
  intros Ht HM'. apply digits2_pos_unique. rewrite HM'.
  pose proof (digits2_pos_bounds M) as HM.
  set (d := Zpos (digits2_pos M)) in *.
  assert (Hd : 1 ≤ d) by (unfold d; lia). clearbody d.
  replace (d + t - 1) with (d - 1 + t) by lia.
  rewrite !Z.pow_add_r by lia.
  assert (Hpos : 0 < 2 ^ t) by (apply Z.pow_pos_nonneg; lia).
  nia.
Qed.

(** Rounding an integer times a power of two that fits in 53 bits leaves
    it as it is, with its mantissa brought to 53 bits. *)
Lemma binary_round_exact (sx : bool) (M : positive) (e : Z) :
  let d := Zpos (digits2_pos M) in
  -1074 ≤ e + d - 53 → e + d - 53 ≤ 970 →
  (53 < d → Zpos M mod 2 ^ (d - 53) = 0) →
  binary_round prec emax sx M e
  = S754_finite sx
      (Z.to_pos (if d <=? 53 then Zpos M * 2 ^ (53 - d) else Zpos M / 2 ^ (d - 53)))
      (e + d - 53).
Proof.
  intros d Hlow Hhigh Hdiv.
  pose proof (digits2_pos_bounds M) as HM. fold d in HM.
  assert (Hd : 1 ≤ d) by (unfold d; lia).
  unfold binary_round. fold d.
  assert (Hfexp : fexp prec emax (d + e) = e + d - 53).
  { unfold fexp, emin, prec, emax. clearbody d. clear HM. rewrite Z.max_l; lia. }
  rewrite Hfexp. unfold shl_align.
  destruct (Z.leb_spec d 53) as [Hle | Hgt].
  - destruct (Z.eq_dec d 53) as [Heq | Hne].
    + replace (e + d - 53 - e) with 0 by lia.
      pose proof (binary_round_aux_spec sx M e) as Hspec. cbv zeta in Hspec. fold d in Hspec.
      destruct Hspec as (q & _ & Hexact & ->); [lia | lia | lia |].
      assert (Hq : q = Zpos M).
      { replace (d - 53) with 0 in Hexact by lia. change (2 ^ 0) with 1 in Hexact.
        rewrite Z.div_1_r in Hexact. apply Hexact, Z.mod_1_r. }
      rewrite Hq.
      destruct (Z.ltb_spec (Zpos M) (2 ^ 53)) as [_ | Hover]; [| rewrite Heq in HM; lia].
      replace (53 - d) with 0 by lia. change (2 ^ 0) with 1.
      rewrite Z.mul_1_r. f_equal. lia.
    + assert (Hshift : e + d - 53 - e = Zneg (Z.to_pos (53 - d))).
      { rewrite <- Pos2Z.opp_pos, Z2Pos.id by lia. lia. }
      rewrite Hshift.
      set (M' := Pos.iter xO M (Z.to_pos (53 - d))).
      assert (HM' : Zpos M' = Zpos M * 2 ^ (53 - d)).
      { unfold M'. rewrite iter_xO_spec, Z2Pos.id by lia. reflexivity. }
      assert (Hd' : Zpos (digits2_pos M') = 53).
      { rewrite (digits2_pos_shift M M' (53 - d)) by (lia || exact HM'). fold d. lia. }
      pose proof (binary_round_aux_spec sx M' (e + d - 53)) as Hspec. cbv zeta in Hspec.
      rewrite Hd' in Hspec. change (53 - 53) with 0 in Hspec. change (2 ^ 0) with 1 in Hspec.
      rewrite Z.div_1_r in Hspec.
      destruct Hspec as (q & _ & Hexact & ->); [lia | lia | lia |].
      rewrite (Hexact (Z.mod_1_r _)).
      pose proof (digits2_pos_bounds M') as Hb. rewrite Hd' in Hb.
      destruct (Z.ltb_spec (Zpos M') (2 ^ 53)) as [_ | Hover]; [| lia].
      rewrite <- HM'. f_equal. lia.
  - assert (Hshift : ∃ p, e + d - 53 - e = Zpos p).
    { exists (Z.to_pos (d - 53)). rewrite Z2Pos.id by lia. lia. }
    destruct Hshift as [p ->].
    pose proof (binary_round_aux_spec sx M e) as Hspec. cbv zeta in Hspec. fold d in Hspec.
    destruct Hspec as (q & _ & Hexact & ->); [lia | lia | lia |].
    rewrite (Hexact (Hdiv Hgt)).
    assert (Hpos : 0 < 2 ^ (d - 53)) by (apply Z.pow_pos_nonneg; lia).
    assert (Hpow : 2 ^ d = 2 ^ 53 * 2 ^ (d - 53)).
    { rewrite <- Z.pow_add_r by lia. f_equal. lia. }
    destruct (Z.ltb_spec (Zpos M / 2 ^ (d - 53)) (2 ^ 53)) as [_ | Hover].
    + f_equal. lia.
    + exfalso. pose proof (Z.mul_div_le (Zpos M) _ Hpos) as Hmul. nia.
Qed.

(** The double of a positive integer below 2^53. *)
Lemma of_Z_pos (z : Z) :
  0 < z < 2 ^ 53 →
  let d := Z.log2 z + 1 in
  of_Z z = S754_finite false (Z.to_pos (z * 2 ^ (53 - d))) (d - 53).
Proof.
  intros Hz d. unfold of_Z, binary_normalize.
  destruct z as [| M | M]; [lia | | lia].
  assert (Hd : Zpos (digits2_pos M) = d) by apply digits2_pos_log2.
  pose proof (digits2_pos_bounds M) as HM. rewrite Hd in HM.
  assert (Hd53 : d ≤ 53).
  { destruct (Z.leb_spec d 53) as [H | H]; [exact H | exfalso].
    assert (2 ^ 53 ≤ 2 ^ (d - 1)) by (apply Z.pow_le_mono_r; lia). lia. }
  assert (Hd1 : 1 ≤ d) by (rewrite <- Hd; lia).
  rewrite binary_round_exact; rewrite ?Hd; try lia.
  destruct (Z.leb_spec d 53) as [_ | H]; [| lia].
  f_equal; lia.
Qed.

(** An integer below 2^53 scaled by a power of two normalises to its
    double. *)
Lemma binary_normalize_integer (z t : Z) :
  0 < z < 2 ^ 53 → 0 ≤ t ≤ 1000 →
  binary_normalize prec emax (z * 2 ^ t) (- t) false = of_Z z.
Proof.
  intros Hz Ht. rewrite of_Z_pos by exact Hz.
  set (d := Z.log2 z + 1).
  assert (Hpos : 0 < 2 ^ t) by (apply Z.pow_pos_nonneg; lia).
  destruct z as [| Mz | Mz]; [lia | | lia].
  assert (Hdz : Zpos (digits2_pos Mz) = d) by apply digits2_pos_log2.
  pose proof (digits2_pos_bounds Mz) as HMz. rewrite Hdz in HMz.
  assert (Hd53 : d ≤ 53).
  { destruct (Z.leb_spec d 53) as [H | H]; [exact H | exfalso].
    assert (2 ^ 53 ≤ 2 ^ (d - 1)) by (apply Z.pow_le_mono_r; lia). lia. }
  assert (Hd1 : 1 ≤ d) by (rewrite <- Hdz; lia).
  clearbody d.
  destruct (Zpos Mz * 2 ^ t) as [| M | M] eqn:HM; [lia | | lia].
  cbn [binary_normalize].
  assert (HdM : Zpos (digits2_pos M) = d + t).
  { rewrite (digits2_pos_shift Mz M t), Hdz by (lia || (symmetry; exact HM)). reflexivity. }
  rewrite binary_round_exact; rewrite ?HdM; try lia.
  - f_equal; [| lia]. f_equal.
    destruct (Z.leb_spec (d + t) 53) as [Hle | Hgt].
    + rewrite <- HM. replace (53 - d) with (t + (53 - (d + t))) by lia.
      rewrite Z.pow_add_r by lia. lia.
    + rewrite <- HM.
      replace t with (53 - d + (d + t - 53)) at 1 by lia.
      rewrite Z.pow_add_r, Z.mul_assoc by lia.
      rewrite Z.div_mul; [reflexivity |].
      apply Z.pow_nonzero; lia.
  - intros Hgt. rewrite <- HM.
    replace t with (53 - d + (d + t - 53)) at 1 by lia.
    rewrite Z.pow_add_r, Z.mul_assoc by lia.
    apply Z.mod_mul. apply Z.pow_nonzero; lia.
Qed.


Lemma log2_digits (z : Z) : 0 < z < 2 ^ 53 → 1 ≤ Z.log2 z + 1 ≤ 53.
Proof.
  intros Hz. pose proof (Z.log2_nonneg z).
  assert (Z.log2 z < 53) by (apply Z.log2_lt_pow2; lia). lia.
Qed.

(** Subtracting 1 from an integer double is exact. *)
Lemma SFsub_one (k : Z) :
  1 ≤ k < 2 ^ 53 → SFsub prec emax (of_Z k) (of_Z 1) = of_Z (k - 1).
Proof.
  intros Hk. destruct (Z.eq_dec k 1) as [-> | Hne]; [vm_compute; reflexivity |].
  assert (Hk' : 0 < k < 2 ^ 53) by lia.
  pose proof (of_Z_pos k Hk') as Hdouble. cbv zeta in Hdouble. rewrite Hdouble.
  pose proof (log2_digits k Hk') as Hd.
  assert (Hd2 : 2 ≤ Z.log2 k + 1) by (pose proof (Z.log2_pos k); lia).
  set (d := Z.log2 k + 1) in *. clearbody d.
  replace (of_Z 1) with (S754_finite false (Z.to_pos (2 ^ 52)) (-52)) by (vm_compute; reflexivity).
  cbn [SFsub cond_Zopp].
  rewrite Z.min_r by lia. unfold shl_align.
  change (-52 - -52) with 0. cbn [fst].
  assert (Hshift : -52 - (d - 53) = Zneg (Z.to_pos (d - 1))).
  { rewrite <- (Pos2Z.opp_pos (Z.to_pos (d - 1))), Z2Pos.id by lia. lia. }
  rewrite Hshift. cbn [fst].
  assert (Hpos : 0 < 2 ^ (53 - d)) by (apply Z.pow_pos_nonneg; lia).
  assert (Hvalue : Zpos (Pos.iter xO (Z.to_pos (k * 2 ^ (53 - d))) (Z.to_pos (d - 1)))
                   - Zpos (Z.to_pos (2 ^ 52)) = (k - 1) * 2 ^ 52).
  { rewrite iter_xO_spec, !Z2Pos.id by lia.
    rewrite <- Z.mul_assoc, <- Z.pow_add_r by lia.
    replace (53 - d + (d - 1)) with 52 by lia. lia. }
  rewrite Hvalue. change (-52) with (- (52)).
  apply binary_normalize_integer; lia.
Qed.

Lemma max_of_Z (j : Z) : 0 ≤ j < 2 ^ 53 → max (of_Z 0) (of_Z j) = of_Z j.
Proof.
  intros Hj. destruct (Z.eq_dec j 0) as [-> | Hne]; [vm_compute; reflexivity |].
  assert (Hj' : 0 < j < 2 ^ 53) by lia.
  pose proof (of_Z_pos j Hj') as Hdouble. cbv zeta in Hdouble. rewrite Hdouble.
  reflexivity.
Qed.

(** An integer is an index. *)
Lemma array_index_integer (a : Z) (b : positive) (j : Z) :
  0 ≤ j → a = j * Zpos b → array_index (a # b) = Some (Z.to_nat j).
Proof.
  intros Hj ->. unfold array_index. cbn [Qfloor].
  rewrite Z.div_mul by lia.
  assert (Heq : Qeq_bool (j * Zpos b # b) (inject_Z j) = true).
  { apply Qeq_bool_iff. unfold Qeq. cbn [Qnum Qden inject_Z]. lia. }
  rewrite Heq. destruct (Z.leb_spec 0 j) as [_ | H]; [reflexivity | lia].
Qed.

(** The double of an integer below 2^53 indexes an array at that
    integer. *)
Lemma view_of_Z (j : Z) :
  0 ≤ j < 2 ^ 53 →
  ∃ q : Q, view_of (of_Z j) = VFin q ∧ array_index q = Some (Z.to_nat j).
Proof.
  intros Hj. destruct (Z.eq_dec j 0) as [-> | Hne].
  { exists 0%Q. split; reflexivity. }
  assert (Hj' : 0 < j < 2 ^ 53) by lia.
  pose proof (of_Z_pos j Hj') as Hdouble. cbv zeta in Hdouble. rewrite Hdouble.
  pose proof (log2_digits j Hj') as Hd.
  set (d := Z.log2 j + 1) in *. clearbody d.
  assert (Hpos : 0 < 2 ^ (53 - d)) by (apply Z.pow_pos_nonneg; lia).
  eexists. split; [reflexivity |].
  unfold to_Q.
  destruct (Z.eq_dec d 53) as [-> | Hd53].
  - change (53 - 53) with 0. change (2 ^ 0) with 1. rewrite Z.mul_1_r.
    cbn -[Z.to_pos]. unfold inject_Z.
    apply array_index_integer; [lia |]. rewrite Z2Pos.id by lia. lia.
  - assert (He : d - 53 = Zneg (Z.to_pos (53 - d))).
    { rewrite <- Pos2Z.opp_pos, Z2Pos.id by lia. lia. }
    rewrite He. apply array_index_integer; [lia |].
    rewrite Pos2Z.inj_pow, !Z2Pos.id by lia. reflexivity.
Qed.

(** The ceiling of a positive double below 2^53 that is not an integer
    by its exponent. *)
Lemma ceil_finite (m : positive) (E k : Z) :
  E < 0 → 0 < k →
  (k - 1) * 2 ^ (- E) < Zpos m ≤ k * 2 ^ (- E) →
  ceil (S754_finite false m E) = of_Z k.
Proof.
  intros HE Hk Hm. unfold ceil.
  destruct (Z.leb_spec 0 E) as [H | _]; [lia |].
  destruct E as [| p | p]; [lia | lia |].
  unfold to_Q. change (- Zneg p) with (Zpos p) in Hm.
  assert (Hc : Qceiling (Zpos m # 2 ^ p) = k).
  { unfold Qceiling. cbn [Qopp Qfloor Qnum Qden]. rewrite Pos2Z.inj_pow.
    assert (Hpos : 0 < 2 ^ Zpos p) by (apply Z.pow_pos_nonneg; lia).
    assert (Hdiv : - Zpos m / 2 ^ Zpos p = - k).
    { symmetry. apply Z.div_unique with (r := k * 2 ^ Zpos p - Zpos m); lia. }
    change (Z.neg m) with (- Zpos m). rewrite Hdiv. lia. }
  rewrite Hc. destruct (Z.eqb_spec k 0) as [H | _]; [lia | reflexivity].
Qed.


(** Rounding the product of the rounded ratio and the length does not
    move its ceiling: for at most 2^32 samples the product stays at a
    distance from the integer below that exceeds the rounding error, and
    it never exceeds the exact product. *)
Lemma rank_rounding (mc n p k A B T M q : Z) :
  0 < n < 2 ^ 32 →
  100 * mc ≤ p * 2 ^ 53 → p * 2 ^ 53 - 100 < 100 * mc →
  100 * (k - 1) < p * n ≤ 100 * k →
  2 ^ 21 ≤ A → 0 < B ≤ 2 ^ 53 → T * B = 2 ^ 53 * A →
  M = mc * n * A →
  M / B ≤ q ≤ M / B + 1 → (M mod B = 0 → q = M / B) →
  (k - 1) * T < q ≤ k * T.
Proof.
  intros Hn Hup Hlow Hk HA HB HT HM Hq Hexact.
  assert (HX1 : mc * n ≤ k * 2 ^ 53) by nia.
  assert (HX2 : 2 ^ 46 ≤ mc * n - (k - 1) * 2 ^ 53) by nia.
  assert (Hupper : M ≤ k * T * B).
  { rewrite HM. replace (k * T * B) with (k * 2 ^ 53 * A) by (rewrite <- (Z.mul_assoc k T B), HT; ring).
    apply Z.mul_le_mono_nonneg_r; lia. }
  assert (Hlower : (k - 1) * T * B + B ≤ M).
  { rewrite HM. replace ((k - 1) * T * B) with ((k - 1) * 2 ^ 53 * A)
      by (rewrite <- (Z.mul_assoc (k - 1) T B), HT; ring).
    assert (2 ^ 46 * A ≤ (mc * n - (k - 1) * 2 ^ 53) * A) by (apply Z.mul_le_mono_nonneg_r; lia).
    lia. }
  pose proof (Z.div_mod M B ltac:(lia)) as Hdm.
  pose proof (Z.mod_pos_bound M B ltac:(lia)) as Hr.
  split.
  - enough ((k - 1) * T < M / B) by lia. nia.
  - destruct (Z.eq_dec (M mod B) 0) as [H0 | Hne].
    + rewrite (Hexact H0). nia.
    + enough (M / B < k * T) by lia. nia.
Qed.

(** The rank in doubles: for a ratio [p / 100] rounded down to 53 bits
    and fewer than 2^32 samples, the ceiling of the rounded product is the
    exact nearest rank. *)
Lemma double_rank (mc : positive) (p n k : Z) :
  2 ^ 52 ≤ Zpos mc < 2 ^ 53 →
  100 * Zpos mc ≤ p * 2 ^ 53 → p * 2 ^ 53 - 100 < 100 * Zpos mc →
  0 < n < 2 ^ 32 →
  100 * (k - 1) < p * n ≤ 100 * k →
  ceil (SFmul prec emax (S754_finite false mc (-53)) (of_Z n)) = of_Z k.
Proof.
  intros Hmc Hup Hlow Hn Hk.
  assert (Hk0 : 0 < k) by nia.
  assert (Hn' : 0 < n < 2 ^ 53) by lia.
  pose proof (of_Z_pos n Hn') as Hdouble. cbv zeta in Hdouble. rewrite Hdouble.
  assert (Hdn : 1 ≤ Z.log2 n + 1 ≤ 32).
  { pose proof (Z.log2_nonneg n). assert (Z.log2 n < 32) by (apply Z.log2_lt_pow2; lia). lia. }
  pose proof (Z.log2_spec n ltac:(lia)) as Hlog.
  replace (Z.succ (Z.log2 n)) with (Z.log2 n + 1) in Hlog by lia.
  replace (Z.log2 n) with (Z.log2 n + 1 - 1) in Hlog at 1 by lia.
  set (dn := Z.log2 n + 1) in *. clearbody dn.
  set (A := 2 ^ (53 - dn)).
  assert (HA : 2 ^ 21 ≤ A) by (apply Z.pow_le_mono_r; lia).
  assert (HnA : 2 ^ 52 ≤ n * A < 2 ^ 53).
  { assert (H52 : 2 ^ 52 = 2 ^ (dn - 1) * A).
    { unfold A. rewrite <- Z.pow_add_r by lia. f_equal. lia. }
    assert (H53 : 2 ^ 53 = 2 ^ dn * A).
    { unfold A. rewrite <- Z.pow_add_r by lia. f_equal. lia. }
    rewrite H52, H53. clear H52 H53. clearbody A. nia. }
  cbn [SFmul xorb].
  set (M := (mc * Z.to_pos (n * A))%positive).
  assert (HM : Zpos M = Zpos mc * n * A).
  { unfold M. rewrite Pos2Z.inj_mul, Z2Pos.id by lia. ring. }
  assert (HMb : 2 ^ 104 ≤ Zpos M < 2 ^ 106).
  { rewrite HM, <- Z.mul_assoc.
    change (2 ^ 104) with (2 ^ 52 * 2 ^ 52). change (2 ^ 106) with (2 ^ 53 * 2 ^ 53).
    clearbody A. nia. }
  pose proof (digits2_pos_bounds M) as Hd.
  pose proof (binary_round_aux_spec false M (-53 + (dn - 53))) as Hspec. cbv zeta in Hspec.
  set (d := Zpos (digits2_pos M)) in *.
  assert (Hcases : d = 105 ∨ d = 106).
  { destruct (Z.le_gt_cases d 104) as [Hsmall | Hbig].
    - assert (2 ^ d ≤ 2 ^ 104) by (apply Z.pow_le_mono_r; lia). lia.
    - destruct (Z.le_gt_cases 107 d) as [Hlarge | Hok]; [| lia].
      assert (2 ^ 106 ≤ 2 ^ (d - 1)) by (apply Z.pow_le_mono_r; lia). lia. }
  clearbody d.
  set (s := d - 53) in *.
  assert (Hs : s = 52 ∨ s = 53) by (unfold s; lia).
  assert (Hds : d = s + 53) by (unfold s; lia).
  clearbody s.
  destruct Hspec as (q & Hq & Hexact & ->); [lia | lia | lia |].
  set (E := -53 + (dn - 53) + s) in *.
  assert (HE : E = dn + s - 106) by (unfold E; lia).
  clearbody E.
  set (B := 2 ^ s) in *.
  assert (HB : 0 < B ≤ 2 ^ 53).
  { unfold B. split; [apply Z.pow_pos_nonneg; lia | apply Z.pow_le_mono_r; lia]. }
  assert (HBd : 2 ^ d = 2 ^ 53 * B).
  { unfold B. rewrite <- Z.pow_add_r by lia. f_equal. lia. }
  assert (HBd' : 2 ^ (d - 1) = 2 ^ 52 * B).
  { unfold B. rewrite <- Z.pow_add_r by lia. f_equal. lia. }
  assert (HT : 2 ^ (- E) * B = 2 ^ 53 * A).
  { unfold B, A. rewrite <- !Z.pow_add_r by lia. f_equal. lia. }
  assert (Hquot : 2 ^ 52 ≤ Zpos M / B < 2 ^ 53).
  { split.
    - apply Z.div_le_lower_bound; lia.
    - apply Z.div_lt_upper_bound; lia. }
  pose proof (rank_rounding (Zpos mc) n p k A B (2 ^ (- E)) (Zpos M) q
                Hn Hup Hlow Hk HA HB HT HM Hq Hexact) as Hrank.
  destruct (Z.ltb_spec q (2 ^ 53)) as [Hlt | Hge].
  - apply ceil_finite; [lia | exact Hk0 |].
    rewrite Z2Pos.id by lia. exact Hrank.
  - assert (Hq53 : q = 2 ^ 53) by lia.
    apply ceil_finite; [lia | exact Hk0 |].
    rewrite Z2Pos.id by lia.
    assert (Hhalf : 2 ^ (- E) = 2 * 2 ^ (- (E + 1))).
    { rewrite <- Z.pow_succ_r by lia. f_equal. lia. }
    rewrite Hhalf, Hq53 in Hrank.
    change (2 ^ 53) with (2 * 2 ^ 52) in Hrank. lia.
Qed.


(** The nearest rank, in integers. *)
Lemma rank_bounds (p : Z) (n : nat) :
  100 * (rank (inject_Z p) n - 1) < p * Z.of_nat n ≤ 100 * rank (inject_Z p) n.
Proof.
  unfold rank.
  set (x := (inject_Z p / inject_Z 100 * inject_Z (Z.of_nat n))%Q).
  assert (Hx : (x == (p * Z.of_nat n # 100))%Q).
  { unfold x, Qeq. cbn. lia. }
  pose proof (Qle_ceiling x) as Hle. pose proof (Qceiling_lt x) as Hlt.
  rewrite Hx in Hle at 1. rewrite Hx in Hlt at 2.
  unfold Qle in Hle. unfold Qlt in Hlt. cbn [Qnum Qden inject_Z] in Hle, Hlt.
  lia.
Qed.

(** [calculatePercentile] in doubles, given the double that [Math.ceil]
    returns: the subtraction of 1 and the maximum with 0 are exact, and the
    result indexes the array. *)
Lemma calculatePercentile_binary64 (sortedArray : list spec_float) (percentile : spec_float) (r : Z) :
  sortedArray ≠ [] →
  Math_ceil (num_mul (num_div percentile (num_of_Z 100))
                     (num_of_Z (Z.of_nat (length sortedArray)))) = num_of_Z r →
  0 ≤ r < 2 ^ 53 →
  LoadTest.calculatePercentile sortedArray percentile
  = match sortedArray !! Z.to_nat (Z.max 0 (r - 1)) with
    | Some x => Num x
    | None => Undefined
    end.
Proof.
  intros Hne Hceil Hr. unfold LoadTest.calculatePercentile.
  destruct sortedArray as [| x0 rest]; [congruence |].
  change (length (x0 :: rest) =? 0)%nat with false. cbv beta iota zeta.
  rewrite Hceil.
  change (num_sub (num_of_Z r) (num_of_Z 1)) with (SFsub prec emax (of_Z r) (of_Z 1)).
  change (Math_max (num_of_Z 0) (SFsub prec emax (of_Z r) (of_Z 1)))
    with (max (of_Z 0) (SFsub prec emax (of_Z r) (of_Z 1))).
  unfold array_get. change (@num_view spec_float binary64) with view_of.
  destruct (Z.eq_dec r 0) as [-> | Hr0].
  - replace (max (of_Z 0) (SFsub prec emax (of_Z 0) (of_Z 1))) with (of_Z 0)
      by (vm_compute; reflexivity).
    reflexivity.
  - rewrite SFsub_one, max_of_Z by lia.
    destruct (view_of_Z (r - 1)) as (q & -> & ->); [lia |].
    rewrite Z.max_r by lia. reflexivity.
Qed.

(** The ratios [p / 100] of the percentiles of the report, in doubles. *)
Lemma reported_ratios :
  SFdiv prec emax (of_Z 50) (of_Z 100) = S754_finite false 4503599627370496 (-53) ∧
  SFdiv prec emax (of_Z 95) (of_Z 100) = S754_finite false 8556839292003942 (-53) ∧
  SFdiv prec emax (of_Z 99) (of_Z 100) = S754_finite false 8917127262193582 (-53).
Proof. repeat split; vm_compute; reflexivity. Qed.

(** For the percentiles of the report and fewer than 2^32 samples (an
    array has no more) the doubles compute the exact nearest rank. *)
Lemma reported_rank (p : Z) (n : nat) :
  p = 50 ∨ p = 95 ∨ p = 99 → (0 < n)%nat → Z.of_nat n < 2 ^ 32 →
  ceil (SFmul prec emax (SFdiv prec emax (of_Z p) (of_Z 100)) (of_Z (Z.of_nat n)))
  = of_Z (rank (inject_Z p) n).
Proof.
  intros Hp Hn Hlen. pose proof (rank_bounds p n) as Hk.
  destruct reported_ratios as (H50 & H95 & H99).
  destruct Hp as [-> | [-> | ->]]; rewrite ?H50, ?H95, ?H99.
  - apply (double_rank _ 50); lia.
  - apply (double_rank _ 95); lia.
  - apply (double_rank _ 99); lia.
Qed.

Lemma calculatePercentile_reported (sortedArray : list spec_float) (p : Z) :
  p = 50 ∨ p = 95 ∨ p = 99 →
  (0 < length sortedArray)%nat → Z.of_nat (length sortedArray) < 2 ^ 32 →
  let index := rank (inject_Z p) (length sortedArray) - 1 in
  0 ≤ index < Z.of_nat (length sortedArray) ∧
  ∃ x : spec_float,
    sortedArray !! Z.to_nat index = Some x ∧
    LoadTest.calculatePercentile sortedArray (num_of_Z p) = Num x.
Proof.
  intros Hp Hn Hlen index.
  pose proof (rank_bounds p (length sortedArray)) as Hk.
  assert (Hindex : 0 ≤ index < Z.of_nat (length sortedArray)).
  { unfold index. destruct Hp as [-> | [-> | ->]]; lia. }
  split; [exact Hindex |].
  destruct (lookup_lt_is_Some_2 sortedArray (Z.to_nat index)) as [x Hx]; [lia |].
  exists x. split; [exact Hx |].
  rewrite (calculatePercentile_binary64 sortedArray (num_of_Z p)
             (rank (inject_Z p) (length sortedArray))).
  - fold index. rewrite Z.max_r by lia. rewrite Hx. reflexivity.
  - destruct sortedArray; [cbn in Hn; lia | discriminate].
  - apply (reported_rank p (length sortedArray) Hp Hn Hlen).
  - unfold index in Hindex. lia.
Qed.


(** Rounding a non-zero number keeps its sign: no double that is not
    below the smallest exponent rounds to zero. *)
Lemma binary_round_aux_sign (sx : bool) (M : positive) (e : Z) :
  -1074 ≤ e → 0 ≤ fexp prec emax (Zpos (digits2_pos M) + e) - e →
  SFltb (S754_zero false) (binary_round_aux prec emax sx (Zpos M) e loc_Exact) = negb sx.
Proof.
  intros He Hshift.
  set (d := Zpos (digits2_pos M)) in *.
  assert (Hd1 : 1 ≤ d) by (unfold d; lia).
  destruct (Z.eq_dec (fexp prec emax (d + e) - e) 0) as [Hzero | Hpos].
  - unfold binary_round_aux, shr_fexp. cbn [shr_record_of_loc Zdigits2]. fold d.
    rewrite Hzero. cbn [shr round_nearest_even loc_of_shr_record shr_m Zdigits2 shr_record_of_loc].
    fold d. rewrite Hzero. cbn [shr shr_m].
    destruct (e <=? emax - prec); destruct sx; reflexivity.
  - assert (Hfexp : fexp prec emax (d + e) = d + e - 53).
    { unfold fexp, emin, prec, emax in *. clearbody d. lia. }
    pose proof (binary_round_aux_cases sx M e) as Hcases. cbv zeta in Hcases. fold d in Hcases.
    destruct Hcases as (q & Hq & _ & ->); [clearbody d; lia | clearbody d; lia |].
    destruct (q <? 2 ^ 53).
    + destruct (e + (d - 53) <=? 971); destruct sx; reflexivity.
    + destruct (e + (d - 53) + 1 <=? 971); destruct sx; reflexivity.
Qed.

Lemma binary_round_sign (sx : bool) (M : positive) (e : Z) :
  -1074 ≤ e →
  SFltb (S754_zero false) (binary_round prec emax sx M e) = negb sx.
Proof.
  intros He. unfold binary_round, shl_align.
  set (d := Zpos (digits2_pos M)).
  assert (Hemin : -1074 ≤ fexp prec emax (d + e)).
  { unfold fexp, emin, prec, emax. lia. }
  destruct (fexp prec emax (d + e) - e) as [| p | p] eqn:Hf.
  - apply binary_round_aux_sign; [exact He |]. fold d. lia.
  - apply binary_round_aux_sign; [exact He |]. fold d. lia.
  - apply binary_round_aux_sign; [exact Hemin |].
    assert (Hdigits : Zpos (digits2_pos (Pos.iter xO M p)) = d + Zpos p).
    { apply (digits2_pos_shift M); [lia | apply iter_xO_spec]. }
    rewrite Hdigits.
    replace (d + Zpos p + fexp prec emax (d + e)) with (d + e) by lia. lia.
Qed.

(** A double in canonical form: its exponent is not below the smallest,
    its mantissa has at most 53 bits, and exactly 53 above the smallest
    exponent. *)
Lemma bounded_canonical (m : positive) (e : Z) :
  bounded prec emax m e = true →
  -1074 ≤ e ∧ Zpos m < 2 ^ 53 ∧ (-1074 < e → 2 ^ 52 ≤ Zpos m).
Proof.
  unfold bounded, canonical_mantissa. intros Hb.
  apply andb_true_iff in Hb as [Hc _]. apply Z.eqb_eq in Hc.
  pose proof (digits2_pos_bounds m) as Hm.
  set (d := Zpos (digits2_pos m)) in *.
  assert (Hd1 : 1 ≤ d) by (unfold d; lia). clearbody d.
  unfold fexp, emin, prec, emax in Hc.
  assert (He : -1074 ≤ e) by lia.
  assert (Hd : d ≤ 53) by lia.
  split; [exact He |]. split.
  - assert (2 ^ d ≤ 2 ^ 53) by (apply Z.pow_le_mono_r; lia). lia.
  - intros Habove. assert (d = 53) by lia. subst d. change (53 - 1) with 52 in Hm. lia.
Qed.

(** The order of the doubles is the order of their values. *)
Lemma SFltb_ulps (x y : spec_float) :
  latency_double x = true → latency_double y = true →
  SFltb x y = (ulps x <? ulps y).
Proof.
  intros Hx Hy.
  destruct x as [sx | | | [|] mx ex]; try discriminate Hx;
    destruct y as [sy | | | [|] my ey]; try discriminate Hy; cbn [latency_double] in Hx, Hy.
  - reflexivity.
  - destruct (bounded_canonical my ey Hy) as (He & _ & _).
    assert (0 < 2 ^ (ey + 1074)) by (apply Z.pow_pos_nonneg; lia).
    unfold SFltb. cbn [SFcompare ulps]. symmetry. apply Z.ltb_lt. lia.
  - destruct (bounded_canonical mx ex Hx) as (He & _ & _).
    assert (0 < 2 ^ (ex + 1074)) by (apply Z.pow_pos_nonneg; lia).
    unfold SFltb. cbn [SFcompare ulps]. symmetry. apply Z.ltb_ge. lia.
  - destruct (bounded_canonical mx ex Hx) as (Hex & Hmx & Hnx).
    destruct (bounded_canonical my ey Hy) as (Hey & Hmy & Hny).
    unfold SFltb. cbn [SFcompare ulps].
    assert (Hpx : 0 < 2 ^ (ex + 1074)) by (apply Z.pow_pos_nonneg; lia).
    assert (Hpy : 0 < 2 ^ (ey + 1074)) by (apply Z.pow_pos_nonneg; lia).
    destruct (Z.compare_spec ex ey) as [Heq | Hlt | Hgt].
    + subst ey. rewrite Pos.compare_cont_spec.
      destruct (Pos.compare_spec mx my) as [E | E | E]; cbn [Pos.switch_Eq];
        symmetry; [apply Z.ltb_ge | apply Z.ltb_lt | apply Z.ltb_ge]; nia.
    + symmetry. apply Z.ltb_lt.
      assert (Hstep : 2 * 2 ^ (ex + 1074) ≤ 2 ^ (ey + 1074)).
      { rewrite <- Z.pow_succ_r by lia. apply Z.pow_le_mono_r; lia. }
      specialize (Hny ltac:(lia)).
      change (2 ^ 53) with (2 * 2 ^ 52) in Hmx. nia.
    + symmetry. apply Z.ltb_ge.
      assert (Hstep : 2 * 2 ^ (ey + 1074) ≤ 2 ^ (ex + 1074)).
      { rewrite <- Z.pow_succ_r by lia. apply Z.pow_le_mono_r; lia. }
      specialize (Hnx ltac:(lia)).
      change (2 ^ 53) with (2 * 2 ^ 52) in Hmy. nia.
Qed.

Lemma shl_align_value (m : positive) (e e' : Z) :
  e' ≤ e → Zpos (fst (shl_align m e e')) = Zpos m * 2 ^ (e - e').
Proof.
  intros He. unfold shl_align.
  destruct (e' - e) as [| p | p] eqn:Hd; cbn [fst].
  - replace (e - e') with 0 by lia. lia.
  - lia.
  - rewrite iter_xO_spec. f_equal. f_equal. lia.
Qed.

(** The comparator of the sort has the sign of the difference of the
    values: a difference of two doubles that is not zero does not round
    to zero. *)
Lemma comparator_double (x y : spec_float) :
  latency_double x = true → latency_double y = true →
  num_gt (comparator x y) (num_of_Z 0) = (ulps y <? ulps x).
Proof.
  intros Hx Hy. unfold num_gt, comparator.
  change (num_lt (num_of_Z 0) (num_sub x y)) with (SFltb (S754_zero false) (SFsub prec emax x y)).
  destruct x as [sx | | | [|] mx ex]; try discriminate Hx;
    destruct y as [sy | | | [|] my ey]; try discriminate Hy; cbn [latency_double] in Hx, Hy.
  - destruct sx, sy; reflexivity.
  - destruct (bounded_canonical my ey Hy) as (He & _ & _).
    assert (0 < 2 ^ (ey + 1074)) by (apply Z.pow_pos_nonneg; lia).
    cbn [SFsub ulps]. symmetry. apply Z.ltb_ge. lia.
  - destruct (bounded_canonical mx ex Hx) as (He & _ & _).
    assert (0 < 2 ^ (ex + 1074)) by (apply Z.pow_pos_nonneg; lia).
    cbn [SFsub ulps]. symmetry. apply Z.ltb_lt. lia.
  - destruct (bounded_canonical mx ex Hx) as (Hex & _ & _).
    destruct (bounded_canonical my ey Hy) as (Hey & _ & _).
    cbn [SFsub ulps cond_Zopp].
    set (ez := Z.min ex ey).
    assert (Hez : -1074 ≤ ez ∧ ez ≤ ex ∧ ez ≤ ey) by (unfold ez; lia).
    rewrite (shl_align_value mx ex ez), (shl_align_value my ey ez) by lia.
    assert (Hpz : 0 < 2 ^ (ez + 1074)) by (apply Z.pow_pos_nonneg; lia).
    assert (Hvx : Zpos mx * 2 ^ (ex + 1074) = Zpos mx * 2 ^ (ex - ez) * 2 ^ (ez + 1074)).
    { rewrite <- Z.mul_assoc, <- Z.pow_add_r by lia. f_equal. f_equal. lia. }
    assert (Hvy : Zpos my * 2 ^ (ey + 1074) = Zpos my * 2 ^ (ey - ez) * 2 ^ (ez + 1074)).
    { rewrite <- Z.mul_assoc, <- Z.pow_add_r by lia. f_equal. f_equal. lia. }
    rewrite Hvx, Hvy.
    set (Mx := Zpos mx * 2 ^ (ex - ez)). set (My := Zpos my * 2 ^ (ey - ez)).
    clearbody Mx My ez.
    destruct (Mx - My) as [| D | D] eqn:HD; cbn [binary_normalize].
    + symmetry. apply Z.ltb_ge. nia.
    + rewrite binary_round_sign by lia. symmetry. apply Z.ltb_lt. nia.
    + rewrite binary_round_sign by lia. symmetry. apply Z.ltb_ge. nia.
Qed.

Lemma sort_insert_double (a : spec_float) (l : list spec_float) :
  latency_double a = true → Forall (λ x, latency_double x = true) l →
  Permutation (a :: l) (sort_insert a l) ∧
  (∀ y : spec_float, ulps y ≤ ulps a →
     HdRel (λ u v, ulps u ≤ ulps v) y l → HdRel (λ u v, ulps u ≤ ulps v) y (sort_insert a l)) ∧
  (Sorted (λ u v, ulps u ≤ ulps v) l → Sorted (λ u v, ulps u ≤ ulps v) (sort_insert a l)).
Proof.
  intros Ha Hl. induction Hl as [| b l Hb Hl IH].
  - split; [reflexivity |]. split.
    + intros y Hy _. constructor. exact Hy.
    + intros _. repeat constructor.
  - destruct IH as (Hperm & Hhd & Hsorted).
    cbn [sort_insert]. rewrite (comparator_double a b Ha Hb).
    destruct (Z.ltb_spec (ulps b) (ulps a)) as [Hlt | Hge].
    + split; [| split].
      * rewrite perm_swap. constructor. exact Hperm.
      * intros y _ Hy. inversion Hy; subst. constructor. assumption.
      * intros Hs. inversion Hs; subst. constructor.
        -- apply Hsorted. assumption.
        -- apply Hhd; [lia | assumption].
    + split; [reflexivity |]. split.
      * intros y Hy _. constructor. exact Hy.
      * intros Hs. constructor; [exact Hs |]. constructor. exact Hge.
Qed.

(** On latencies in doubles [Array_sort] is the ascending sort. *)
Lemma Array_sort_double (l : list spec_float) :
  Forall (λ x, latency_double x = true) l →
  Permutation l (Array_sort l) ∧ Sorted (λ u v, ulps u ≤ ulps v) (Array_sort l).
Proof.
  intros Hl. induction Hl as [| a l Ha Hl IH].
  - split; constructor.
  - destruct IH as (Hperm & Hsorted).
    assert (Hall : Forall (λ x, latency_double x = true) (Array_sort l)).
    { rewrite <- Hperm. exact Hl. }
    destruct (sort_insert_double a (Array_sort l) Ha Hall) as (Hperm' & _ & Hsorted').
    unfold Array_sort in *. cbn [foldr]. split.
    + rewrite <- Hperm'. constructor. exact Hperm.
    + apply Hsorted', Hsorted.
Qed.


Lemma ulps_lookup_le (l : list spec_float) (i j : nat) (x y : spec_float) :
  StronglySorted (λ u v, ulps u ≤ ulps v) l →
  l !! i = Some x → l !! j = Some y → (i ≤ j)%nat → ulps x ≤ ulps y.
Proof.
  intros Hsorted. revert i j x y.
  induction Hsorted as [| a l Hsorted IH Hall]; intros i j x y Hi Hj Hij.
  - rewrite lookup_nil in Hi. discriminate.
  - destruct i as [| i], j as [| j]; cbn in Hi, Hj.
    + injection Hi as <-. injection Hj as <-. lia.
    + injection Hi as <-. rewrite Forall_forall in Hall. apply Hall.
      apply (list_elem_of_lookup_2 l j). exact Hj.
    + lia.
    + apply (IH i j); [assumption | assumption | lia].
Qed.

Lemma filter_length_all {A : Type} (P : A → Prop) `{∀ x, Decision (P x)} (l : list A) :
  Forall P l → length (filter P l) = length l.
Proof.
  induction 1 as [| x l Hx Hl IH]; [reflexivity |].
  rewrite filter_cons, decide_True by exact Hx. cbn [length]. rewrite IH. reflexivity.
Qed.

Lemma filter_length_none {A : Type} (P : A → Prop) `{∀ x, Decision (P x)} (l : list A) :
  Forall (λ x, ¬ P x) l → length (filter P l) = 0%nat.
Proof.
  induction 1 as [| x l Hx Hl IH]; [reflexivity |].
  rewrite filter_cons, decide_False by exact Hx. exact IH.
Qed.

(** In sorted latencies, the element at index [i] has at least [i + 1]
    elements at most as large and at most [i] elements below it. *)
Lemma double_counts (l : list spec_float) (i : nat) (x : spec_float) :
  Forall (λ y, latency_double y = true) l →
  StronglySorted (λ u v, ulps u ≤ ulps v) l → l !! i = Some x →
  (i + 1 ≤ at_most_double x l)%nat ∧ (below_double x l ≤ i)%nat.
Proof.
  intros Hall Hsorted Hi.
  assert (Hlen : (i < length l)%nat) by (apply lookup_lt_is_Some; eauto).
  assert (Hx : latency_double x = true).
  { rewrite Forall_forall in Hall. apply Hall, (list_elem_of_lookup_2 l i), Hi. }
  assert (Hmember : ∀ (j : nat) (y : spec_float), l !! j = Some y → latency_double y = true).
  { intros j y Hj. rewrite Forall_forall in Hall. apply Hall, (list_elem_of_lookup_2 l j), Hj. }
  split.
  - unfold at_most_double. rewrite <- (take_drop (i + 1) l), filter_app, length_app.
    rewrite filter_length_all.
    + rewrite length_take_le by lia. lia.
    + apply Forall_lookup. intros j y Hj. apply lookup_take_Some in Hj as [Hj Hlt].
      change (SFltb x y = false). rewrite (SFltb_ulps x y Hx (Hmember j y Hj)).
      apply Z.ltb_ge. apply (ulps_lookup_le l j i y x); [assumption .. | lia].
  - unfold below_double. rewrite <- (take_drop i l), filter_app, length_app.
    rewrite (filter_length_none _ (drop i l)).
    + pose proof (length_filter (λ y, num_lt y x = true) (take i l)) as Hf.
      rewrite length_take_le in Hf by lia. lia.
    + apply Forall_lookup. intros j y Hj. rewrite lookup_drop in Hj.
      change (SFltb y x ≠ true). rewrite (SFltb_ulps y x (Hmember _ y Hj) Hx).
      assert (Hle : ulps x ≤ ulps y)
        by (apply (ulps_lookup_le l i (i + j) x y); [assumption .. | lia]).
      destruct (Z.ltb_spec (ulps y) (ulps x)); [lia | discriminate].
Qed.

(** [Array_sort] puts latencies in doubles in ascending order, by the
    comparison of the engine. *)
Lemma Array_sort_ascending (l : list spec_float) :
  Forall (λ x, latency_double x = true) l →
  Permutation l (Array_sort l) ∧
  StronglySorted (λ x y, num_lt y x = false) (Array_sort l).
Proof.
  intros Hl. destruct (Array_sort_double l Hl) as [Hperm Hsorted].
  split; [exact Hperm |].
  assert (Hall : Forall (λ x, latency_double x = true) (Array_sort l)).
  { rewrite <- Hperm. exact Hl. }
  assert (Hstrong : StronglySorted (λ u v, ulps u ≤ ulps v) (Array_sort l)).
  { apply Sorted_StronglySorted; [| exact Hsorted]. intros a b c. apply Z.le_trans. }
  clear Hperm Hsorted Hl.
  induction Hstrong as [| a s Hs IH Ha]; [constructor |].
  apply Forall_cons in Hall as [Hla Hls].
  constructor; [apply IH, Hls |].
  rewrite Forall_forall in Ha, Hls |- *. intros y Hy.
  change (SFltb y a = false). rewrite (SFltb_ulps y a (Hls y Hy) Hla).
  apply Z.ltb_ge, Ha, Hy.
Qed.

(** The percentiles of the report, over latencies in doubles. *)
Lemma percentile_of_double (m : LoadTest.metrics spec_float) (p : Z) :
  p = 50 ∨ p = 95 ∨ p = 99 →
  LoadTest.latencies m ≠ [] → Z.of_nat (length (LoadTest.latencies m)) < 2 ^ 32 →
  Forall (λ x, latency_double x = true) (LoadTest.latencies m) →
  ∃ x : spec_float,
    LoadTest.percentile_of m p = Num x ∧
    x ∈ LoadTest.latencies m ∧
    p * Z.of_nat (length (LoadTest.latencies m))
    ≤ 100 * Z.of_nat (at_most_double x (LoadTest.latencies m)) ∧
    100 * Z.of_nat (below_double x (LoadTest.latencies m))
    < p * Z.of_nat (length (LoadTest.latencies m)).
Proof.
  intros Hp Hne Hlen Hall.
  set (l := LoadTest.latencies m) in *.
  destruct (Array_sort_double l Hall) as [Hperm Hsorted].
  set (sorted := Array_sort l) in *.
  assert (Hsame : length sorted = length l) by (symmetry; apply Permutation_length, Hperm).
  assert (Hn : (0 < length sorted)%nat).
  { rewrite Hsame. destruct l; [congruence | cbn; lia]. }
  destruct (calculatePercentile_reported sorted p Hp Hn) as (Hindex & x & Hx & Hcalc); [lia |].
  rewrite Hsame in Hindex, Hx.
  pose proof (rank_bounds p (length l)) as Hrank.
  exists x. split; [exact Hcalc |]. split.
  { rewrite Hperm. apply (list_elem_of_lookup_2 _ _ _ Hx). }
  assert (Hall' : Forall (λ y, latency_double y = true) sorted) by (rewrite <- Hperm; exact Hall).
  assert (Hstrong : StronglySorted (λ u v, ulps u ≤ ulps v) sorted).
  { apply Sorted_StronglySorted; [| exact Hsorted]. intros a b c. apply Z.le_trans. }
  destruct (double_counts sorted _ x Hall' Hstrong Hx) as [Hmost Hbelow].
  assert (Hmost' : at_most_double x l = at_most_double x sorted).
  { unfold at_most_double. apply Permutation_length, filter_Permutation, Hperm. }
  assert (Hbelow' : below_double x l = below_double x sorted).
  { unfold below_double. apply Permutation_length, filter_Permutation, Hperm. }
  rewrite Hmost', Hbelow'. lia.
Qed.

End DoubleArithmetic.

Section LoadGeneratorClaims.
Import JS LoadTest Exact.

(** C1: [calculatePercentile] is the nearest-rank percentile, in the
    double precision arithmetic of the engine.  On a non-empty array of
    [n] samples it returns the element at index [max(0, r - 1)], where [r]
    is the integer that [Math.ceil((p / 100) * n)] yields; subtracting 1
    and taking the maximum with 0 do not round, and nothing is
    interpolated.  For the percentiles of the report, 50, 95 and 99, and
    every array (an array has fewer than 2^32 elements) [r] is the exact
    nearest rank [ceil(p * n / 100)], and the index is within the array.
    [runLoadTest] applies the function to the sorted latencies, and the
    sort puts latencies (zeros or positive doubles) in ascending order.
    For [10, 20, 30, 40, 50] the 50th percentile is 30 and the 95th is
    50. *)
Theorem percentile_is_nearest_rank :
  (∀ (sortedArray : list spec_float) (percentile : spec_float) (r : Z),
      sortedArray ≠ [] →
      Math_ceil (num_mul (num_div percentile (num_of_Z 100))
                         (num_of_Z (Z.of_nat (length sortedArray)))) = num_of_Z r →
      0 ≤ r < 2 ^ 53 →
      calculatePercentile sortedArray percentile
      = match sortedArray !! Z.to_nat (Z.max 0 (r - 1)) with
        | Some x => Num x
        | None => Undefined
        end) ∧
  (∀ (sortedArray : list spec_float) (p : Z),
      p = 50 ∨ p = 95 ∨ p = 99 →
      (0 < length sortedArray)%nat → Z.of_nat (length sortedArray) < 2 ^ 32 →
      let index := rank (inject_Z p) (length sortedArray) - 1 in
      0 ≤ index < Z.of_nat (length sortedArray) ∧
      ∃ x : spec_float,
        sortedArray !! Z.to_nat index = Some x ∧
        calculatePercentile sortedArray (num_of_Z p) = Num x) ∧
  (∀ (m : metrics spec_float) (p : Z),
      percentile_of m p = calculatePercentile (Array_sort (latencies m)) (num_of_Z p)) ∧
  (∀ m : metrics spec_float,
      Forall (λ x, latency_double x = true) (latencies m) →
      Permutation (latencies m) (Array_sort (latencies m)) ∧
      StronglySorted (λ x y, num_lt y x = false) (Array_sort (latencies m))) ∧
  calculatePercentile (num := spec_float) Figures.samples (num_of_Z 50) = Num (num_of_Z 30) ∧
  calculatePercentile (num := spec_float) Figures.samples (num_of_Z 95) = Num (num_of_Z 50).
Proof.
  split; [| split; [| split; [| split; [| split; vm_compute; reflexivity]]]].
  - intros sortedArray percentile r. apply calculatePercentile_binary64.
  - intros sortedArray p. apply calculatePercentile_reported.
  - intros m p. reflexivity.
  - intros m. apply Array_sort_ascending.
Qed.

(** C6: the check "Success Rate > 99%" is a strict inequality.  It passes
    exactly when more than 99 in 100 requests succeeded; at a success rate
    of exactly 99 it fails (and the exit code is 1), above 99 it passes.
    With 99 successes in 100 requests it fails, with 9901 in 10000 (99.01%)
    it passes. *)
Theorem success_rate_check_is_strict :
  (∀ (m : metrics xnum) (p95 p99 : xnum),
      ∃ (c : check) (rest : list check),
        checks m p95 p99 = c :: rest ∧
        name c = "Success Rate > 99%" ∧
        (passed c = true ↔ (99 * totalRequests m < 100 * successfulRequests m)%N) ∧
        (∀ q : Q, successRate m = Fin q → (q == inject_Z 99)%Q → passed c = false) ∧
        (∀ q : Q, successRate m = Fin q → (inject_Z 99 < q)%Q → passed c = true) ∧
        ((0 < totalRequests m)%N →
         (100 * successfulRequests m = 99 * totalRequests m)%N →
         (∃ q : Q, successRate m = Fin q ∧ (q == inject_Z 99)%Q) ∧
         passed c = false ∧ exit_code (report m) = 1%N)) ∧
  (successRate (run (num := xnum) Figures.ninety_nine_of_100) = Fin (inject_Z 99) ∧
   passed <$> checks (run (num := xnum) Figures.ninety_nine_of_100) (Fin 1) (Fin 2)
     = [false; true; true; true] ∧
   runLoadTest (num := xnum) Figures.ninety_nine_of_100 = Return 1%N) ∧
  (successRate (Figures.counted (num := xnum) 9901 10000) = Fin (9901 # 100) ∧
   passed <$> checks (Figures.counted (num := xnum) 9901 10000) (Fin 0) (Fin 0)
     = [true; true; true; true] ∧
   report (Figures.counted (num := xnum) 9901 10000) = Return 0%N).
Proof.
  split; [| split; [vm_compute; repeat split; reflexivity
                   | vm_compute; repeat split; reflexivity]].
  intros m p95 p99. eexists _, _. split; [reflexivity |].
  split; [reflexivity |]. cbn [passed].
  split; [apply success_check_iff |].
  split; [| split].
  - intros q Hq Heq. unfold num_gt. rewrite Hq. cbn [num_lt num_of_Z exact lt].
    apply Qlt_bool_false_iff. rewrite Heq. apply Qle_refl.
  - intros q Hq Hlt. unfold num_gt. rewrite Hq. cbn [num_lt num_of_Z exact lt].
    apply Qlt_bool_iff. exact Hlt.
  - intros Ht Hst.
    assert (Hfail : num_gt (successRate m) (num_of_Z 99) = false).
    { destruct (num_gt (successRate m) (num_of_Z 99)) eqn:E; [| reflexivity].
      apply success_check_iff in E. lia. }
    split; [| split; [exact Hfail |]].
    + destruct (successRate_exact m) as [Hfin _].
      destruct (Hfin Ht) as (q & Hq & Heq). exists q. split; [exact Hq |].
      rewrite Heq. apply rate_equal_iff; lia.
    + destruct (report_exact m) as (p50 & q95 & q99 & _ & _ & _ & Hr).
      rewrite Hr, allPassed_checks, Hfail. reflexivity.
Qed.

Lemma exit_code_report (m : metrics xnum) :
  exit_code (report m) = 0%N ↔
  num_gt (successRate m) (num_of_Z 99) = true ∧
  value_lt (percentile_of m 95) (num_of_Z 500) = true ∧
  value_lt (percentile_of m 99) (num_of_Z 1000) = true ∧
  connectionErrors m = 0%N.
Proof.
  destruct (report_exact m) as (p50 & p95 & p99 & _ & H95 & H99 & Hr).
  rewrite Hr, H95, H99, allPassed_checks. cbn [value_lt exit_code].
  destruct (num_gt (successRate m) (num_of_Z 99)), (num_lt p95 (num_of_Z 500)),
    (num_lt p99 (num_of_Z 1000)), (N.eqb_spec (connectionErrors m) 0); cbn;
    (split; [intros H; first [discriminate H | repeat split; assumption]
            | intros (H1 & H2 & H3 & H4); first [reflexivity | discriminate | contradiction]]).
Qed.

(** C7: the exit code of a completed run is 0 exactly when the four
    validation checks pass (success rate above 99%, P95 below 500 ms, P99
    below 1000 ms, no request ended in a refused connection, a reset
    connection or a timeout), and 1 otherwise; an exception that escapes
    [runLoadTest] is caught and the exit code is 1. *)
Theorem exit_code_zero_iff_all_checks_pass :
  (∀ m : metrics xnum,
      (exit_code (report m) = 0%N ↔
         num_gt (successRate m) (num_of_Z 99) = true ∧
         value_lt (percentile_of m 95) (num_of_Z 500) = true ∧
         value_lt (percentile_of m 99) (num_of_Z 1000) = true ∧
         connectionErrors m = 0%N) ∧
      (exit_code (report m) ≠ 0%N → exit_code (report m) = 1%N) ∧
      (∃ p95 p99 : xnum,
         percentile_of m 95 = Num p95 ∧ percentile_of m 99 = Num p99 ∧
         (exit_code (report m) = 0%N ↔ Forall (λ c, passed c = true) (checks m p95 p99)) ∧
         name <$> checks m p95 p99
         = ["Success Rate > 99%"; "P95 Latency < 500ms"; "P99 Latency < 1000ms";
            "No Connection Errors"])) ∧
  (∀ outcomes : list outcome,
      exit_code (runLoadTest (num := xnum) outcomes) = 0%N ↔
      (99 * totalRequests (run (num := xnum) outcomes)
         < 100 * successfulRequests (run (num := xnum) outcomes))%N ∧
      value_lt (percentile_of (run (num := xnum) outcomes) 95) (num_of_Z 500) = true ∧
      value_lt (percentile_of (run (num := xnum) outcomes) 99) (num_of_Z 1000) = true ∧
      ∀ o, o ∈ outcomes → ¬ connection_failure o) ∧
  (∀ error : string, exit_code (Throw error) = 1%N).
Proof.
  split; [| split; [| reflexivity]].
  - intros m. split; [apply exit_code_report |].
    destruct (report_exact m) as (p50 & p95 & p99 & _ & H95 & H99 & Hr).
    split.
    + rewrite Hr. cbn [exit_code]. destruct (allPassed (checks m p95 p99)); congruence.
    + exists p95, p99. split; [exact H95 |]. split; [exact H99 |].
      split; [| reflexivity].
      rewrite Hr, allPassed_checks. unfold checks. rewrite !Forall_cons, Forall_nil.
      cbn [passed exit_code].
      destruct (num_gt (successRate m) (num_of_Z 99)), (num_lt p95 (num_of_Z 500)),
        (num_lt p99 (num_of_Z 1000)), (connectionErrors m =? 0)%N; cbn;
        (split; [intros H; first [discriminate H | repeat split; reflexivity]
                | intros (H1 & H2 & H3 & H4 & _); first [reflexivity | discriminate]]).
  - intros outcomes. unfold runLoadTest.
    rewrite exit_code_report, success_check_iff, connectionErrors_zero. reflexivity.
Qed.

(** C10: a run without a single request.  The success rate is 0/0, not a
    number, so the check "Success Rate > 99%" fails and the exit code is
    1, although the percentile of no samples is 0 and the P95 and P99
    checks (and the connection check) pass. *)
Theorem run_without_requests_fails :
  ∀ outcomes : list outcome,
    totalRequests (run (num := xnum) outcomes) = 0%N →
    let m := run (num := xnum) outcomes in
    successRate m = NaN ∧
    percentile_of m 95 = Num (num_of_Z 0) ∧
    percentile_of m 99 = Num (num_of_Z 0) ∧
    checks m (num_of_Z 0) (num_of_Z 0)
    = [ {| name := "Success Rate > 99%"; passed := false |};
        {| name := "P95 Latency < 500ms"; passed := true |};
        {| name := "P99 Latency < 1000ms"; passed := true |};
        {| name := "No Connection Errors"; passed := true |} ] ∧
    runLoadTest (num := xnum) outcomes = Return 1%N ∧
    exit_code (runLoadTest (num := xnum) outcomes) = 1%N.
Proof.
  intros outcomes Hz. apply run_empty_iff in Hz. subst outcomes.
  cbv zeta. repeat split; vm_compute; reflexivity.
Qed.

End LoadGeneratorClaims.

(** * Properties of a worker, for any numbers *)

Section WorkerFacts.
Import JS Server.Worker.
Context {num : Type} `{!Number num}.
Variable Number_toString : num → string.
Variable html : string.
Variable gzipSync : list Byte.byte → list Byte.byte.
Variable pid : N.

Local Abbreviation handler := (handler Number_toString html gzipSync pid).
Local Abbreviation step := (step Number_toString html gzipSync pid).
Local Abbreviation serve := (serve Number_toString html gzipSync pid).
Local Abbreviation htmlBuffer := (htmlBuffer html).
Local Abbreviation compressedHtml := (compressedHtml html gzipSync).

Lemma handler_diagnostic (req : request) (t : readings) (m : metrics num) :
  url req = "/health" ∨ url req = "/metrics" → (snd (handler req t m)) = m.
Proof.
  intros [Hu | Hu]; unfold Server.Worker.handler; rewrite Hu; reflexivity.
Qed.

Lemma handler_page (req : request) (t : readings) (m : metrics num) :
  url req ≠ "/health" → url req ≠ "/metrics" →
  handler req t m
  = (page html gzipSync req,
     {| requestCount := requestCount m + 1;
        totalResponseTime :=
          num_add (totalResponseTime m)
                  (num_div (num_of_Z (hr_end t - hr_start t)) (num_of_Z 1000000));
        startTime := startTime m;
        errors := errors m |}%N).
Proof.
  intros Hh Hm. unfold Server.Worker.handler.
  apply String.eqb_neq in Hh, Hm. rewrite Hh, Hm. reflexivity.
Qed.

Lemma step_requestCount (m : metrics num) (e : event) :
  requestCount (step m e)
  = (requestCount m + if page_request e then 1 else 0)%N.
Proof.
  destruct e as [req t |]; cbn [Server.Worker.step page_request]; [| simpl; lia].
  destruct (String.eqb_spec (url req) "/health") as [Hh | Hh].
  - rewrite handler_diagnostic by (left; exact Hh). simpl. lia.
  - destruct (String.eqb_spec (url req) "/metrics") as [Hm | Hm].
    + rewrite handler_diagnostic by (right; exact Hm). simpl. lia.
    + rewrite handler_page by assumption. reflexivity.
Qed.

Lemma fold_step_requestCount (events : list event) (m : metrics num) :
  requestCount (fold_left step events m)
  = (requestCount m + N.of_nat (length (filter page_request events)))%N.
Proof.
  revert m. induction events as [| e events IH]; intros m; cbn [fold_left].
  - simpl. lia.
  - rewrite IH, step_requestCount, filter_cons.
    destruct (page_request e); [rewrite decide_True by exact I | rewrite decide_False by auto];
      cbn [length]; lia.
Qed.

(** C3: handling a request for [/health] or [/metrics] leaves
    [requestCount] (and the whole accumulator) as it was; handling a
    request for any other path adds exactly one; so the count of a worker
    is the number of page requests it has handled. *)
Theorem only_page_requests_are_counted :
  (∀ (req : request) (t : readings) (m : metrics num),
      (url req = "/health" ∨ url req = "/metrics" →
         (snd (handler req t m)) = m ∧
         requestCount (snd (handler req t m)) = requestCount m) ∧
      (url req ≠ "/health" → url req ≠ "/metrics" →
         requestCount (snd (handler req t m)) = (requestCount m + 1)%N)) ∧
  (∀ (startTime : Z) (events : list event),
      requestCount (serve startTime events)
      = N.of_nat (length (filter page_request events))).
Proof.
  split.
  - intros req t m. split.
    + intros Hu. rewrite handler_diagnostic by exact Hu. split; reflexivity.
    + intros Hh Hm. rewrite handler_page by assumption. reflexivity.
  - intros startTime events. unfold Server.Worker.serve.
    rewrite fold_step_requestCount. simpl. lia.
Qed.

Lemma starts_with_spec (prefix s : string) :
  starts_with prefix s = true ↔ ∃ rest : string, s = prefix +:+ rest.
Proof.
  revert s. induction prefix as [| a prefix IH]; intros s; cbn [starts_with].
  - split; [intros _; exists s; reflexivity | reflexivity].
  - destruct s as [| b s].
    + split; [discriminate | intros [rest Hr]; discriminate Hr].
    + destruct (Ascii.eqb_spec a b) as [-> | Hne].
      * rewrite IH. split; intros [rest Hr]; exists rest.
        -- subst s. reflexivity.
        -- change (String b s = String b (prefix +:+ rest)) in Hr. congruence.
      * split; [discriminate |]. intros [rest Hr].
        change (String b s = String a (prefix +:+ rest)) in Hr. congruence.
Qed.

(** [s.includes(search)] holds exactly when [search] is a substring of [s]. *)
Lemma String_includes_spec (s search : string) :
  String_includes s search = true ↔
  ∃ before after : string, s = before +:+ search +:+ after.
Proof.
  induction s as [| a s IH]; cbn [String_includes]; rewrite orb_true_iff, starts_with_spec.
  - split.
    + intros [[rest Hr] | Hf]; [exists "", rest; exact Hr | discriminate].
    + intros (before & after & Hs). left.
      destruct before; [exists after; exact Hs | discriminate].
  - rewrite IH. split.
    + intros [[rest Hr] | (before & after & Hs)].
      * exists "", rest. exact Hr.
      * exists (String a before), after. subst s. reflexivity.
    + intros (before & after & Hs). destruct before as [| b before].
      * left. exists after. exact Hs.
      * right. exists before, after.
        change (String a s = String b (before +:+ search +:+ after)) in Hs. congruence.
Qed.

(** C5: a request for the page (any path but [/health] and [/metrics])
    is answered with status 200.  When its [accept-encoding] header
    contains [gzip], the body is the buffer that [zlib.gzipSync] made of
    the bytes of the page, [Content-Encoding] is [gzip] and
    [Content-Length] is the length of that compressed buffer; otherwise
    the body is the bytes of the page themselves, there is no
    [Content-Encoding] and [Content-Length] is their number.  Either way
    [Content-Length] is the length of the body that is sent. *)
Theorem page_is_served_in_the_accepted_encoding :
  ∀ (req : request) (t : readings) (m : metrics num),
    url req ≠ "/health" → url req ≠ "/metrics" →
    let res := (fst (handler req t m)) in
    let acceptEncoding := default "" (headers req !! "accept-encoding") in
    let raw := list_byte_of_string html in
    let compressed := gzipSync (list_byte_of_string html) in
    statusCode res = 200%N ∧
    ((∃ before after : string, acceptEncoding = before +:+ "gzip" +:+ after) →
       body res = Some (Bytes compressed) ∧
       response_headers res !! "Content-Encoding" = Some (HString "gzip") ∧
       response_headers res !! "Content-Length"
       = Some (HNumber (N.of_nat (length compressed)))) ∧
    (¬ (∃ before after : string, acceptEncoding = before +:+ "gzip" +:+ after) →
       body res = Some (Bytes raw) ∧
       response_headers res !! "Content-Encoding" = None ∧
       response_headers res !! "Content-Length"
       = Some (HNumber (N.of_nat (length raw)))) ∧
    (∃ sent : list Byte.byte,
       body res = Some (Bytes sent) ∧
       response_headers res !! "Content-Length" = Some (HNumber (N.of_nat (length sent)))).
Proof.
  intros req t m Hh Hm. rewrite handler_page by assumption. cbn [fst].
  unfold page. rewrite <- String_includes_spec.
  destruct (String_includes (default "" (headers req !! "accept-encoding")) "gzip");
    (split; [reflexivity |]); (split; [| split]).
  - intros _. split; [reflexivity |]. split; reflexivity.
  - intros Hnot. exfalso. apply Hnot. reflexivity.
  - eexists. split; reflexivity.
  - discriminate.
  - intros _. split; [reflexivity |]. split; reflexivity.
  - eexists. split; reflexivity.
Qed.

End WorkerFacts.

(** * The digits [toFixed] prints *)

Section FixedDigits.
Import JS.

Lemma append_String (a : ascii) (s t : string) : String a s +:+ t = String a (s +:+ t).
Proof. reflexivity. Qed.

Lemma length_append (s t : string) :
  String.length (s +:+ t) = (String.length s + String.length t)%nat.
Proof.
  induction s as [| a s IH]; [reflexivity |].
  rewrite append_String. cbn [String.length Nat.add]. rewrite IH. reflexivity.
Qed.

Lemma length_zeros (k : nat) : String.length (zeros k) = k.
Proof.
  induction k as [| k IH]; cbn [zeros String.length]; [reflexivity | rewrite IH; reflexivity].
Qed.

Lemma substring_all (s : string) : substring 0 (String.length s) s = s.
Proof.
  induction s as [| a s IH]; cbn [String.length substring];
    [reflexivity | rewrite IH; reflexivity].
Qed.

Lemma substring_split (s : string) (i : nat) :
  (i ≤ String.length s)%nat →
  substring 0 i s +:+ substring i (String.length s - i) s = s.
Proof.
  revert i. induction s as [| a s IH]; intros i Hi.
  - cbn in Hi. replace i with 0%nat by lia. reflexivity.
  - destruct i as [| i].
    + change (String.length (String a s) - 0)%nat with (S (String.length s)).
      cbn [substring]. rewrite substring_all. reflexivity.
    + cbn [substring String.length Nat.sub]. rewrite append_String, IH; [reflexivity |].
      cbn in Hi. lia.
Qed.

Lemma length_substring (s : string) (i k : nat) :
  (i + k ≤ String.length s)%nat → String.length (substring i k s) = k.
Proof.
  revert i k. induction s as [| a s IH]; intros i k Hik.
  - cbn in Hik. replace i with 0%nat by lia. replace k with 0%nat by lia. reflexivity.
  - destruct i as [| i].
    + destruct k as [| k]; [reflexivity |].
      cbn [substring String.length]. rewrite (IH 0%nat k); [reflexivity |].
      cbn in Hik. lia.
    + cbn [substring]. apply IH. cbn in Hik. lia.
Qed.

Lemma digits_value_decimal (n : N) : digits_value (decimal n) = Some n.
Proof.
  unfold digits_value, decimal, NilZero.string_of_uint.
  assert (Hd : NilEmpty.uint_of_string (NilEmpty.string_of_uint (N.to_uint n))
               = Some (N.to_uint n)) by apply NilEmpty.usu.
  assert (Hn : N.of_uint (N.to_uint n) = n) by apply DecimalN.Unsigned.of_to.
  destruct (N.to_uint n) eqn:E; try (rewrite Hd; cbn [fmap option_fmap option_map]; congruence).
  destruct n as [| p]; [discriminate E |].
  cbn in E. pose proof (DecimalPos.Unsigned.to_uint_nonnil p) as Hnil. congruence.
Qed.

Lemma digits_value_zeros (k : nat) (s : string) :
  digits_value (zeros k +:+ s) = digits_value s.
Proof.
  induction k as [| k IH]; [reflexivity |].
  unfold digits_value in *. cbn [zeros]. rewrite append_String.
  cbn [NilEmpty.uint_of_string].
  rewrite <- IH.
  destruct (NilEmpty.uint_of_string (zeros k +:+ s)) as [d |]; reflexivity.
Qed.

Lemma decimal_nonempty (n : N) : (1 ≤ String.length (decimal n))%nat.
Proof.
  pose proof (digits_value_decimal n) as Hv.
  destruct (decimal n) eqn:E; [| cbn; lia].
  injection Hv as Hn. subst n. discriminate E.
Qed.

(** [toFixed(2)] prints the integer [n] of hundredths as a decimal numeral
    with exactly two digits after the point: the digits before and after
    the point, read together, denote [n]. *)
Lemma fixed_digits_two (n : N) :
  ∃ whole frac : string,
    fixed_digits 2 n = whole +:+ "." +:+ frac ∧
    String.length frac = 2%nat ∧
    (1 ≤ String.length whole)%nat ∧
    digits_value (whole +:+ frac) = Some n.
Proof.
  unfold fixed_digits.
  set (m := if (String.length (decimal n) <=? 2)%nat
            then zeros (2 + 1 - String.length (decimal n)) +:+ decimal n
            else decimal n).
  assert (Hlen : (3 ≤ String.length m)%nat).
  { unfold m. pose proof (decimal_nonempty n).
    destruct (Nat.leb_spec (String.length (decimal n)) 2).
    - rewrite length_append, length_zeros. lia.
    - lia. }
  assert (Hval : digits_value m = Some n).
  { unfold m. destruct (String.length (decimal n) <=? 2)%nat.
    - rewrite digits_value_zeros. apply digits_value_decimal.
    - apply digits_value_decimal. }
  exists (substring 0 (String.length m - 2) m), (substring (String.length m - 2) 2 m).
  split; [reflexivity |]. split; [apply length_substring; lia |].
  split; [rewrite length_substring; lia |].
  pose proof (substring_split m (String.length m - 2)) as Hsplit.
  replace (String.length m - (String.length m - 2))%nat with 2%nat in Hsplit by lia.
  rewrite Hsplit by lia. exact Hval.
Qed.

End FixedDigits.

(** * The health report, for any numbers *)

Section Health.
Import JS Server.Worker.
Context {num : Type} `{!Number num}.
Variable Number_toString : num → string.
Variable html : string.
Variable gzipSync : list Byte.byte → list Byte.byte.
Variable pid : N.

Local Abbreviation handler := (handler Number_toString html gzipSync pid).
Local Abbreviation avgResponseTime := (avgResponseTime Number_toString).

(** What [toFixed(2)] prints for a number of the value [q]. *)
Lemma toFixed_finite (x : num) (q : Q) :
  num_view x = VFin q →
  (Qabs q < inject_Z (10 ^ 21))%Q →
  toFixed Number_toString 2 x
  = (if Qle_bool 0 q then "" else "-")
    +:+ fixed_digits 2 (Z.to_N (Qfloor (Qabs q * inject_Z 100 + (1 # 2)))).
Proof.
  intros Hview Hq. unfold toFixed. rewrite Hview.
  destruct (Qle_bool (inject_Z (10 ^ 21)) (Qabs q)) eqn:E.
  - apply Qle_bool_iff in E. destruct (Qlt_not_le _ _ Hq E).
  - reflexivity.
Qed.

(** The integer of hundredths nearest to a non-negative [a] (the larger
    one on a tie). *)
Lemma nearest_hundredths (a : Q) :
  (0 <= a)%Q →
  let n := Z.to_N (Qfloor (a * inject_Z 100 + (1 # 2))) in
  (inject_Z (Z.of_N n) - (1 # 2) <= a * inject_Z 100)%Q ∧
  (a * inject_Z 100 < inject_Z (Z.of_N n) + (1 # 2))%Q.
Proof.
  intros Ha n.
  assert (Hx : (0 <= a * inject_Z 100 + (1 # 2))%Q).
  { apply Qle_trans with (a * inject_Z 100 + 0)%Q.
    - rewrite Qplus_0_r. apply Qmult_le_0_compat; [exact Ha | discriminate].
    - apply Qplus_le_r. discriminate. }
  assert (Hf : 0 ≤ Qfloor (a * inject_Z 100 + (1 # 2))).
  { change 0 with (Qfloor (inject_Z 0)). apply Qfloor_resp_le. exact Hx. }
  unfold n. rewrite Z2N.id by exact Hf.
  pose proof (Qfloor_le (a * inject_Z 100 + (1 # 2))) as Hle.
  pose proof (Qlt_floor (a * inject_Z 100 + (1 # 2))) as Hlt.
  rewrite inject_Z_plus in Hlt.
  set (f := inject_Z (Qfloor (a * inject_Z 100 + (1 # 2)))) in *.
  split.
  - apply (Qplus_le_l _ _ (1 # 2)). ring_simplify. ring_simplify in Hle. exact Hle.
  - apply (Qplus_lt_l _ _ (1 # 2)).
    apply Qlt_le_trans with (f + inject_Z 1)%Q; [exact Hlt |].
    apply Qle_lteq. right. change (inject_Z 1) with 1%Q. ring.
Qed.

Lemma health_field (req : request) (t : readings) (m : metrics num) :
  url req = "/health" →
  statusCode (fst (handler req t m)) = 200%N ∧
  field "avg_response_time_ms" (fst (handler req t m)) = Some (avgResponseTime m).
Proof.
  intros Hu. unfold Server.Worker.handler. rewrite Hu. split; reflexivity.
Qed.

(** C2: the field [avg_response_time_ms] of the health report is the
    number 0 while no request has been counted; afterwards it is the
    quotient [totalResponseTime / requestCount], as the program computes
    it, rounded to two decimal places the way [toFixed(2)] prints it: a
    numeral with two digits after the point whose hundredths are the
    integer nearest to 100 times the value of that quotient (the larger
    one on a tie).  This holds whatever the arithmetic of the numbers is,
    in particular for the doubles of the program. *)
Theorem health_reports_the_average_response_time :
  ∀ (req : request) (t : readings) (m : metrics num),
    url req = "/health" →
    let res := (fst (handler req t m)) in
    let quotient := num_div (totalResponseTime m) (num_of_N (requestCount m)) in
    statusCode res = 200%N ∧
    (requestCount m = 0%N →
       field "avg_response_time_ms" res = Some (JNumber (num_of_Z 0))) ∧
    ((0 < requestCount m)%N →
       field "avg_response_time_ms" res
       = Some (JString (toFixed Number_toString 2 quotient)) ∧
       ∀ average : Q,
         num_view quotient = VFin average →
         (Qabs average < inject_Z (10 ^ 21))%Q →
         ∃ (hundredths : N) (whole frac : string),
           field "avg_response_time_ms" res
           = Some (JString ((if Qle_bool 0 average then "" else "-")
                            +:+ whole +:+ "." +:+ frac)) ∧
           String.length frac = 2%nat ∧
           digits_value (whole +:+ frac) = Some hundredths ∧
           (inject_Z (Z.of_N hundredths) - (1 # 2) <= Qabs average * inject_Z 100)%Q ∧
           (Qabs average * inject_Z 100 < inject_Z (Z.of_N hundredths) + (1 # 2))%Q).
Proof.
  intros req t m Hu res quotient.
  destruct (health_field req t m Hu) as [Hstatus Hfield].
  split; [exact Hstatus |]. unfold res. rewrite Hfield.
  unfold Server.Worker.avgResponseTime. split.
  - intros ->. reflexivity.
  - intros Hc. destruct (N.ltb_spec 0 (requestCount m)) as [_ | Hle]; [| lia].
    split; [reflexivity |].
    intros average Hview Hsmall. fold quotient.
    rewrite (toFixed_finite quotient average Hview Hsmall).
    destruct (fixed_digits_two (Z.to_N (Qfloor (Qabs average * inject_Z 100 + (1 # 2)))))
      as (whole & frac & Hdigits & Hlen & _ & Hvalue).
    destruct (nearest_hundredths (Qabs average) (Qabs_nonneg average)) as [Hlo Hhi].
    eexists _, whole, frac. rewrite Hdigits.
    split; [reflexivity |]. split; [exact Hlen |]. split; [exact Hvalue |].
    split; [exact Hlo | exact Hhi].
Qed.

End Health.

(** * Properties of the primary *)

Section PrimaryFacts.
Import Server.Primary.

Lemma cluster_fork_spec (s : primary) :
  fresh_ids s →
  let s' := (fst (cluster_fork s)) in
  snd (cluster_fork s) = [Fork (next_id s)] ∧
  (next_id s ∉ workers s) ∧
  workers s' = {[next_id s]} ∪ workers s ∧
  size (workers s') = S (size (workers s)) ∧
  running s' = running s ∧
  fresh_ids s'.
Proof.
  intros Hfresh. cbn.
  assert (Hnew : next_id s ∉ workers s).
  { intros Hin. apply Hfresh in Hin. lia. }
  split; [reflexivity |]. split; [exact Hnew |]. split; [reflexivity |].
  split; [| split; [reflexivity |]].
  - rewrite size_union by set_solver. rewrite size_singleton. reflexivity.
  - intros id Hin. cbn in *. apply elem_of_union in Hin as [Hin | Hin].
    + apply elem_of_singleton in Hin. lia.
    + apply Hfresh in Hin. lia.
Qed.

Lemma fork_workers_spec (numCPUs : nat) (s : primary) :
  fresh_ids s →
  let s' := (fst (fork_workers numCPUs s)) in
  size (workers s') = (numCPUs + size (workers s))%nat ∧
  length (forks (snd (fork_workers numCPUs s))) = numCPUs ∧
  running s' = running s ∧
  fresh_ids s'.
Proof.
  revert s. induction numCPUs as [| n IH]; intros s Hfresh.
  - cbn. repeat split; [exact Hfresh].
  - destruct (cluster_fork_spec s Hfresh) as (Hact & _ & _ & Hsize & Hrun & Hfresh1).
    cbn [fork_workers].
    destruct (cluster_fork s) as [s1 a1] eqn:E1. cbn [fst snd] in *.
    specialize (IH s1 Hfresh1).
    destruct (fork_workers n s1) as [s2 a2] eqn:E2. cbn [fst snd] in *.
    destruct IH as (IHsize & IHforks & IHrun & IHfresh).
    subst a1. split; [lia |]. split; [| split; [congruence | exact IHfresh]].
    change (forks ([Fork (next_id s)] ++ a2)) with (next_id s :: forks a2).
    cbn [length]. lia.
Qed.

Lemma start_spec (numCPUs : nat) :
  let s := (fst (start numCPUs)) in
  size (workers s) = numCPUs ∧
  length (forks (snd (start numCPUs))) = numCPUs ∧
  running s = true ∧
  fresh_ids s.
Proof.
  unfold start.
  destruct (fork_workers_spec numCPUs {| running := true; workers := ∅; next_id := 1 |})
    as (Hsize & Hforks & Hrun & Hfresh).
  - intros id Hin. cbn in Hin. set_solver.
  - cbn [workers running] in *. rewrite size_empty in Hsize.
    split; [lia |]. split; [exact Hforks |]. split; [exact Hrun | exact Hfresh].
Qed.

Lemma remove_fresh (s : primary) (id : N) :
  fresh_ids s →
  fresh_ids {| running := running s; workers := workers s ∖ {[id]}; next_id := next_id s |}.
Proof.
  intros Hfresh id' Hin. cbn in *. apply Hfresh.
  apply elem_of_difference in Hin as [Hin _]. exact Hin.
Qed.

Lemma size_remove (s : primary) (id : N) :
  id ∈ workers s → S (size (workers s ∖ {[id]})) = size (workers s).
Proof.
  intros Hin. rewrite size_difference by set_solver. rewrite size_singleton.
  assert (size (workers s) ≠ 0)%nat; [| lia].
  intros Hz. apply size_empty_inv in Hz. set_solver.
Qed.

(** A worker exits while the primary runs: one fork, and as many live
    workers as before. *)
Lemma handle_exit_running (s : primary) (id : N) (code : option Z) (signal : option string) :
  fresh_ids s → running s = true → id ∈ workers s →
  let s' := (fst (handle s (WorkerExit id code signal))) in
  snd (handle s (WorkerExit id code signal)) = [Fork (next_id s)] ∧
  (next_id s ∉ workers s) ∧
  workers s' = {[next_id s]} ∪ (workers s ∖ {[id]}) ∧
  size (workers s') = size (workers s) ∧
  running s' = true ∧
  fresh_ids s'.
Proof.
  intros Hfresh Hrun Hin. destruct s as [r ws nid]. cbn [running] in Hrun. subst r.
  cbv zeta. cbn [handle running workers next_id]. unfold on_exit.
  pose proof (remove_fresh _ id Hfresh) as Hfresh0. cbn [running workers next_id] in Hfresh0.
  destruct (cluster_fork_spec _ Hfresh0) as (Hact & Hnew & Hworkers & Hsize & Hrun' & Hfresh').
  cbn [running workers next_id] in *.
  split; [exact Hact |]. split; [intros Hn; apply Hfresh in Hn; cbn in Hn; lia |].
  split; [exact Hworkers |]. split; [| split; [exact Hrun' | exact Hfresh']].
  rewrite Hsize. apply (size_remove {| running := true; workers := ws; next_id := nid |}), Hin.
Qed.

(** A worker exits after the primary has exited: nothing is done about it. *)
Lemma handle_exit_stopped (s : primary) (id : N) (code : option Z) (signal : option string) :
  running s = false → id ∈ workers s →
  let s' := (fst (handle s (WorkerExit id code signal))) in
  (snd (handle s (WorkerExit id code signal))) = [] ∧
  workers s' = workers s ∖ {[id]} ∧
  S (size (workers s')) = size (workers s) ∧
  running s' = false.
Proof.
  intros Hrun Hin. destruct s as [r ws nid]. cbn [running] in Hrun. subst r.
  cbv zeta. cbn [handle running workers next_id fst snd].
  split; [reflexivity |]. split; [reflexivity |]. split; [| reflexivity].
  apply (size_remove {| running := false; workers := ws; next_id := nid |}), Hin.
Qed.

Lemma forks_app (a b : list action) : forks (a ++ b) = forks a ++ forks b.
Proof. unfold forks. apply omap_app. Qed.

Lemma forks_kills (ids : list N) (signal : string) :
  forks (map (λ id, Kill id signal) ids) = [].
Proof. induction ids as [| id ids IH]; [reflexivity | exact IH]. Qed.

Lemma handle_SIGTERM (s : primary) :
  running s = true →
  let s' := (fst (handle s SIGTERM)) in
  (snd (handle s SIGTERM)) = map (λ id, Kill id "SIGTERM") (ascending (workers s)) ++ [Exit 0] ∧
  forks (snd (handle s SIGTERM)) = [] ∧
  workers s' = workers s ∧
  running s' = false.
Proof.
  intros Hrun. destruct s as [r ws nid]. cbn [running] in Hrun. subst r.
  cbv zeta. cbn [handle running]. unfold on_SIGTERM. cbn [fst snd workers running next_id].
  split; [reflexivity |]. split; [| split; reflexivity].
  rewrite forks_app, forks_kills. reflexivity.
Qed.

Lemma handle_fresh (s : primary) (e : event) :
  fresh_ids s → possible s e → fresh_ids (fst (handle s e)).
Proof.
  intros Hfresh Hpos. destruct e as [id code signal |].
  - destruct (running s) eqn:Hrun.
    + apply handle_exit_running; assumption.
    + cbn [handle]. rewrite Hrun. apply remove_fresh, Hfresh.
  - cbn [handle]. destruct (running s); exact Hfresh.
Qed.

(** While the primary runs there are as many live workers as it started. *)
Lemma handle_all_invariant (es : list event) (s : primary) (n : nat) :
  fresh_ids s → possible_all s es → (running s = true → size (workers s) = n) →
  let s' := (fst (handle_all s es)) in
  fresh_ids s' ∧ (running s' = true → size (workers s') = n).
Proof.
  revert s. induction es as [| e es IH]; intros s Hfresh Hpos Hsize.
  - split; assumption.
  - destruct Hpos as [Hpos Hrest]. cbn [handle_all].
    destruct (handle s e) as [s1 a1] eqn:E1. cbn [fst snd] in *.
    destruct (handle_all s1 es) as [s2 a2] eqn:E2. cbn [fst].
    specialize (IH s1). rewrite E2 in IH. apply IH.
    + replace s1 with (fst (handle s e)) by (rewrite E1; reflexivity).
      apply handle_fresh; assumption.
    + exact Hrest.
    + intros Hrun1. replace s1 with (fst (handle s e)) in * by (rewrite E1; reflexivity).
      destruct e as [id code signal |]; cbn [possible] in Hpos.
      * destruct (running s) eqn:Hrun.
        -- destruct (handle_exit_running s id code signal Hfresh Hrun Hpos)
             as (_ & _ & _ & Hsz & _ & _).
           rewrite Hsz. apply Hsize. reflexivity.
        -- destruct (handle_exit_stopped s id code signal Hrun Hpos) as (_ & _ & _ & Hstop).
           congruence.
      * destruct (running s) eqn:Hrun.
        -- destruct (handle_SIGTERM s Hrun) as (_ & _ & _ & Hstop). congruence.
        -- cbn [handle] in Hrun1. rewrite Hrun in Hrun1. cbn in Hrun1. congruence.
Qed.

Lemma handle_all_running (es : list event) (s : primary) :
  running (fst (handle_all s es)) = true ↔ running s = true ∧ SIGTERM ∉ es.
Proof.
  revert s. induction es as [| e es IH]; intros s.
  - cbn. split; [intros Hr; split; [exact Hr | apply not_elem_of_nil] | intros [Hr _]; exact Hr].
  - cbn [handle_all].
    destruct (handle s e) as [s1 a1] eqn:E1.
    specialize (IH s1). destruct (handle_all s1 es) as [s2 a2] eqn:E2. cbn [fst] in *.
    rewrite IH, not_elem_of_cons.
    destruct e as [id code signal |]; cbn [handle] in E1.
    + assert (Hr1 : running s1 = running s).
      { destruct (running s) eqn:Hr; injection E1 as <- _; reflexivity. }
      rewrite Hr1. split; [intros [Hr Hn] | intros [Hr [_ Hn]]]; repeat split; try assumption.
      discriminate.
    + assert (Hr1 : running s1 = false).
      { destruct s as [r ws nid]. destruct r; injection E1 as <- _; reflexivity. }
      rewrite Hr1. split; [intros [Hr _]; discriminate | intros [_ [Hn _]]; congruence].
Qed.

(** C8: the primary keeps as many workers alive as it started.  Whenever
    a worker exits while the primary runs (whatever its exit code or
    signal), the primary forks exactly one new worker and the number of
    live workers is again the number of CPUs.  On SIGTERM the primary
    signals its workers and exits, forking nothing; a worker that exits
    after that is not replaced. *)
Theorem exited_worker_is_replaced_by_one :
  ∀ (numCPUs : nat) (es : list event),
    let s0 := fst (start numCPUs) in
    possible_all s0 es →
    let s := fst (handle_all s0 es) in
    size (workers s0) = numCPUs ∧
    (running s = true → size (workers s) = numCPUs) ∧
    (running s = false ↔ SIGTERM ∈ es) ∧
    (∀ (id : N) (code : option Z) (signal : option string),
        id ∈ workers s →
        let s' := fst (handle s (WorkerExit id code signal)) in
        let actions := snd (handle s (WorkerExit id code signal)) in
        (running s = true →
           actions = [Fork (next_id s)] ∧
           (next_id s ∉ workers s) ∧
           workers s' = {[next_id s]} ∪ (workers s ∖ {[id]}) ∧
           size (workers s') = numCPUs ∧
           running s' = true) ∧
        (running s = false →
           actions = [] ∧
           workers s' = workers s ∖ {[id]} ∧
           S (size (workers s')) = size (workers s) ∧
           running s' = false)) ∧
    (running s = true →
       snd (handle s SIGTERM)
       = map (λ id, Kill id "SIGTERM") (ascending (workers s)) ++ [Exit 0] ∧
       forks (snd (handle s SIGTERM)) = [] ∧
       running (fst (handle s SIGTERM)) = false).
Proof.
  intros numCPUs es s0 Hpos s.
  destruct (start_spec numCPUs) as (Hsize0 & _ & Hrun0 & Hfresh0). fold s0 in Hsize0, Hrun0, Hfresh0.
  destruct (handle_all_invariant es s0 numCPUs Hfresh0 Hpos (λ _, Hsize0)) as [Hfresh Hsize].
  fold s in Hfresh, Hsize.
  split; [exact Hsize0 |]. split; [exact Hsize |]. split; [| split].
  - pose proof (handle_all_running es s0) as Hr. fold s in Hr. split.
    + intros Hstop. destruct (decide (SIGTERM ∈ es)) as [Hin | Hn]; [exact Hin |].
      assert (Ht : running s = true) by (apply Hr; split; assumption).
      congruence.
    + intros Hin. apply not_true_is_false. intros Ht.
      apply Hr in Ht as [_ Hn]. contradiction.
  - intros id code signal Hin s' actions. split.
    + intros Hrun.
      destruct (handle_exit_running s id code signal Hfresh Hrun Hin)
        as (Hact & Hnew & Hworkers & Hsz & Hrun' & _).
      split; [exact Hact |]. split; [exact Hnew |]. split; [exact Hworkers |].
      split; [| exact Hrun']. unfold s'. rewrite Hsz. apply Hsize, Hrun.
    + intros Hrun. apply handle_exit_stopped; assumption.
  - intros Hrun. destruct (handle_SIGTERM s Hrun) as (Hact & Hforks & _ & Hstop).
    split; [exact Hact |]. split; [exact Hforks | exact Hstop].
Qed.

End PrimaryFacts.

(** * The concrete figures *)

Section Witnesses.
Import JS Exact.

Lemma counts_balanced_witness :
  LoadTest.successfulRequests (LoadTest.run (num := xnum) Figures.three) = 1%N ∧
  LoadTest.failedRequests (LoadTest.run (num := xnum) Figures.three) = 2%N ∧
  balanced (LoadTest.run (num := xnum) Figures.three) ∧
  balanced (LoadTest.record (LoadTest.run (num := xnum) Figures.three)
              (LoadTest.RequestError Figures.refused)).
Proof.
  split; [reflexivity |]. split; [reflexivity |]. split; [reflexivity |].
  apply (proj1 (counts_balanced_after_every_step (num := xnum))).
  reflexivity.
Defined.

Lemma cut_response_witness :
  num_lt (num_of_Z 0) (Fin (inject_Z 60000)) = true ∧
  LoadTest.worker (Fin (inject_Z 60000))
    [(0, LoadTest.Cut); (1, LoadTest.Responded 200 0 1500000)]
    LoadTest.initial_metrics
  = (Pending, LoadTest.initial_metrics).
Proof.
  assert (Hearly : num_lt (num_of_Z 0) (Fin (inject_Z 60000)) = true) by reflexivity.
  split; [exact Hearly |].
  exact (proj1 (proj2 (cut_response_is_not_recorded_and_stalls_its_loop (num := xnum)))
           (Fin (inject_Z 60000)) 0 [(1, LoadTest.Responded 200 0 1500000)]
           LoadTest.initial_metrics Hearly).
Defined.

Lemma percentile_witness :
  (95 = 50 ∨ 95 = 95 ∨ 95 = 99) ∧
  (0 < length (Figures.samples (num := spec_float)))%nat ∧
  Z.of_nat (length (Figures.samples (num := spec_float))) < 2 ^ 32 ∧
  ∃ x : spec_float,
    Figures.samples !! Z.to_nat (rank (inject_Z 95) 5 - 1) = Some x ∧
    LoadTest.calculatePercentile Figures.samples (num_of_Z 95) = Num x.
Proof.
  assert (Hp : 95 = 50 ∨ 95 = 95 ∨ 95 = 99) by (right; left; reflexivity).
  assert (Hn : (0 < length (Figures.samples (num := spec_float)))%nat) by (cbn; lia).
  assert (Hlen : Z.of_nat (length (Figures.samples (num := spec_float))) < 2 ^ 32)
    by (vm_compute; reflexivity).
  split; [exact Hp |]. split; [exact Hn |]. split; [exact Hlen |].
  exact (proj2 (proj1 (proj2 percentile_is_nearest_rank) Figures.samples 95 Hp Hn Hlen)).
Defined.

Lemma health_witness :
  Server.Worker.url Figures.health_request = "/health" ∧
  (0 < Server.Worker.requestCount (Figures.busy (num := spec_float)))%N ∧
  Server.Worker.field "avg_response_time_ms"
    (fst (Server.Worker.handler (num := spec_float) Figures.unprinted Figures.page_text
            Figures.stored 4242 Figures.health_request Figures.clock Figures.busy))
  = Some (Server.Worker.JString "12.33").
Proof.
  assert (Hu : Server.Worker.url Figures.health_request = "/health") by reflexivity.
  assert (Hc : (0 < Server.Worker.requestCount (Figures.busy (num := spec_float)))%N)
    by reflexivity.
  split; [exact Hu |]. split; [exact Hc |].
  destruct (health_reports_the_average_response_time (num := spec_float) Figures.unprinted
              Figures.page_text Figures.stored 4242 Figures.health_request Figures.clock
              Figures.busy Hu)
    as (_ & _ & Hpos).
  destruct (Hpos Hc) as [Hfield _].
  etransitivity; [exact Hfield | vm_compute; reflexivity].
Defined.

Lemma page_count_witness :
  Server.Worker.url Figures.page_request_plain ≠ "/health" ∧
  Server.Worker.url Figures.page_request_plain ≠ "/metrics" ∧
  Server.Worker.requestCount
    (snd (Server.Worker.handler (num := xnum) Figures.unprinted Figures.page_text Figures.stored 4242
            Figures.page_request_plain Figures.clock (Figures.busy (num := xnum))))
  = 4%N.
Proof.
  assert (Hh : Server.Worker.url Figures.page_request_plain ≠ "/health") by discriminate.
  assert (Hm : Server.Worker.url Figures.page_request_plain ≠ "/metrics") by discriminate.
  split; [exact Hh |]. split; [exact Hm |].
  destruct (proj1 (only_page_requests_are_counted Figures.unprinted Figures.page_text
                     Figures.stored 4242)
              Figures.page_request_plain Figures.clock (Figures.busy (num := xnum)))
    as [_ Hpage].
  etransitivity; [exact (Hpage Hh Hm) | reflexivity].
Defined.

Lemma page_encoding_witness :
  Server.Worker.url Figures.page_request_gzip ≠ "/health" ∧
  Server.Worker.url Figures.page_request_gzip ≠ "/metrics" ∧
  default "" (Server.Worker.headers Figures.page_request_gzip !! "accept-encoding")
  = "" +:+ "gzip" +:+ ", deflate" ∧
  Server.Worker.body
    (fst (Server.Worker.handler (num := xnum) Figures.unprinted Figures.page_text Figures.framed 4242
            Figures.page_request_gzip Figures.clock (Figures.busy (num := xnum))))
  = Some (Server.Worker.Bytes
            (Byte.x1f :: Byte.x8b :: list_byte_of_string Figures.page_text)) ∧
  Server.Worker.response_headers
    (fst (Server.Worker.handler (num := xnum) Figures.unprinted Figures.page_text Figures.framed 4242
            Figures.page_request_gzip Figures.clock (Figures.busy (num := xnum))))
    !! "Content-Length"
  = Some (Server.Worker.HNumber 30).
Proof.
  assert (Hh : Server.Worker.url Figures.page_request_gzip ≠ "/health") by discriminate.
  assert (Hm : Server.Worker.url Figures.page_request_gzip ≠ "/metrics") by discriminate.
  assert (Ha : default "" (Server.Worker.headers Figures.page_request_gzip !! "accept-encoding")
               = "" +:+ "gzip" +:+ ", deflate") by reflexivity.
  split; [exact Hh |]. split; [exact Hm |]. split; [exact Ha |].
  destruct (page_is_served_in_the_accepted_encoding Figures.unprinted Figures.page_text
              Figures.framed 4242 Figures.page_request_gzip Figures.clock
              (Figures.busy (num := xnum)) Hh Hm) as (_ & Hgzip & _).
  destruct Hgzip as (Hbody & _ & Hlength); [exists "", ", deflate"; exact Ha |].
  split; [exact Hbody | exact Hlength].
Defined.

Lemma strict_check_witness :
  (0 < LoadTest.totalRequests (Figures.counted (num := xnum) 99 100))%N ∧
  (100 * LoadTest.successfulRequests (Figures.counted (num := xnum) 99 100)
   = 99 * LoadTest.totalRequests (Figures.counted (num := xnum) 99 100))%N ∧
  LoadTest.exit_code (LoadTest.report (Figures.counted (num := xnum) 99 100)) = 1%N.
Proof.
  assert (Ht : (0 < LoadTest.totalRequests (Figures.counted (num := xnum) 99 100))%N)
    by reflexivity.
  assert (Hs : (100 * LoadTest.successfulRequests (Figures.counted (num := xnum) 99 100)
                = 99 * LoadTest.totalRequests (Figures.counted (num := xnum) 99 100))%N)
    by reflexivity.
  split; [exact Ht |]. split; [exact Hs |].
  destruct (proj1 success_rate_check_is_strict (Figures.counted 99 100) (Fin 0) (Fin 0))
    as (c & rest & _ & _ & _ & _ & _ & Hexact).
  destruct (Hexact Ht Hs) as (_ & _ & Hexit). exact Hexit.
Defined.

Lemma exit_code_witness :
  LoadTest.exit_code (LoadTest.report (LoadTest.run (num := xnum) Figures.three)) ≠ 0%N ∧
  LoadTest.exit_code (LoadTest.report (LoadTest.run (num := xnum) Figures.three)) = 1%N.
Proof.
  assert (Hne : LoadTest.exit_code (LoadTest.report (LoadTest.run (num := xnum) Figures.three))
                ≠ 0%N) by (vm_compute; discriminate).
  split; [exact Hne |].
  destruct (proj1 exit_code_zero_iff_all_checks_pass (LoadTest.run (num := xnum) Figures.three))
    as (_ & Hone & _).
  exact (Hone Hne).
Defined.

Lemma no_requests_witness :
  LoadTest.totalRequests (LoadTest.run (num := xnum) []) = 0%N ∧
  LoadTest.successRate (LoadTest.run (num := xnum) []) = NaN ∧
  LoadTest.exit_code (LoadTest.runLoadTest (num := xnum) []) = 1%N.
Proof.
  assert (Hz : LoadTest.totalRequests (LoadTest.run (num := xnum) []) = 0%N) by reflexivity.
  split; [exact Hz |].
  destruct (run_without_requests_fails [] Hz) as (Hrate & _ & _ & _ & _ & Hexit).
  split; [exact Hrate | exact Hexit].
Defined.

Lemma supervisor_witness :
  Server.Primary.possible_all (fst (Server.Primary.start 2)) [Server.Primary.WorkerExit 1 (Some 1) None] ∧
  Server.Primary.running
    (fst (Server.Primary.handle_all (fst (Server.Primary.start 2))
            [Server.Primary.WorkerExit 1 (Some 1) None])) = true ∧
  size (Server.Primary.workers
          (fst (Server.Primary.handle_all (fst (Server.Primary.start 2))
                  [Server.Primary.WorkerExit 1 (Some 1) None]))) = 2%nat.
Proof.
  assert (Hpos : Server.Primary.possible_all (fst (Server.Primary.start 2))
                   [Server.Primary.WorkerExit 1 (Some 1) None]).
  { cbn [Server.Primary.possible_all Server.Primary.possible]. split; [| exact I].
    apply (bool_decide_unpack _). vm_compute. exact I. }
  assert (Hrun : Server.Primary.running
                   (fst (Server.Primary.handle_all (fst (Server.Primary.start 2))
                           [Server.Primary.WorkerExit 1 (Some 1) None])) = true)
    by reflexivity.
  split; [exact Hpos |]. split; [exact Hrun |].
  destruct (exited_worker_is_replaced_by_one 2 [Server.Primary.WorkerExit 1 (Some 1) None] Hpos)
    as (_ & Hsize & _).
  exact (Hsize Hrun).
Defined.

(** Two workers; worker 1 crashes and is replaced by worker 3; on SIGTERM
    workers 2 and 3 are signalled and the primary exits; worker 2 then
    exits and nothing more happens. *)
Example supervisor_trace :
  snd (Server.Primary.start 2) = [Server.Primary.Fork 1; Server.Primary.Fork 2] ∧
  snd (Server.Primary.handle_all (fst (Server.Primary.start 2)) Figures.crash_then_stop)
  = [Server.Primary.Fork 3;
     Server.Primary.Kill 2 "SIGTERM"; Server.Primary.Kill 3 "SIGTERM";
     Server.Primary.Exit 0] ∧
  elements (Server.Primary.workers
              (fst (Server.Primary.handle_all (fst (Server.Primary.start 2))
                      Figures.crash_then_stop)))
  = [3%N].
Proof. repeat split; vm_compute; reflexivity. Qed.

(** A duration that is no number ([--duration soon]) gives a deadline
    that is no number: no loop issues a request, and the run has none. *)
Example no_request_without_a_deadline (url : string) (concurrency rps : xnum)
    (startTime : Z) (iterations : list (Z * LoadTest.fate)) :
  let c := {| LoadTest.TARGET_URL := url; LoadTest.DURATION_SECONDS := NaN;
              LoadTest.CONCURRENCY := concurrency; LoadTest.TARGET_RPS := rps |} in
  LoadTest.endTime c startTime = NaN ∧
  LoadTest.worker (LoadTest.endTime c startTime) iterations LoadTest.initial_metrics
  = (Resolved tt, LoadTest.run []).
Proof.
  split; [reflexivity |]. destruct iterations as [| [now f] rest]; reflexivity.
Qed.

End Witnesses.

(** * The concrete figures, in double precision

    The same programs evaluated with IEEE 754 doubles: the figures of the
    specification come out as with exact numbers. *)

Section Doubles.
Import JS LoadTest.

Lemma doubles_percentiles :
  calculatePercentile (num := spec_float) Figures.samples (num_of_Z 50) = Num (num_of_Z 30) ∧
  calculatePercentile (num := spec_float) Figures.samples (num_of_Z 95) = Num (num_of_Z 50).
Proof. split; vm_compute; reflexivity. Qed.

(** At other percentiles rounding can move the rank: 7/100 * 100 is a
    little more than 7 in doubles, so the 7th percentile of 100 samples is
    the 8th sample rather than the 7th. *)
Remark doubles_rank_rounding :
  ranks_agree 7 100 = false ∧
  calculatePercentile (num := spec_float) (Figures.ramp 100) (num_of_Z 7) = Num (num_of_Z 7) ∧
  calculatePercentile (num := Exact.xnum) (Figures.ramp 100) (num_of_Z 7) = Num (num_of_Z 6).
Proof. repeat split; vm_compute; reflexivity. Qed.

Lemma doubles_success_rate_check :
  successRate (run (num := spec_float) Figures.ninety_nine_of_100) = num_of_Z 99 ∧
  passed <$> checks (run (num := spec_float) Figures.ninety_nine_of_100)
               (num_of_Z 1) (num_of_Z 2)
    = [false; true; true; true] ∧
  runLoadTest (num := spec_float) Figures.ninety_nine_of_100 = Return 1%N ∧
  passed <$> checks (Figures.counted (num := spec_float) 9901 10000) (num_of_Z 0) (num_of_Z 0)
    = [true; true; true; true] ∧
  report (Figures.counted (num := spec_float) 9901 10000) = Return 0%N.
Proof. repeat split; vm_compute; reflexivity. Qed.

Lemma doubles_run_without_requests :
  successRate (run (num := spec_float) []) = S754_nan ∧
  passed <$> checks (run (num := spec_float) []) (num_of_Z 0) (num_of_Z 0)
    = [false; true; true; true] ∧
  runLoadTest (num := spec_float) [] = Return 1%N.
Proof. repeat split; vm_compute; reflexivity. Qed.

(** In doubles 201 / 200 is a little less than 1.005, and prints as
    1.00; the exact quotient is a tie and prints as 1.01. *)
Remark doubles_health_rounding :
  JS.toFixed (num := spec_float) Figures.unprinted 2
    (num_div (num_of_Z 201) (num_of_Z 200)) = "1.00" ∧
  JS.toFixed (num := Exact.xnum) Figures.unprinted 2
    (num_div (num_of_Z 201) (num_of_Z 200)) = "1.01".
Proof. split; vm_compute; reflexivity. Qed.

(** Three responses after 0.1, 0.2 and 0.3 ms: in doubles their sum is a
    little more than 0.6. *)
Remark doubles_total_latency :
  totalLatency
    (run (num := spec_float)
       [ResponseEnd 200 0 100000; ResponseEnd 200 0 200000; ResponseEnd 200 0 300000])
  ≠ num_div (num_of_Z 6) (num_of_Z 10) ∧
  totalLatency
    (run (num := Exact.xnum)
       [ResponseEnd 200 0 100000; ResponseEnd 200 0 200000; ResponseEnd 200 0 300000])
  = num_div (num_of_Z 6) (num_of_Z 10).
Proof. split; vm_compute; [discriminate | reflexivity]. Qed.

Lemma doubles_health :
  Server.Worker.field "avg_response_time_ms"
    (fst (Server.Worker.handler (num := spec_float) Figures.unprinted Figures.page_text
            Figures.stored 4242 Figures.health_request Figures.clock Figures.busy))
  = Some (Server.Worker.JString "12.33").
Proof. vm_compute. reflexivity. Qed.

End Doubles.

(** * More of the load generator: the command line and the accumulator *)

Section Accumulator.
Import JS LoadTest.
Context {num : Type} `{!Number num}.

Lemma indexOf_absent (args : list string) (x : string) :
  x ∉ args → indexOf args x = -1.
Proof.
  induction args as [| a args IH]; intros Hx; cbn [indexOf]; [reflexivity |].
  apply not_elem_of_cons in Hx as [Hne Hx].
  destruct (String.eqb_spec a x) as [-> | _]; [congruence |].
  rewrite (IH Hx). reflexivity.
Qed.

Lemma indexOf_first (before rest : list string) (x : string) :
  x ∉ before → indexOf (before ++ x :: rest) x = Z.of_nat (length before).
Proof.
  induction before as [| a before IH]; intros Hx; cbn [indexOf app length].
  - rewrite String.eqb_refl. reflexivity.
  - apply not_elem_of_cons in Hx as [Hne Hx].
    destruct (String.eqb_spec a x) as [-> | _]; [congruence |].
    rewrite (IH Hx). destruct (Z.eqb_spec (Z.of_nat (length before)) (-1)); lia.
Qed.

(** X1: [getArg] yields the default when the flag is not among the
    arguments; otherwise it yields the argument after the first occurrence
    of the flag, whatever that argument is, and [undefined] when the flag
    is the last argument. *)
Theorem getArg_reads_the_argument_after_the_flag :
  (∀ (args : list string) (name defaultValue : string),
      "--" +:+ name ∉ args → getArg args name defaultValue = Some defaultValue) ∧
  (∀ (before rest : list string) (name defaultValue : string),
      "--" +:+ name ∉ before →
      getArg (before ++ ("--" +:+ name) :: rest) name defaultValue = head rest).
Proof.
  split.
  - intros args name defaultValue Habsent. unfold getArg.
    rewrite (indexOf_absent _ _ Habsent). reflexivity.
  - intros before rest name defaultValue Habsent. unfold getArg.
    rewrite (indexOf_first _ _ _ Habsent).
    destruct (Z.eqb_spec (Z.of_nat (length before)) (-1)) as [Hm | _]; [lia |].
    cbn [negb]. replace (Z.to_nat (Z.of_nat (length before) + 1)) with (S (length before)) by lia.
    rewrite lookup_app_r by lia.
    replace (S (length before) - length before)%nat with 1%nat by lia.
    destruct rest; reflexivity.
Qed.

Lemma fold_record_counts (outcomes : list outcome) (m : metrics num) :
  let m' := fold_left record outcomes m in
  totalRequests m' = (totalRequests m + N.of_nat (length outcomes))%N ∧
  successfulRequests m'
  = (successfulRequests m + N.of_nat (length (filter succeeded outcomes)))%N ∧
  (failedRequests m' + N.of_nat (length (filter succeeded outcomes))
   = failedRequests m + N.of_nat (length outcomes))%N.
Proof.
  revert m. induction outcomes as [| o outcomes IH]; intros m; cbn [fold_left].
  - cbn. lia.
  - specialize (IH (record m o)). cbv zeta in IH. destruct IH as (Ht & Hs & Hf).
    rewrite filter_cons. cbn [length].
    assert (Hstep : totalRequests (record m o) = (totalRequests m + 1)%N ∧
                    successfulRequests (record m o)
                    = (successfulRequests m + if succeeded o then 1 else 0)%N ∧
                    (failedRequests (record m o) + (if succeeded o then 1 else 0)
                     = failedRequests m + 1)%N).
    { destruct o as [statusCode t0 t1 | err |]; cbn; [| lia | lia].
      destruct ((200 <=? statusCode)%N && (statusCode <? 400)%N); lia. }
    destruct Hstep as (Ht1 & Hs1 & Hf1).
    destruct (succeeded o); [rewrite decide_True by exact I | rewrite decide_False by auto];
      cbn [length]; lia.
Qed.

Lemma callbacks_count (fates : list fate) :
  (length (fates ≫= callbacks) + length (filter cut_short fates)
   = length fates + length (filter timed_out fates))%nat.
Proof.
  induction fates as [| f fates IH]; [reflexivity |].
  rewrite bind_cons, length_app, !filter_cons.
  destruct f as [statusCode t0 t1 | err | | |]; cbn [callbacks cut_short timed_out length];
    repeat (first [rewrite decide_True by exact I | rewrite decide_False by auto]);
    cbn [length]; lia.
Qed.

(** X2: the accumulator counts the callbacks that fired, each once:
    [totalRequests] is their number, [successfulRequests] the number of
    ended responses with a status code in [200, 400), and
    [failedRequests] the number of all other callbacks.  It does not count
    the requests: in whatever order the callbacks of the requests fired,
    a request that timed out before a response had come is counted twice
    and a request whose response was cut short is not counted. *)
Theorem run_counts_every_callback_once :
  (∀ outcomes : list outcome,
      let m := run (num := num) outcomes in
      totalRequests m = N.of_nat (length outcomes) ∧
      successfulRequests m = N.of_nat (length (filter succeeded outcomes)) ∧
      failedRequests m = N.of_nat (length (filter (λ o, ¬ succeeded o) outcomes))) ∧
  (∀ (fates : list fate) (outcomes : list outcome),
      outcomes ≡ₚ fates ≫= callbacks →
      (totalRequests (run (num := num) outcomes) + N.of_nat (length (filter cut_short fates))
       = N.of_nat (length fates) + N.of_nat (length (filter timed_out fates)))%N).
Proof.
  assert (Hcounts : ∀ outcomes : list outcome,
             let m := run (num := num) outcomes in
             totalRequests m = N.of_nat (length outcomes) ∧
             successfulRequests m = N.of_nat (length (filter succeeded outcomes)) ∧
             failedRequests m = N.of_nat (length (filter (λ o, ¬ succeeded o) outcomes))).
  { intros outcomes m.
    destruct (fold_record_counts outcomes (initial_metrics (num := num))) as (Ht & Hs & Hf).
    fold (run (num := num) outcomes) in Ht, Hs, Hf. fold m in Ht, Hs, Hf. cbn in Ht, Hs, Hf.
    split; [lia |]. split; [lia |].
    assert (Hsplit : (length (filter succeeded outcomes)
                      + length (filter (λ o, ¬ succeeded o) outcomes) = length outcomes)%nat).
    { clear. induction outcomes as [| o outcomes IH]; [reflexivity |].
      rewrite !filter_cons.
      destruct (succeeded o); [rewrite decide_True by exact I; rewrite decide_False by auto
                              | rewrite decide_False by auto; rewrite decide_True by auto];
        cbn [length]; lia. }
    lia. }
  split; [exact Hcounts |].
  intros fates outcomes Hfired.
  destruct (Hcounts outcomes) as [Htotal _]. rewrite Htotal.
  rewrite (Permutation_length Hfired).
  pose proof (callbacks_count fates). lia.
Qed.

Lemma occurrences_cons {A} `{EqDecision A} (x : A) (y : option A) (l : list (option A)) :
  occurrences x (y :: l) = ((if decide (y = Some x) then 1 else 0) + occurrences x l)%N.
Proof.
  unfold occurrences. rewrite filter_cons.
  destruct (decide (y = Some x)); cbn [length]; lia.
Qed.

Lemma counted_up_bump (key k : string) (counts : gmap string N) (more : N) :
  inherited k = false →
  counted_up (bump key counts !! k) more
  = counted_up (counts !! k) ((if decide (key = k) then 1 else 0) + more).
Proof.
  intros Hown. unfold counted_up. destruct (decide (key = k)) as [-> | Hne].
  - rewrite bump_lookup by exact Hown. destruct (N.eqb_spec more 0) as [-> | Hm].
    + destruct (N.eqb_spec (1 + 0) 0); [lia |]. f_equal; lia.
    + destruct (N.eqb_spec (1 + more) 0); [lia |]. cbn [default from_option id].
      f_equal; lia.
  - rewrite bump_lookup_ne by exact Hne. reflexivity.
Qed.

End Accumulator.

Section Dictionaries.
Import JS LoadTest.
Context {num : Type} `{!Number num}.

Lemma decimal_inj (a b : N) : decimal a = decimal b → a = b.
Proof.
  intros Hab. pose proof (digits_value_decimal a) as Ha.
  rewrite Hab, digits_value_decimal in Ha. congruence.
Qed.

(** A dictionary that [record] bumps under the key [key_of o], when there
    is one, holds the number of occurrences of every key that is no
    inherited name, and nothing new under an inherited name. *)
Lemma fold_record_bumps (dictionary : metrics num → gmap string N)
    (key_of : outcome → option string) :
  (∀ (m : metrics num) (o : outcome),
      dictionary (record m o)
      = match key_of o with
        | Some key => bump key (dictionary m)
        | None => dictionary m
        end) →
  ∀ (outcomes : list outcome) (m : metrics num) (k : string),
    dictionary (fold_left record outcomes m) !! k
    = if inherited k then dictionary m !! k
      else counted_up (dictionary m !! k) (occurrences k (key_of <$> outcomes)).
Proof.
  intros Hstep outcomes. induction outcomes as [| o outcomes IH]; intros m k.
  - destruct (inherited k); reflexivity.
  - cbn [fold_left]. rewrite IH, Hstep, fmap_cons, occurrences_cons.
    destruct (inherited k) eqn:Hk.
    + destruct (key_of o) as [key |]; [| reflexivity].
      destruct (decide (key = k)) as [-> | Hne].
      * rewrite bump_inherited by exact Hk. reflexivity.
      * apply bump_lookup_ne, Hne.
    + destruct (key_of o) as [key |].
      * rewrite counted_up_bump by exact Hk.
        destruct (decide (key = k)) as [-> | Hne].
        -- rewrite decide_True by reflexivity. reflexivity.
        -- rewrite decide_False by congruence. reflexivity.
      * rewrite decide_False by discriminate. reflexivity.
Qed.

Lemma occurrences_fmap_inj (f : N → string) (sc : N) (l : list (option N)) :
  (∀ a b, f a = f b → a = b) →
  occurrences (f sc) ((λ y : option N, f <$> y) <$> l) = occurrences sc l.
Proof.
  intros Hinj. induction l as [| y l IH]; [reflexivity |].
  rewrite fmap_cons, !occurrences_cons, IH.
  destruct y as [a |]; cbn [fmap option_fmap option_map].
  - destruct (decide (a = sc)) as [-> | Hne].
    + rewrite !decide_True by reflexivity. reflexivity.
    + rewrite !decide_False; [reflexivity | congruence |].
      intros Heq. injection Heq as Heq. apply Hinj in Heq. congruence.
  - rewrite !decide_False by discriminate. reflexivity.
Qed.

(** X3: after a run [statusCodes] holds, under the decimal digits of
    each status code received, the number of responses with that code, and
    nothing under any other key: there is no entry for a code that never
    came, and none for requests that ended without a response. *)
Theorem statusCodes_counts_the_responses_by_code :
  ∀ outcomes : list outcome,
    (∀ statusCode : N,
        statusCodes (run (num := num) outcomes) !! decimal statusCode
        = counter (occurrences statusCode (status <$> outcomes))) ∧
    (∀ k : string,
        (∀ o : outcome, o ∈ outcomes → status o ≠ None → decimal <$> status o ≠ Some k) →
        statusCodes (run (num := num) outcomes) !! k = None).
Proof.
  intros outcomes.
  assert (Hstep : ∀ (m : metrics num) (o : outcome),
             statusCodes (record m o)
             = match decimal <$> status o with
               | Some key => bump key (statusCodes m)
               | None => statusCodes m
               end) by (intros m [statusCode t0 t1 | err |]; reflexivity).
  pose proof (fold_record_bumps statusCodes (λ o, decimal <$> status o) Hstep outcomes
                initial_metrics) as Hrun.
  fold (run (num := num) outcomes) in Hrun. split.
  - intros statusCode. rewrite Hrun, decimal_own. unfold counter. f_equal.
    rewrite <- (occurrences_fmap_inj decimal statusCode (status <$> outcomes) decimal_inj).
    rewrite <- list_fmap_compose. reflexivity.
  - intros k Hk. rewrite Hrun. destruct (inherited k); [reflexivity |].
    assert (Hzero : occurrences k ((λ o, decimal <$> status o) <$> outcomes) = 0%N).
    { clear Hrun. induction outcomes as [| o outcomes IH]; [reflexivity |].
      rewrite fmap_cons, occurrences_cons, IH.
      - destruct (decide (decimal <$> status o = Some k)) as [Heq | _]; [| reflexivity].
        exfalso. apply (Hk o); [left | | exact Heq].
        destruct (status o); [discriminate | discriminate Heq].
      - intros o' Ho'. apply Hk. right. exact Ho'. }
    rewrite Hzero. reflexivity.
Qed.

Lemma occurrences_Permutation {A} `{EqDecision A} (x : A) (l l' : list (option A)) :
  l ≡ₚ l' → occurrences x l = occurrences x l'.
Proof.
  intros Hperm. unfold occurrences. f_equal. apply Permutation_length.
  apply filter_Permutation, Hperm.
Qed.

Lemma occurrences_app {A} `{EqDecision A} (x : A) (l l' : list (option A)) :
  occurrences x (l ++ l') = (occurrences x l + occurrences x l')%N.
Proof. unfold occurrences. rewrite filter_app, length_app. lia. Qed.

(** The error kinds of the callbacks of some requests. *)
Lemma occurrences_callbacks (fates : list fate) (k : string) :
  occurrences k (kind <$> (fates ≫= callbacks))
  = ((if decide (k = "TIMEOUT") then N.of_nat (length (filter timed_out fates)) else 0)
     + (if decide (k = "ECONNRESET") then N.of_nat (length (filter timed_out fates)) else 0)
     + occurrences k (failure_kind <$> fates))%N.
Proof.
  induction fates as [| f fates IH].
  - cbn. destruct (decide (k = "TIMEOUT")), (decide (k = "ECONNRESET")); reflexivity.
  - rewrite bind_cons, fmap_app, occurrences_app, IH, fmap_cons, occurrences_cons, filter_cons.
    assert (Hnil : occurrences k [] = 0%N) by reflexivity.
    destruct f as [statusCode t0 t1 | err | | |];
      cbn [callbacks fmap list_fmap kind timed_out failure_kind];
      change (errorType socket_hang_up) with "ECONNRESET";
      rewrite ?occurrences_cons, ?Hnil;
      repeat case_decide; cbn [length];
      repeat match goal with
             | H : Is_true false |- _ => destruct H
             | H : ¬ Is_true true |- _ => destruct (H I)
             | H : Some _ = Some _ |- _ => injection H as H
             | H : ¬ (Some ?a = Some ?b) |- _ =>
                 assert (a ≠ b) by (intros Heq; apply H; f_equal; exact Heq); clear H
             end;
      try discriminate; try congruence; try lia.
Qed.

(** X4: after a run [errors] holds, under every error kind that is no
    inherited name, the number of [error] callbacks of that kind (the code
    of the error, or its message when the code is missing or empty) or,
    under ["TIMEOUT"], of [timeout] callbacks; the callbacks of responses
    leave no entry, whatever the status codes.  In whatever order the
    callbacks of the requests fired, a request that timed out before a
    response had come is filed twice: under ["TIMEOUT"] and, as a
    destroyed request, under ["ECONNRESET"] beside the requests that
    really met a reset. *)
Theorem errors_counts_the_failed_callbacks_by_kind :
  (∀ (outcomes : list outcome) (k : string),
      (inherited k = false →
       errors (run (num := num) outcomes) !! k = counter (occurrences k (kind <$> outcomes))) ∧
      (inherited k = true → errors (run (num := num) outcomes) !! k = None) ∧
      ((∀ o : outcome, o ∈ outcomes → kind o = None) →
       errors (run (num := num) outcomes) = ∅)) ∧
  (∀ (fates : list fate) (outcomes : list outcome),
      outcomes ≡ₚ fates ≫= callbacks →
      let timeouts := N.of_nat (length (filter timed_out fates)) in
      errors (run (num := num) outcomes) !! "TIMEOUT"
      = counter (timeouts + occurrences "TIMEOUT" (failure_kind <$> fates)) ∧
      errors (run (num := num) outcomes) !! "ECONNRESET"
      = counter (timeouts + occurrences "ECONNRESET" (failure_kind <$> fates))).
Proof.
  assert (Hstep : ∀ (m : metrics num) (o : outcome),
             errors (record m o)
             = match kind o with
               | Some key => bump key (errors m)
               | None => errors m
               end) by (intros m [statusCode t0 t1 | err |]; reflexivity).
  assert (Hrun : ∀ (outcomes : list outcome) (k : string),
             errors (run (num := num) outcomes) !! k
             = if inherited k then None else counter (occurrences k (kind <$> outcomes))).
  { intros outcomes k.
    pose proof (fold_record_bumps errors kind Hstep outcomes initial_metrics k) as Hk.
    exact Hk. }
  split.
  - intros outcomes k. split; [| split].
    + intros Hown. rewrite Hrun, Hown. reflexivity.
    + intros Hin. rewrite Hrun, Hin. reflexivity.
    + intros Hnone. apply map_eq. intros k'. rewrite Hrun, lookup_empty.
      destruct (inherited k'); [reflexivity |].
      assert (Hzero : occurrences k' (kind <$> outcomes) = 0%N).
      { induction outcomes as [| o outcomes IH]; [reflexivity |].
        rewrite fmap_cons, occurrences_cons, IH.
        - rewrite (Hnone o) by left. rewrite decide_False by discriminate. reflexivity.
        - intros o' Ho'. apply Hnone. right. exact Ho'. }
      rewrite Hzero. reflexivity.
  - intros fates outcomes Hfired timeouts.
    assert (Hkinds : ∀ k : string,
               occurrences k (kind <$> outcomes)
               = occurrences k (kind <$> (fates ≫= callbacks))).
    { intros k. apply occurrences_Permutation, fmap_Permutation, Hfired. }
    rewrite !Hrun, !Hkinds, !occurrences_callbacks.
    cbn [inherited existsb Object_prototype String.eqb Ascii.eqb Bool.eqb orb andb].
    rewrite (decide_True (P := "TIMEOUT" = "TIMEOUT")) by reflexivity.
    rewrite (decide_False (P := "TIMEOUT" = "ECONNRESET")) by discriminate.
    rewrite (decide_False (P := "ECONNRESET" = "TIMEOUT")) by discriminate.
    rewrite (decide_True (P := "ECONNRESET" = "ECONNRESET")) by reflexivity.
    fold timeouts. split; f_equal; lia.
Qed.

Lemma fold_record_latencies (outcomes : list outcome) (m : metrics num) :
  latencies (fold_left record outcomes m) = latencies m ++ omap latencyMs outcomes.
Proof.
  revert m. induction outcomes as [| o outcomes IH]; intros m; cbn [fold_left].
  - rewrite app_nil_r. reflexivity.
  - rewrite IH. destruct o as [statusCode t0 t1 | err |]; cbn.
    + rewrite <- app_assoc. reflexivity.
    + reflexivity.
    + reflexivity.
Qed.

(** X5: the latency samples of a run are the latencies of its responses,
    in the order in which the responses ended: one sample per response,
    whatever its status code, and none for a transport error or a
    timeout. *)
Theorem latencies_are_the_samples_of_the_responses :
  ∀ outcomes : list outcome,
    latencies (run (num := num) outcomes) = omap latencyMs outcomes ∧
    length (latencies (run (num := num) outcomes))
    = length (filter (λ o, status o ≠ None) outcomes) ∧
    (N.of_nat (length (latencies (run (num := num) outcomes)))
     ≤ totalRequests (run (num := num) outcomes))%N.
Proof.
  intros outcomes.
  assert (Hl : latencies (run (num := num) outcomes) = omap latencyMs outcomes).
  { unfold run. rewrite fold_record_latencies. reflexivity. }
  assert (Hlen : length (omap (latencyMs (num := num)) outcomes)
                 = length (filter (λ o, status o ≠ None) outcomes)).
  { clear. induction outcomes as [| o outcomes IH]; [reflexivity |].
    rewrite filter_cons. destruct o as [statusCode t0 t1 | err |]; cbn [status].
    - rewrite decide_True by discriminate.
      change (S (length (omap (latencyMs (num := num)) outcomes))
              = S (length (filter (λ o, status o ≠ None) outcomes))).
      f_equal. exact IH.
    - rewrite decide_False by auto. exact IH.
    - rewrite decide_False by auto. exact IH. }
  split; [exact Hl |]. rewrite Hl, Hlen. split; [reflexivity |].
  destruct (fold_record_counts outcomes (initial_metrics (num := num))) as (Ht & _).
  fold (run (num := num) outcomes) in Ht. rewrite Ht. cbn [totalRequests initial_metrics].
  pose proof (length_filter (λ o : outcome, status o ≠ None) outcomes). lia.
Qed.

End Dictionaries.

(** * More of the load generator: the average latency *)

Section Averages.
Import JS LoadTest.
Context {num : Type} `{!Number num}.

Lemma fold_record_totalLatency (outcomes : list outcome) (m : metrics num) :
  totalLatency (fold_left record outcomes m)
  = fold_left num_add (omap latencyMs outcomes) (totalLatency m).
Proof.
  revert m. induction outcomes as [| o outcomes IH]; intros m; [reflexivity |].
  cbn [fold_left]. rewrite IH. destruct o as [statusCode t0 t1 | err |]; reflexivity.
Qed.

Lemma length_omap_le {A B} (f : A → option B) (l : list A) :
  (length (omap f l) ≤ length l)%nat.
Proof.
  induction l as [| a l IH]; [reflexivity |].
  change (omap f (a :: l)) with (match f a with Some y => y :: omap f l | None => omap f l end).
  destruct (f a); cbn [length]; lia.
Qed.

(** X6: [totalLatency] is the sum of the latency samples, added up from
    0 in the order in which the responses ended, and the average that is
    printed divides it by the number of all callbacks that fired, with or
    without a sample, not by the number of samples; it is 0 when none
    fired.  This holds whatever the arithmetic of the numbers is, so for
    the doubles of the program the sum is the rounded sum. *)
Theorem average_latency_divides_by_all_callbacks :
  ∀ outcomes : list outcome,
    let samples := omap latencyMs outcomes in
    let total := fold_left num_add samples (num_of_Z 0) in
    totalLatency (run (num := num) outcomes) = total ∧
    (length samples ≤ length outcomes)%nat ∧
    (outcomes = [] → avgLatency (run (num := num) outcomes) = num_of_Z 0) ∧
    (outcomes ≠ [] →
     avgLatency (run (num := num) outcomes)
     = num_div total (num_of_Z (Z.of_nat (length outcomes)))).
Proof.
  intros outcomes samples total.
  assert (Htotal : totalLatency (run (num := num) outcomes) = total)
    by apply fold_record_totalLatency.
  split; [exact Htotal |]. split; [apply length_omap_le |].
  split; [intros ->; reflexivity |].
  intros Hne. unfold avgLatency. rewrite Htotal.
  destruct (fold_record_counts outcomes (initial_metrics (num := num))) as (Ht & _).
  fold (run (num := num) outcomes) in Ht. cbn [totalRequests initial_metrics] in Ht.
  assert (Hlen : (0 < length outcomes)%nat) by (destruct outcomes; [congruence | cbn; lia]).
  rewrite Ht. destruct (N.ltb_spec 0 (0 + N.of_nat (length outcomes))) as [_ | Hle]; [| lia].
  unfold num_of_N. do 2 f_equal. lia.
Qed.

End Averages.

(** * More of the load generator: the statistics, in exact numbers *)

Section ExactStatistics.
Import JS LoadTest Exact.

Lemma latencyMs_exact (o : outcome) :
  latencyMs (num := xnum) o = Fin <$> (Qred <$> sample o).
Proof. destruct o; reflexivity. Qed.

Lemma Qsum_snoc (l : list Q) (x : Q) : (Qsum (l ++ [x]) == Qsum l + x)%Q.
Proof.
  induction l as [| y l IH]; cbn [Qsum foldr app].
  - ring.
  - fold (Qsum (l ++ [x])). fold (Qsum l). rewrite IH. ring.
Qed.

Lemma omap_snoc {A B} (f : A → option B) (l : list A) (x : A) :
  omap f (l ++ [x]) = omap f l ++ match f x with Some y => [y] | None => [] end.
Proof.
  induction l as [| a l IH]; cbn [app].
  - cbn. destruct (f x); reflexivity.
  - change (omap f (a :: l ++ [x]))
      with (match f a with Some y => y :: omap f (l ++ [x]) | None => omap f (l ++ [x]) end).
    change (omap f (a :: l))
      with (match f a with Some y => y :: omap f l | None => omap f l end).
    rewrite IH. destruct (f a); reflexivity.
Qed.

(** What the accumulator holds about the latencies, in terms of the
    samples of the run. *)
Lemma run_statistics (outcomes : list outcome) :
  let samples := omap sample outcomes in
  (∃ total : Q, totalLatency (run (num := xnum) outcomes) = Fin total ∧
                (total == Qsum samples)%Q) ∧
  (∃ highest : Q, maxLatency (run (num := xnum) outcomes) = Fin highest ∧
                  (0 <= highest)%Q ∧
                  (∀ x, x ∈ samples → (x <= highest)%Q) ∧
                  ((highest == 0)%Q ∨ ∃ x, x ∈ samples ∧ (highest == x)%Q)) ∧
  (samples = [] → minLatency (run (num := xnum) outcomes) = PosInf) ∧
  (samples ≠ [] →
   ∃ lowest : Q, minLatency (run (num := xnum) outcomes) = Fin lowest ∧
                 (∀ x, x ∈ samples → (lowest <= x)%Q) ∧
                 (∃ x, x ∈ samples ∧ (lowest == x)%Q)).
Proof.
  induction outcomes as [| o outcomes IH] using rev_ind.
  - cbn. split; [exists 0%Q; split; reflexivity |].
    split; [| split; [reflexivity | congruence]].
    exists 0%Q. split; [reflexivity |]. split; [apply Qle_refl |].
    split; [intros x Hx; inversion Hx | left; reflexivity].
  - cbv zeta in *. rewrite run_snoc, omap_snoc.
    destruct IH as ((total & Htotal & Hsum) & (highest & Hmax & Hpos & Hupper & Hattained)
                    & Hnone & Hsome).
    destruct o as [statusCode t0 t1 | err |];
      cbn [sample record on_end on_error on_timeout failed_with
           totalLatency maxLatency minLatency];
      try (rewrite app_nil_r; split; [exists total; split; assumption |];
           split; [exists highest; repeat split; assumption |];
           split; assumption).
    set (d := (inject_Z (t1 - t0) / inject_Z 1000000)%Q).
    change (num_div (num_of_Z (t1 - t0)) (num_of_Z 1000000)) with (Fin (Qred d)).
    assert (Hd : (Qred d == d)%Q) by apply Qred_correct.
    split; [| split; [| split]].
    + rewrite Htotal. exists (Qred (total + Qred d)). split; [reflexivity |].
      rewrite Qsum_snoc, !Qred_correct, Hsum. reflexivity.
    + rewrite Hmax. cbn [Math_max exact max lt].
      destruct (Qlt_bool highest (Qred d)) eqn:E.
      * apply Qlt_bool_iff in E.
        exists (Qred d). split; [reflexivity |].
        split; [apply Qle_trans with highest; [exact Hpos | apply Qlt_le_weak, E] |].
        split.
        -- intros x Hx. apply elem_of_app in Hx as [Hx | Hx].
           ++ apply Qle_trans with highest; [apply Hupper, Hx | apply Qlt_le_weak, E].
           ++ apply list_elem_of_singleton in Hx. subst x. rewrite Hd. apply Qle_refl.
        -- right. exists d. split; [apply elem_of_app; right; left | exact Hd].
      * apply Qlt_bool_false_iff in E.
        exists highest. split; [reflexivity |]. split; [exact Hpos |]. split.
        -- intros x Hx. apply elem_of_app in Hx as [Hx | Hx]; [apply Hupper, Hx |].
           apply list_elem_of_singleton in Hx. subst x. rewrite <- Hd. exact E.
        -- destruct Hattained as [Hz | (x & Hx & Hxe)]; [left; exact Hz |].
           right. exists x. split; [apply elem_of_app; left; exact Hx | exact Hxe].
    + intros Hnil. destruct (omap sample outcomes); discriminate Hnil.
    + intros _. destruct (omap sample outcomes) as [| y ys] eqn:Hs.
      * rewrite (Hnone eq_refl). cbn [Math_min exact min lt].
        exists (Qred d). split; [reflexivity |]. split.
        -- intros x Hx. apply list_elem_of_singleton in Hx. subst x.
           rewrite Hd. apply Qle_refl.
        -- exists d. split; [left | exact Hd].
      * destruct Hsome as (lowest & Hmin & Hlower & (x0 & Hx0 & Hx0e)); [discriminate |].
        rewrite Hmin. cbn [Math_min exact min lt].
        destruct (Qlt_bool (Qred d) lowest) eqn:E.
        -- apply Qlt_bool_iff in E.
           exists (Qred d). split; [reflexivity |]. split.
           ++ intros x Hx. apply elem_of_app in Hx as [Hx | Hx].
              ** apply Qle_trans with lowest; [apply Qlt_le_weak, E | apply Hlower, Hx].
              ** apply list_elem_of_singleton in Hx. subst x. rewrite Hd. apply Qle_refl.
           ++ exists d. split; [apply elem_of_app; right; left | exact Hd].
        -- apply Qlt_bool_false_iff in E.
           exists lowest. split; [reflexivity |]. split.
           ++ intros x Hx. apply elem_of_app in Hx as [Hx | Hx]; [apply Hlower, Hx |].
              apply list_elem_of_singleton in Hx. subst x. rewrite <- Hd. exact E.
           ++ exists x0. split; [apply elem_of_app; left; exact Hx0 | exact Hx0e].
Qed.

(** X7: [maxLatency] is the largest sample, or 0 when there is none or
    none above 0; [minLatency] is the smallest sample, and stays
    [Infinity] for a run in which no request got a response. *)
Theorem min_and_max_latency_are_the_extreme_samples :
  ∀ outcomes : list outcome,
    let samples := omap sample outcomes in
    (∃ highest : Q, maxLatency (run (num := xnum) outcomes) = Fin highest ∧
                    (0 <= highest)%Q ∧
                    (∀ x, x ∈ samples → (x <= highest)%Q) ∧
                    ((highest == 0)%Q ∨ ∃ x, x ∈ samples ∧ (highest == x)%Q)) ∧
    (samples = [] → minLatency (run (num := xnum) outcomes) = PosInf) ∧
    (samples ≠ [] →
     ∃ lowest : Q, minLatency (run (num := xnum) outcomes) = Fin lowest ∧
                   (∀ x, x ∈ samples → (lowest <= x)%Q) ∧
                   (∃ x, x ∈ samples ∧ (lowest == x)%Q)).
Proof.
  intros outcomes samples.
  destruct (run_statistics outcomes) as (_ & Hmax & Hnone & Hsome).
  split; [exact Hmax |]. split; [exact Hnone | exact Hsome].
Qed.

End ExactStatistics.

(** * More of the load generator: the percentiles *)

Section ExactPercentiles.
Import JS LoadTest Exact.

Lemma sorted_lookup_le (l : list Q) (i j : nat) (x y : Q) :
  StronglySorted Qle l → l !! i = Some x → l !! j = Some y → (i ≤ j)%nat → (x <= y)%Q.
Proof.
  intros Hsorted. revert i j x y.
  induction Hsorted as [| a l Hsorted IH Hall]; intros i j x y Hi Hj Hij.
  - rewrite lookup_nil in Hi. discriminate.
  - destruct i as [| i], j as [| j]; cbn in Hi, Hj.
    + injection Hi as <-. injection Hj as <-. apply Qle_refl.
    + injection Hi as <-. rewrite Forall_forall in Hall. apply Hall.
      apply (list_elem_of_lookup_2 l j). exact Hj.
    + lia.
    + apply (IH i j); [assumption | assumption | lia].
Qed.

Lemma rank_monotone (p p' : Q) (n : nat) : (p <= p')%Q → rank p n ≤ rank p' n.
Proof.
  intros Hp. unfold rank. apply Qceiling_resp_le.
  apply Qmult_le_compat_r.
  - apply Qmult_le_compat_r; [exact Hp |]. apply Qlt_le_weak, Qinv_lt_0_compat. reflexivity.
  - change 0%Q with (inject_Z 0). rewrite <- Zle_Qle. lia.
Qed.

(** The percentile of an accumulator with finite samples: the element of
    the sorted samples at the nearest rank. *)
Lemma percentile_of_sorted (m : metrics xnum) (samples sorted : list Q) (p : Z) :
  latencies m = Fin <$> samples → Array_sort (Fin <$> samples) = Fin <$> sorted →
  Permutation samples sorted → samples ≠ [] → p ≤ 100 →
  ∃ x : Q,
    sorted !! Z.to_nat (Z.max 0 (rank (inject_Z p) (length samples) - 1)) = Some x ∧
    x ∈ samples ∧
    percentile_of m p = Num (Fin x).
Proof.
  intros Hm Heq Hperm Hne Hp.
  assert (Hlen : length sorted = length samples) by (symmetry; apply Permutation_length, Hperm).
  assert (Hne' : Fin <$> sorted ≠ []).
  { destruct sorted; [| discriminate]. destruct samples; [congruence | discriminate Hlen]. }
  assert (Hp' : (inject_Z p <= inject_Z 100)%Q) by (rewrite <- Zle_Qle; exact Hp).
  destruct (calculatePercentile_in_range (Fin <$> sorted) (inject_Z p) Hne' Hp')
    as (x' & Hcalc & Hlookup).
  rewrite length_fmap, Hlen, list_lookup_fmap in Hlookup.
  destruct (sorted !! Z.to_nat (Z.max 0 (rank (inject_Z p) (length samples) - 1)))
    as [x |] eqn:Hx; [| discriminate Hlookup].
  injection Hlookup as <-.
  exists x. split; [reflexivity |]. split.
  - rewrite Hperm. apply (list_elem_of_lookup_2 _ _ _ Hx).
  - unfold percentile_of. rewrite Hm, Heq. exact Hcalc.
Qed.

Lemma strongly_sorted (l : list Q) : Sorted Qle l → StronglySorted Qle l.
Proof. apply Sorted_StronglySorted. intros a b c. apply Qle_trans. Qed.

(** X8: each percentile of the report (the 50th, 95th and 99th) is a
    nearest-rank percentile of the samples, in the doubles of the engine
    and in whatever order the samples arrived: it is one of the samples,
    at least [p] percent of the samples are at most as large, and fewer
    than [p] percent are smaller.  The samples are latencies, zeros or
    positive doubles, and there are fewer than 2^32 of them, as in every
    array. *)
Theorem percentile_separates_the_samples :
  ∀ (m : metrics spec_float) (p : Z),
    p = 50 ∨ p = 95 ∨ p = 99 →
    latencies m ≠ [] → Z.of_nat (length (latencies m)) < 2 ^ 32 →
    Forall (λ x, latency_double x = true) (latencies m) →
    ∃ x : spec_float,
      percentile_of m p = Num x ∧
      x ∈ latencies m ∧
      p * Z.of_nat (length (latencies m)) ≤ 100 * Z.of_nat (at_most_double x (latencies m)) ∧
      100 * Z.of_nat (below_double x (latencies m)) < p * Z.of_nat (length (latencies m)).
Proof. exact percentile_of_double. Qed.

(** X9: the percentiles of one accumulator increase with [p]: for
    [p <= p' <= 100] the [p]-th percentile is at most the [p']-th, so
    P50 <= P95 <= P99. *)
Theorem percentiles_increase_with_p :
  ∀ (m : metrics xnum) (samples : list Q) (p p' : Z),
    latencies m = Fin <$> samples → p ≤ p' → p' ≤ 100 →
    ∃ x x' : Q,
      percentile_of m p = Num (Fin x) ∧ percentile_of m p' = Num (Fin x') ∧ (x <= x')%Q.
Proof.
  intros m samples p p' Hm Hpp Hp'.
  destruct samples as [| s samples].
  - exists (inject_Z 0), (inject_Z 0). unfold percentile_of. rewrite Hm.
    split; [reflexivity |]. split; [reflexivity | apply Qle_refl].
  - destruct (Array_sort_exact (s :: samples)) as (sorted & Heq & Hperm & Hsorted).
    destruct (percentile_of_sorted m _ sorted p Hm Heq Hperm) as (x & Hx & _ & Hcalc);
      [discriminate | lia |].
    destruct (percentile_of_sorted m _ sorted p' Hm Heq Hperm) as (x' & Hx' & _ & Hcalc');
      [discriminate | lia |].
    exists x, x'. split; [exact Hcalc |]. split; [exact Hcalc' |].
    apply (sorted_lookup_le sorted _ _ x x' (strongly_sorted sorted Hsorted) Hx Hx').
    assert (Hrank : rank (inject_Z p) (length (s :: samples))
                    ≤ rank (inject_Z p') (length (s :: samples))).
    { apply rank_monotone. rewrite <- Zle_Qle. exact Hpp. }
    lia.
Qed.

Lemma latencies_run_exact (outcomes : list outcome) :
  latencies (run (num := xnum) outcomes) = Fin <$> (Qred <$> omap sample outcomes).
Proof.
  unfold run. rewrite fold_record_latencies. cbn [latencies initial_metrics app].
  induction outcomes as [| o outcomes IH]; [reflexivity |].
  change (omap latencyMs (o :: outcomes))
    with (match latencyMs (num := xnum) o with
          | Some y => y :: omap latencyMs outcomes
          | None => omap latencyMs outcomes
          end).
  change (omap sample (o :: outcomes))
    with (match sample o with
          | Some y => y :: omap sample outcomes
          | None => omap sample outcomes
          end).
  rewrite latencyMs_exact, IH. destruct (sample o); reflexivity.
Qed.

(** X10: in the results of a run with at least one response, every
    percentile up to the 100th lies between the minimum and the maximum
    latency that are printed beside it. *)
Theorem percentiles_lie_between_min_and_max :
  ∀ (outcomes : list outcome) (p : Z),
    omap sample outcomes ≠ [] → p ≤ 100 →
    ∃ lowest x highest : Q,
      minLatency (run (num := xnum) outcomes) = Fin lowest ∧
      percentile_of (run (num := xnum) outcomes) p = Num (Fin x) ∧
      maxLatency (run (num := xnum) outcomes) = Fin highest ∧
      (lowest <= x)%Q ∧ (x <= highest)%Q.
Proof.
  intros outcomes p Hne Hp.
  destruct (run_statistics outcomes) as (_ & (highest & Hmax & _ & Hupper & _) & _ & Hsome).
  destruct (Hsome Hne) as (lowest & Hmin & Hlower & _).
  assert (Hne' : Qred <$> omap sample outcomes ≠ []).
  { destruct (omap sample outcomes); [congruence | discriminate]. }
  destruct (Array_sort_exact (Qred <$> omap sample outcomes)) as (sorted & Heq & Hperm & _).
  destruct (percentile_of_sorted _ _ sorted p (latencies_run_exact outcomes) Heq Hperm Hne' Hp)
    as (x & _ & Hin & Hcalc).
  apply list_elem_of_fmap in Hin as (s & -> & Hs).
  exists lowest, (Qred s), highest.
  split; [exact Hmin |]. split; [exact Hcalc |]. split; [exact Hmax |].
  rewrite Qred_correct. split; [apply Hlower, Hs | apply Hupper, Hs].
Qed.

End ExactPercentiles.

(** * More of the load generator: the loops, the pause and the verdict *)

Section ExactVerdict.
Import JS LoadTest Exact.

Lemma lt_monotone (a b : Z) (deadline : xnum) :
  a ≤ b → num_lt (num_of_Z b) deadline = true → num_lt (num_of_Z a) deadline = true.
Proof.
  intros Hab. destruct deadline as [d | | |]; cbn; try (intros; assumption).
  rewrite !Qlt_bool_iff. intros Hb.
  apply Qle_lt_trans with (inject_Z b); [rewrite <- Zle_Qle; exact Hab | exact Hb].
Qed.

Lemma worker_app (deadline : xnum) (before rest : list (Z * fate)) (m : metrics xnum) :
  Forall (λ it, num_lt (num_of_Z (fst it)) deadline = true ∧ snd it ≠ Cut) before →
  worker deadline (before ++ rest) m
  = worker deadline rest (fold_left record ((snd <$> before) ≫= callbacks) m).
Proof.
  intros Hbefore. revert m.
  induction Hbefore as [| [now f] before [Hlt Hf] _ IH]; intros m; [reflexivity |].
  cbn [fst snd] in Hlt, Hf.
  cbn [app worker]. rewrite Hlt, (makeRequest_resolves f m Hf), IH.
  rewrite fmap_cons, bind_cons, fold_left_app. reflexivity.
Qed.

Lemma filter_early (deadline : xnum) (iterations : list (Z * fate)) :
  Sorted Z.le (fst <$> iterations) →
  ∃ late : list (Z * fate),
    iterations
    = filter (λ it, num_lt (num_of_Z (fst it)) deadline) iterations ++ late ∧
    Forall (λ it, num_lt (num_of_Z (fst it)) deadline = false) late.
Proof.
  induction iterations as [| [now f] rest IH]; intros Hsorted.
  - exists []. split; [reflexivity | apply Forall_nil; exact I].
  - rewrite fmap_cons in Hsorted.
    apply Sorted_StronglySorted in Hsorted; [| intros a b c; apply Z.le_trans].
    apply StronglySorted_inv in Hsorted as [Hrest Hall].
    rewrite filter_cons. cbn [fst].
    destruct (num_lt (num_of_Z now) deadline) eqn:E.
    + rewrite decide_True by exact I.
      destruct (IH (StronglySorted_Sorted Hrest)) as (late & Hsplit & Hlate).
      exists late. split; [cbn [app]; f_equal; exact Hsplit | exact Hlate].
    + rewrite decide_False by auto.
      assert (Hnone : Forall (λ it : Z * fate, num_lt (num_of_Z (fst it)) deadline = false)
                        rest).
      { clear IH Hrest. induction rest as [| [now' f'] rest IH]; [apply Forall_nil; exact I |].
        rewrite fmap_cons in Hall. apply Forall_cons in Hall as [Hle Hall].
        apply Forall_cons. cbn [fst] in *. split; [| apply IH, Hall].
        destruct (num_lt (num_of_Z now') deadline) eqn:E'; [| reflexivity].
        rewrite (lt_monotone now now' deadline Hle E') in E. discriminate. }
      exists ((now, f) :: rest). split.
      * assert (Hempty : filter (λ it : Z * fate, num_lt (num_of_Z (fst it)) deadline) rest
                         = []).
        { clear -Hnone. induction Hnone as [| [now' f'] rest Hlate _ IH]; [reflexivity |].
          rewrite filter_cons. cbn [fst] in *. rewrite Hlate.
          rewrite decide_False by auto. exact IH. }
        rewrite Hempty. reflexivity.
      * apply Forall_cons. split; [exact E | exact Hnone].
Qed.

(** X11: an issuing loop records every callback of the requests it
    issues, stops for good at the first loop test that does not read a
    clock before the deadline, and hangs at the first request whose
    response is cut short, with nothing recorded for it.  With a clock
    that never goes back and no response cut short, it has issued exactly
    the requests of the loop tests before the deadline when it ends.  No
    deadline (NaN) means no request. *)
Theorem worker_issues_until_the_deadline :
  (∀ (deadline : xnum) (before after : list (Z * fate)) (now : Z) (f : fate)
      (m : metrics xnum),
      Forall (λ it, num_lt (num_of_Z (fst it)) deadline = true ∧ snd it ≠ Cut) before →
      num_lt (num_of_Z now) deadline = false →
      worker deadline (before ++ (now, f) :: after) m
      = (Resolved tt, fold_left record ((snd <$> before) ≫= callbacks) m)) ∧
  (∀ (deadline : xnum) (before after : list (Z * fate)) (now : Z) (m : metrics xnum),
      Forall (λ it, num_lt (num_of_Z (fst it)) deadline = true ∧ snd it ≠ Cut) before →
      num_lt (num_of_Z now) deadline = true →
      worker deadline (before ++ (now, Cut) :: after) m
      = (Pending, fold_left record ((snd <$> before) ≫= callbacks) m)) ∧
  (∀ (deadline : xnum) (iterations : list (Z * fate)) (m : metrics xnum),
      Sorted Z.le (fst <$> iterations) →
      Forall (λ it, snd it ≠ Cut) iterations →
      worker deadline iterations m
      = (Resolved tt,
         fold_left record
           ((snd <$> filter (λ it, num_lt (num_of_Z (fst it)) deadline) iterations)
            ≫= callbacks) m)) ∧
  (∀ (iterations : list (Z * fate)) (m : metrics xnum),
      worker NaN iterations m = (Resolved tt, m)).
Proof.
  split; [| split; [| split]].
  - intros deadline before after now f m Hbefore Hnow.
    rewrite (worker_app deadline before _ m Hbefore). cbn [worker]. rewrite Hnow. reflexivity.
  - intros deadline before after now m Hbefore Hnow.
    rewrite (worker_app deadline before _ m Hbefore). cbn [worker]. rewrite Hnow. reflexivity.
  - intros deadline iterations m Hsorted Hwhole.
    destruct (filter_early deadline iterations Hsorted) as (late & Hsplit & Hlate).
    set (early := filter (λ it, num_lt (num_of_Z (fst it)) deadline) iterations) in *.
    assert (Hearly : Forall (λ it, num_lt (num_of_Z (fst it)) deadline = true ∧ snd it ≠ Cut)
                       early).
    { apply Forall_forall. intros it Hit. apply list_elem_of_filter in Hit as [Hlt Hin].
      split; [apply Is_true_true_1, Hlt |]. exact (proj1 (Forall_forall _ _) Hwhole it Hin). }
    rewrite Hsplit at 1. rewrite (worker_app deadline early late m Hearly).
    destruct Hlate as [| [now f] late Hnow _]; [reflexivity |].
    cbn [worker fst] in *. rewrite Hnow. reflexivity.
  - intros iterations m. destruct iterations as [| [now f] rest]; reflexivity.
Qed.

(** X12: the pause of a loop, [1000 / (TARGET_RPS / CONCURRENCY)], in
    doubles.  With the defaults, 1000 requests per second over 100 loops,
    it is 100 ms.  For a target rate of zero and a positive concurrency
    it is the infinity with the sign of that zero, so that [--rps -0]
    gives [-Infinity]; for a concurrency of zero and a finite rate other
    than zero it is a zero; when the rate or the concurrency is NaN, or
    both are zero, it is NaN.  A loop pauses only for a pause above 0: of
    these, for the 100 ms and for the positive infinity. *)
Theorem delay_of_the_special_rates :
  (delayBetweenRequests (defaults (num := spec_float)) = num_of_Z 100 ∧
   num_gt (delayBetweenRequests (defaults (num := spec_float))) (num_of_Z 0) = true) ∧
  ∀ c : config spec_float,
    (∀ (negative : bool) (m : positive) (e : Z),
        TARGET_RPS c = S754_zero negative → CONCURRENCY c = S754_finite false m e →
        delayBetweenRequests c = S754_infinity negative ∧
        num_gt (delayBetweenRequests c) (num_of_Z 0) = negb negative) ∧
    (∀ (s negative : bool) (m : positive) (e : Z),
        TARGET_RPS c = S754_finite s m e → CONCURRENCY c = S754_zero negative →
        delayBetweenRequests c = S754_zero (xorb s negative) ∧
        num_gt (delayBetweenRequests c) (num_of_Z 0) = false) ∧
    (TARGET_RPS c = S754_nan ∨ CONCURRENCY c = S754_nan ∨
     (∃ s s' : bool, TARGET_RPS c = S754_zero s ∧ CONCURRENCY c = S754_zero s') →
     delayBetweenRequests c = S754_nan ∧
     num_gt (delayBetweenRequests c) (num_of_Z 0) = false).
Proof.
  split; [split; vm_compute; reflexivity |].
  intros c. unfold delayBetweenRequests. split; [| split].
  - intros negative m e -> ->. destruct negative; split; vm_compute; reflexivity.
  - intros s negative m e -> ->. destruct s, negative; split; vm_compute; reflexivity.
  - intros [-> | [-> | (s & s' & -> & ->)]].
    + destruct (CONCURRENCY c); split; vm_compute; reflexivity.
    + destruct (TARGET_RPS c); split; vm_compute; reflexivity.
    + split; vm_compute; reflexivity.
Qed.

Lemma exit_code_is_0_or_1 (m : metrics xnum) :
  exit_code (report m) = 0%N ∨ exit_code (report m) = 1%N.
Proof.
  destruct (report_exact m) as (p50 & p95 & p99 & _ & _ & _ & Hr). rewrite Hr.
  destruct (allPassed (checks m p95 p99)); [left | right]; reflexivity.
Qed.

(** X13: one request that ends in a refused connection, a reset
    connection or a timeout makes the run fail, however many requests
    succeeded; so does a success rate of 99% or less. *)
Theorem one_connection_failure_fails_the_run :
  ∀ outcomes : list outcome,
    ((∃ o, o ∈ outcomes ∧ connection_failure o) →
     exit_code (runLoadTest (num := xnum) outcomes) = 1%N) ∧
    ((100 * length (filter succeeded outcomes) ≤ 99 * length outcomes)%nat →
     exit_code (runLoadTest (num := xnum) outcomes) = 1%N).
Proof.
  intros outcomes. unfold runLoadTest.
  pose proof (exit_code_report (run outcomes)) as Hiff.
  destruct (exit_code_is_0_or_1 (run (num := xnum) outcomes)) as [H0 | H1];
    [| split; intros _; exact H1].
  apply Hiff in H0 as (Hrate & _ & _ & Hconn). split.
  - intros (o & Ho & Hfail). exfalso.
    rewrite connectionErrors_zero in Hconn. exact (Hconn o Ho Hfail).
  - intros Hle. exfalso. apply success_check_iff in Hrate.
    destruct (fold_record_counts outcomes (initial_metrics (num := xnum))) as (Ht & Hs & _).
    fold (run (num := xnum) outcomes) in Ht, Hs. cbn [totalRequests successfulRequests
      initial_metrics] in Ht, Hs. lia.
Qed.

(** X14: a run passes when it has at least one request and every request
    got a response with a status code in [200, 400) in less than 500 ms:
    the exit code is 0. *)
Theorem run_of_fast_successes_passes :
  ∀ outcomes : list outcome,
    outcomes ≠ [] →
    (∀ o, o ∈ outcomes →
       ∃ (statusCode : N) (t0 t1 : Z),
         o = ResponseEnd statusCode t0 t1 ∧ (200 ≤ statusCode < 400)%N ∧
         t1 - t0 < 500000000) →
    exit_code (runLoadTest (num := xnum) outcomes) = 0%N.
Proof.
  intros outcomes Hne Hall. unfold runLoadTest. apply exit_code_report.
  assert (Hsucc : filter succeeded outcomes = outcomes).
  { clear Hne. induction outcomes as [| o outcomes IH]; [reflexivity |].
    rewrite filter_cons. destruct (Hall o) as (sc & t0 & t1 & -> & Hsc & _); [left |].
    cbn [succeeded].
    destruct (N.leb_spec 200 sc); [| lia]. destruct (N.ltb_spec sc 400); [| lia].
    rewrite decide_True by exact I. f_equal. apply IH.
    intros o' Ho'. apply Hall. right. exact Ho'. }
  assert (Hlen : (0 < length outcomes)%nat) by (destruct outcomes; [congruence | cbn; lia]).
  assert (Hsamples : ∀ x, x ∈ omap sample outcomes → (x < inject_Z 500)%Q).
  { intros x Hx. apply list_elem_of_omap in Hx as (o & Ho & Hs).
    destruct (Hall o Ho) as (sc & t0 & t1 & -> & _ & Hfast). cbn in Hs. injection Hs as <-.
    apply Qlt_shift_div_r; [reflexivity |].
    rewrite <- inject_Z_mult, <- Zlt_Qlt. lia. }
  assert (Hpercentile : ∀ p bound : Z, p ≤ 100 → 500 ≤ bound →
             value_lt (percentile_of (run (num := xnum) outcomes) p) (num_of_Z bound) = true).
  { intros p bound Hp Hbound.
    assert (Hne' : Qred <$> omap sample outcomes ≠ []).
    { destruct outcomes as [| o outcomes]; [congruence |].
      destruct (Hall o) as (sc & t0 & t1 & -> & _); [left | discriminate]. }
    destruct (Array_sort_exact (Qred <$> omap sample outcomes)) as (sorted & Heq & Hperm & _).
    destruct (percentile_of_sorted _ _ sorted p (latencies_run_exact outcomes) Heq Hperm Hne' Hp)
      as (x & _ & Hin & Hcalc).
    rewrite Hcalc. cbn [value_lt num_lt num_of_Z exact lt].
    apply list_elem_of_fmap in Hin as (s & -> & Hs).
    apply Qlt_bool_iff. rewrite Qred_correct.
    apply Qlt_le_trans with (inject_Z 500); [apply Hsamples, Hs |].
    rewrite <- Zle_Qle. exact Hbound. }
  split; [| split; [| split]].
  - apply success_check_iff.
    destruct (fold_record_counts outcomes (initial_metrics (num := xnum))) as (Ht & Hs & _).
    fold (run (num := xnum) outcomes) in Ht, Hs. cbn [totalRequests successfulRequests
      initial_metrics] in Ht, Hs. rewrite Hsucc in Hs. lia.
  - apply Hpercentile; lia.
  - apply Hpercentile; lia.
  - apply connectionErrors_zero. intros o Ho [Hk | [Hk | Hk]];
      destruct (Hall o Ho) as (sc & t0 & t1 & -> & _); discriminate Hk.
Qed.

End ExactVerdict.

(** * More of a worker *)

Section WorkerHistory.
Import JS Server.Worker.
Context {num : Type} `{!Number num}.
Variable Number_toString : num → string.
Variable html : string.
Variable gzipSync : list Byte.byte → list Byte.byte.
Variable pid : N.

Local Abbreviation handler := (handler Number_toString html gzipSync pid).
Local Abbreviation step := (step Number_toString html gzipSync pid).
Local Abbreviation serve := (serve Number_toString html gzipSync pid).
Local Abbreviation page := (page html gzipSync).

Lemma page_request_not_diagnostic (e : event) :
  page_request e = true → diagnostic e = false.
Proof.
  destruct e as [req t |]; cbn; [| reflexivity].
  destruct (String.eqb (url req) "/health"), (String.eqb (url req) "/metrics");
    cbn; congruence.
Qed.

Lemma step_diagnostic (m : metrics num) (e : event) :
  diagnostic e = true → step m e = m.
Proof.
  destruct e as [req t |]; cbn [diagnostic Server.Worker.step]; [| discriminate].
  intros Hd. apply orb_true_iff in Hd. apply handler_diagnostic.
  destruct Hd as [Hd | Hd]; apply String.eqb_eq in Hd; [left | right]; exact Hd.
Qed.

Lemma step_frame (m : metrics num) (e : event) :
  startTime (step m e) = startTime m ∧
  errors (step m e) = (errors m + if server_error e then 1 else 0)%N.
Proof.
  destruct e as [req t |]; cbn [Server.Worker.step server_error].
  - destruct (String.eqb_spec (url req) "/health") as [Hh | Hh].
    + rewrite handler_diagnostic by (left; exact Hh). split; [reflexivity | lia].
    + destruct (String.eqb_spec (url req) "/metrics") as [Hm | Hm].
      * rewrite handler_diagnostic by (right; exact Hm). split; [reflexivity | lia].
      * rewrite handler_page by assumption. cbn. split; [reflexivity | lia].
  - cbn. split; [reflexivity | lia].
Qed.

Lemma fold_step_frame (events : list event) (m : metrics num) :
  startTime (fold_left step events m) = startTime m ∧
  errors (fold_left step events m)
  = (errors m + N.of_nat (length (filter server_error events)))%N ∧
  fold_left step (filter (λ e, ¬ diagnostic e) events) m = fold_left step events m.
Proof.
  revert m. induction events as [| e events IH]; intros m; cbn [fold_left].
  - cbn. split; [reflexivity |]. split; [lia | reflexivity].
  - destruct (IH (step m e)) as (Hstart & Herrors & Hfilter).
    destruct (step_frame m e) as [Hs He].
    rewrite Hstart, Herrors, Hs, He, !filter_cons. split; [reflexivity |]. split.
    + destruct (server_error e); [rewrite decide_True by exact I | rewrite decide_False by auto];
        cbn [length]; lia.
    + destruct (diagnostic e) eqn:Hd.
      * rewrite decide_False by (intros Hn; apply Hn; exact I).
        rewrite (step_diagnostic m e Hd) in Hfilter |- *. exact Hfilter.
      * rewrite decide_True by auto. cbn [fold_left]. exact Hfilter.
Qed.

(** X15: a worker keeps its start time, counts in [errors] the errors
    its server reported, and is not affected by being watched: the
    requests for [/health] and [/metrics] can be taken out of its history
    without changing the accumulator it ends with. *)
Theorem watching_a_worker_does_not_change_it :
  ∀ (start : Z) (events : list event),
    startTime (serve start events) = start ∧
    errors (serve start events) = N.of_nat (length (filter server_error events)) ∧
    serve start (filter (λ e, ¬ diagnostic e) events) = serve start events.
Proof.
  intros start events. unfold Server.Worker.serve.
  destruct (fold_step_frame events (initial_metrics start)) as (Hstart & Herrors & Hfilter).
  split; [exact Hstart |]. split; [rewrite Herrors; cbn; lia | exact Hfilter].
Qed.

(** X16: every request is answered with status 200 and a body.  The
    answer to a request for the page does not depend on the path, on the
    clock or on the accumulator, only on whether the request accepts gzip,
    and both answers carry the same headers apart from the encoding and
    the length: the same [ETag], made from the length of the raw buffer. *)
Theorem page_answer_depends_only_on_the_encoding :
  (∀ (req : request) (t : readings) (m : metrics num),
      statusCode (fst (handler req t m)) = 200%N ∧ body (fst (handler req t m)) ≠ None) ∧
  (∀ (req req' : request) (t t' : readings) (m m' : metrics num),
      page_request (Request req t) = true → page_request (Request req' t') = true →
      String_includes (default "" (headers req !! "accept-encoding")) "gzip"
      = String_includes (default "" (headers req' !! "accept-encoding")) "gzip" →
      fst (handler req t m) = fst (handler req' t' m')) ∧
  (∀ (req : request) (t : readings) (m : metrics num) (name : string),
      page_request (Request req t) = true →
      name ≠ "Content-Encoding" → name ≠ "Content-Length" →
      response_headers (fst (handler req t m)) !! name
      = ({[ "Content-Type" := HString "text/html; charset=utf-8";
            "Cache-Control" := HString "public, max-age=300, stale-while-revalidate=600";
            "ETag" := HString (quote +:+ decimal (N.of_nat (length (htmlBuffer html)))
                               +:+ "-v1" +:+ quote);
            "X-Content-Type-Options" := HString "nosniff";
            "X-Frame-Options" := HString "DENY" ]} : gmap string header_value) !! name).
Proof.
  assert (Hpage : ∀ (req : request) (t : readings) (m : metrics num),
             page_request (Request req t) = true → fst (handler req t m) = page req).
  { intros req t m Hp. cbn [page_request] in Hp. apply andb_true_iff in Hp as [Hh Hm].
    apply negb_true_iff, String.eqb_neq in Hh, Hm. rewrite handler_page by assumption.
    reflexivity. }
  split; [| split].
  - intros req t m. destruct (page_request (Request req t)) eqn:Hp.
    + rewrite (Hpage req t m Hp). unfold Server.Worker.page.
      destruct (String_includes _ "gzip"); split; (reflexivity || discriminate).
    + cbn [page_request] in Hp. unfold Server.Worker.handler.
      destruct (String.eqb (url req) "/health"); [split; (reflexivity || discriminate) |].
      destruct (String.eqb (url req) "/metrics"); [split; (reflexivity || discriminate) |].
      discriminate Hp.
  - intros req req' t t' m m' Hp Hp' Hsame.
    rewrite (Hpage req t m Hp), (Hpage req' t' m' Hp'). unfold Server.Worker.page.
    rewrite Hsame. reflexivity.
  - intros req t m name Hp Hencoding Hlength. rewrite (Hpage req t m Hp).
    unfold Server.Worker.page.
    destruct (decide (name = "Content-Type")) as [-> | ?];
      [| destruct (decide (name = "Cache-Control")) as [-> | ?];
         [| destruct (decide (name = "ETag")) as [-> | ?];
            [| destruct (decide (name = "X-Content-Type-Options")) as [-> | ?];
               [| destruct (decide (name = "X-Frame-Options")) as [-> | ?]]]]];
      destruct (String_includes _ "gzip");
      cbn [response_headers end_with setHeader set_statusCode fresh_response];
      repeat (first [ rewrite lookup_insert_eq
                    | rewrite lookup_insert_ne by congruence
                    | rewrite lookup_singleton_eq
                    | rewrite lookup_singleton_ne by congruence
                    | rewrite lookup_empty ]);
      reflexivity.
Qed.

Lemma step_totalResponseTime (m : metrics num) (e : event) :
  totalResponseTime (step m e)
  = match response_time e with
    | Some time => num_add (totalResponseTime m) time
    | None => totalResponseTime m
    end.
Proof.
  unfold response_time. destruct (page_request e) eqn:Hp.
  - destruct e as [req t |]; [| discriminate Hp].
    cbn [page_request] in Hp. apply andb_true_iff in Hp as [Hh Hm].
    apply negb_true_iff, String.eqb_neq in Hh, Hm.
    cbn [Server.Worker.step]. rewrite handler_page by assumption. reflexivity.
  - destruct e as [req t |]; [| reflexivity].
    cbn [Server.Worker.step]. cbn [page_request] in Hp.
    apply andb_false_iff in Hp as [Hh | Hm].
    + apply negb_false_iff, String.eqb_eq in Hh.
      rewrite handler_diagnostic by (left; exact Hh). reflexivity.
    + apply negb_false_iff, String.eqb_eq in Hm.
      rewrite handler_diagnostic by (right; exact Hm). reflexivity.
Qed.

Lemma fold_step_statistics (events : list event) (m : metrics num) :
  totalResponseTime (fold_left step events m)
  = fold_left num_add (omap response_time events) (totalResponseTime m) ∧
  requestCount (fold_left step events m)
  = (requestCount m + N.of_nat (length (omap (response_time (num := num)) events)))%N.
Proof.
  revert m. induction events as [| e events IH]; intros m.
  - cbn. split; [reflexivity | lia].
  - cbn [fold_left]. destruct (IH (step m e)) as [Htotal Hcount].
    rewrite Htotal, Hcount, step_totalResponseTime, step_requestCount.
    change (omap response_time (e :: events))
      with (match response_time (num := num) e with
            | Some time => time :: omap response_time events
            | None => omap response_time events
            end).
    assert (Hcases : response_time (num := num) e = None ∧ page_request e = false ∨
                     ∃ time : num, response_time e = Some time ∧ page_request e = true).
    { unfold response_time. destruct (page_request e) eqn:Hp; [right | left; auto].
      destruct e as [req t |]; [eauto | discriminate Hp]. }
    destruct Hcases as [[-> ->] | (time & -> & ->)]; cbn [fold_left length];
      (split; [reflexivity | lia]).
Qed.

(** X17: the total response time of a worker is the sum of the times it
    took over the page requests of its history, each the difference of
    the two clock readings of the handler divided by a million, added up
    from 0 in the order of the requests; the diagnostic requests and the
    errors of the server add nothing.  Once a page has been served, what
    [/health] prints is that sum divided by the number of page requests,
    rounded by [toFixed(2)].  This holds whatever the arithmetic of the
    numbers is, so for the doubles of the program every sum and the
    quotient are the rounded ones. *)
Theorem total_response_time_is_the_sum_over_the_pages :
  ∀ (start : Z) (events : list event),
    let times := omap (response_time (num := num)) events in
    let total := fold_left num_add times (num_of_Z 0) in
    totalResponseTime (serve start events) = total ∧
    requestCount (serve start events) = N.of_nat (length times) ∧
    (times ≠ [] →
     ∀ (req : request) (t : readings),
       url req = "/health" →
       field "avg_response_time_ms" (fst (handler req t (serve start events)))
       = Some (JString (toFixed Number_toString 2
                          (num_div total (num_of_Z (Z.of_nat (length times))))))).
Proof.
  intros start events times total.
  destruct (fold_step_statistics events (initial_metrics start)) as [Htotal Hcount].
  fold (serve start events) in Htotal, Hcount. cbn [initial_metrics totalResponseTime
    requestCount] in Htotal, Hcount. fold times in Htotal, Hcount. fold total in Htotal.
  split; [exact Htotal |]. split; [rewrite Hcount; lia |].
  intros Hsome req t Hu.
  destruct (health_field Number_toString html gzipSync pid req t (serve start events) Hu)
    as [_ Hfield].
  rewrite Hfield. unfold Server.Worker.avgResponseTime. rewrite Hcount, Htotal.
  assert (Hlen : (0 < length times)%nat) by (destruct times; [congruence | cbn; lia]).
  destruct (N.ltb_spec 0 (0 + N.of_nat (length times))) as [_ | Hle]; [| lia].
  unfold num_of_N. do 5 f_equal. lia.
Qed.

End WorkerHistory.


(** * More of the primary *)

Section PrimaryTrace.
Import Server.Primary.

Lemma ids_from_app (first : N) (a b : nat) :
  ids_from first (a + b) = ids_from first a ++ ids_from (first + N.of_nat a) b.
Proof.
  revert first. induction a as [| a IH]; intros first.
  - cbn [ids_from Nat.add app]. rewrite N.add_0_r. reflexivity.
  - cbn [ids_from Nat.add app]. rewrite IH. do 3 f_equal. lia.
Qed.

Lemma fork_workers_trace (numCPUs : nat) (s : primary) :
  let s' := fst (fork_workers numCPUs s) in
  snd (fork_workers numCPUs s) = map Fork (ids_from (next_id s) numCPUs) ∧
  next_id s' = (next_id s + N.of_nat numCPUs)%N ∧
  ∀ id, id ∈ workers s' ↔ id ∈ workers s ∨ (next_id s ≤ id < next_id s')%N.
Proof.
  revert s. induction numCPUs as [| n IH]; intros s.
  - cbn. split; [reflexivity |]. split; [lia |]. intros id. split; [auto | intros [H | H]; [exact H | lia]].
  - cbv zeta. cbn [fork_workers]. unfold cluster_fork. cbv beta iota.
    specialize (IH {| running := running s; workers := {[next_id s]} ∪ workers s;
                      next_id := (next_id s + 1)%N |}).
    destruct (fork_workers n _) as [s2 a2] eqn:E2. cbn [fst snd workers next_id] in *.
    destruct IH as (Hact & Hnext & Hworkers).
    split; [rewrite Hact; reflexivity |]. split; [lia |].
    intros id. rewrite Hworkers, elem_of_union, elem_of_singleton.
    assert ((next_id s ≤ id < next_id s2)%N
            ↔ id = next_id s ∨ (next_id s + 1 ≤ id < next_id s2)%N) by lia.
    tauto.
Qed.

Lemma handle_all_app (a b : list event) (s : primary) :
  handle_all s (a ++ b)
  = (fst (handle_all (fst (handle_all s a)) b),
     snd (handle_all s a) ++ snd (handle_all (fst (handle_all s a)) b)).
Proof.
  revert s. induction a as [| e a IH]; intros s.
  - cbn [app handle_all fst snd]. destruct (handle_all s b); reflexivity.
  - cbn [app handle_all]. destruct (handle s e) as [s1 a1]. rewrite IH.
    destruct (handle_all s1 a) as [s2 a2]. cbn [fst snd].
    rewrite app_assoc. reflexivity.
Qed.

Lemma possible_all_app (a b : list event) (s : primary) :
  possible_all s (a ++ b) ↔ possible_all s a ∧ possible_all (fst (handle_all s a)) b.
Proof.
  revert s. induction a as [| e a IH]; intros s.
  - cbn. tauto.
  - cbn [app possible_all handle_all]. rewrite IH.
    destruct (handle s e) as [s1 a1]. cbn [fst].
    destruct (handle_all s1 a) as [s2 a2]. cbn [fst]. tauto.
Qed.

(** Once the primary has exited nothing is done any more. *)
Lemma handle_all_stopped (es : list event) (s : primary) :
  running s = false → snd (handle_all s es) = [].
Proof.
  revert s. induction es as [| e es IH]; intros s Hrun; [reflexivity |].
  cbn [handle_all]. destruct (handle s e) as [s1 a1] eqn:E1.
  assert (H1 : running s1 = false ∧ a1 = []).
  { destruct e as [id code signal |]; cbn [handle] in E1; rewrite Hrun in E1;
      injection E1 as <- <-; split; (reflexivity || exact Hrun). }
  destruct H1 as [Hrun1 ->]. specialize (IH s1 Hrun1).
  destruct (handle_all s1 es) as [s2 a2]. exact IH.
Qed.

(** The actions and the live workers of a primary that has not been told
    to stop. *)
Lemma handle_all_trace (es : list event) (s : primary) :
  fresh_ids s → running s = true → SIGTERM ∉ es → possible_all s es →
  let s' := fst (handle_all s es) in
  snd (handle_all s es) = map Fork (ids_from (next_id s) (length es)) ∧
  next_id s' = (next_id s + N.of_nat (length es))%N ∧
  running s' = true ∧
  ∀ id, id ∈ workers s'
        ↔ (id ∈ workers s ∨ (next_id s ≤ id < next_id s')%N) ∧ id ∉ exited es.
Proof.
  revert s. induction es as [| e es IH]; intros s Hfresh Hrun Hterm Hpos.
  - cbn. split; [reflexivity |]. split; [lia |]. split; [exact Hrun |].
    intros id. split.
    + intros Hin. split; [left; exact Hin | apply not_elem_of_nil].
    + intros [[Hin | Hin] _]; [exact Hin | lia].
  - apply not_elem_of_cons in Hterm as [Hne Hterm].
    destruct e as [i code signal |]; [| congruence].
    destruct Hpos as [Hi Hpos]. cbn [possible] in Hi.
    destruct (handle_exit_running s i code signal Hfresh Hrun Hi)
      as (Hact & _ & Hworkers & _ & Hrun1 & Hfresh1).
    assert (Hnext1 : next_id (fst (handle s (WorkerExit i code signal))) = (next_id s + 1)%N).
    { cbn [handle]. rewrite Hrun. reflexivity. }
    cbn [handle_all].
    destruct (handle s (WorkerExit i code signal)) as [s1 a1] eqn:E1. cbn [fst snd] in *.
    specialize (IH s1 Hfresh1 Hrun1 Hterm Hpos).
    destruct (handle_all s1 es) as [s2 a2] eqn:E2. cbn [fst snd] in *.
    destruct IH as (Hact2 & Hnext2 & Hrun2 & Hworkers2).
    subst a1. rewrite Hact2, Hnext1. cbn [length].
    split; [reflexivity |]. split; [lia |]. split; [exact Hrun2 |].
    intros id. rewrite Hworkers2, Hworkers.
    change (exited (WorkerExit i code signal :: es)) with (i :: exited es).
    rewrite not_elem_of_cons, elem_of_union, elem_of_singleton, elem_of_difference,
      elem_of_singleton.
    pose proof (Hfresh i Hi) as Hlt.
    split.
    + intros [[[-> | [Hin Hni]] | Hrange] Hex].
      * split; [right; lia |]. split; [lia | exact Hex].
      * split; [left; exact Hin |]. split; assumption.
      * split; [right; lia |]. split; [lia | exact Hex].
    + intros [[Hin | Hrange] [Hni Hex]].
      * split; [left; right; split; assumption | exact Hex].
      * split; [| exact Hex].
        destruct (decide (id = next_id s)) as [-> | Hn]; [left; left; reflexivity | right; lia].
Qed.

Lemma start_trace (numCPUs : nat) :
  let s0 := fst (start numCPUs) in
  snd (start numCPUs) = map Fork (ids_from 1 numCPUs) ∧
  next_id s0 = (1 + N.of_nat numCPUs)%N ∧
  ∀ id, id ∈ workers s0 ↔ (1 ≤ id ≤ N.of_nat numCPUs)%N.
Proof.
  unfold start.
  destruct (fork_workers_trace numCPUs {| running := true; workers := ∅; next_id := 1 |})
    as (Hact & Hnext & Hworkers). cbn [next_id workers] in *.
  split; [exact Hact |]. split; [exact Hnext |].
  intros id. rewrite Hworkers, Hnext. rewrite elem_of_empty. lia.
Qed.

Lemma running_trace (numCPUs : nat) (es : list event) :
  let s0 := fst (start numCPUs) in
  SIGTERM ∉ es → possible_all s0 es →
  let s := fst (handle_all s0 es) in
  snd (start numCPUs) ++ snd (handle_all s0 es)
  = map Fork (ids_from 1 (numCPUs + length es)) ∧
  running s = true ∧
  size (workers s) = numCPUs ∧
  ∀ id, id ∈ workers s ↔ (1 ≤ id ≤ N.of_nat (numCPUs + length es))%N ∧ id ∉ exited es.
Proof.
  intros s0 Hterm Hpos s.
  destruct (start_spec numCPUs) as (Hsize0 & _ & Hrun0 & Hfresh0).
  destruct (start_trace numCPUs) as (Hact0 & Hnext0 & Hworkers0).
  fold s0 in Hsize0, Hrun0, Hfresh0, Hnext0, Hworkers0.
  destruct (handle_all_trace es s0 Hfresh0 Hrun0 Hterm Hpos)
    as (Hact & Hnext & Hrun & Hworkers). fold s in Hnext, Hrun, Hworkers.
  destruct (handle_all_invariant es s0 numCPUs Hfresh0 Hpos (λ _, Hsize0)) as [_ Hsize].
  fold s in Hsize.
  split; [| split; [exact Hrun | split; [exact (Hsize Hrun) |]]].
  - rewrite Hact0, Hact, Hnext0, ids_from_app, map_app. reflexivity.
  - intros id. rewrite Hworkers, Hworkers0, Hnext, Hnext0.
    assert ((1 ≤ id ≤ N.of_nat numCPUs)%N
            ∨ (1 + N.of_nat numCPUs ≤ id < 1 + N.of_nat numCPUs + N.of_nat (length es))%N
            ↔ (1 ≤ id ≤ N.of_nat (numCPUs + length es))%N) by lia.
    tauto.
Qed.

(** X18: until it is told to stop, the primary does nothing but fork:
    one worker for each CPU at the start and one more for each exit of
    a worker, numbered in order from 1.  The live workers are then the
    workers forked so far that have not exited. *)
Theorem primary_forks_once_per_cpu_and_once_per_exit :
  ∀ (numCPUs : nat) (es : list event),
    let s0 := fst (start numCPUs) in
    SIGTERM ∉ es → possible_all s0 es →
    let s := fst (handle_all s0 es) in
    snd (start numCPUs) ++ snd (handle_all s0 es)
    = map Fork (ids_from 1 (numCPUs + length es)) ∧
    ∀ id : N,
      id ∈ workers s ↔ (1 ≤ id ≤ N.of_nat (numCPUs + length es))%N ∧ id ∉ exited es.
Proof.
  intros numCPUs es s0 Hterm Hpos s.
  destruct (running_trace numCPUs es Hterm Hpos) as (Hact & _ & _ & Hworkers).
  split; [exact Hact | exact Hworkers].
Qed.

(** X19: the whole of what the primary does when SIGTERM arrives after
    some exits of workers: after its forks it signals each live worker
    once with SIGTERM, in ascending order of the ids (as many workers as
    there are CPUs, none of which had exited), and exits with code 0;
    whatever happens afterwards, it does nothing more. *)
Theorem primary_stops_by_signalling_each_live_worker_once :
  ∀ (numCPUs : nat) (es later : list event),
    let s0 := fst (start numCPUs) in
    SIGTERM ∉ es → possible_all s0 (es ++ SIGTERM :: later) →
    ∃ ids : list N,
      snd (start numCPUs) ++ snd (handle_all s0 (es ++ SIGTERM :: later))
      = map Fork (ids_from 1 (numCPUs + length es))
        ++ map (λ id, Kill id "SIGTERM") ids ++ [Exit 0] ∧
      NoDup ids ∧ length ids = numCPUs ∧
      (∀ id : N,
          id ∈ ids ↔ (1 ≤ id ≤ N.of_nat (numCPUs + length es))%N ∧ id ∉ exited es) ∧
      Sorted N.le ids.
Proof.
  intros numCPUs es later s0 Hterm Hpos.
  apply possible_all_app in Hpos as [Hpos _].
  destruct (running_trace numCPUs es Hterm Hpos) as (Hact & Hrun & Hsize & Hworkers).
  fold s0 in Hact, Hrun, Hsize, Hworkers.
  set (s := fst (handle_all s0 es)) in *.
  assert (Hperm : ascending (workers s) ≡ₚ elements (workers s))
    by apply merge_sort_Permutation.
  exists (ascending (workers s)).
  split; [| split; [rewrite Hperm; apply NoDup_elements | split; [| split]]].
  - rewrite handle_all_app. cbn [snd]. fold s. rewrite app_assoc, Hact. f_equal.
    cbn [handle_all].
    destruct (handle_SIGTERM s Hrun) as (Hkill & _ & _ & Hstop).
    destruct (handle s SIGTERM) as [s1 a1] eqn:E1. cbn [fst snd] in *.
    pose proof (handle_all_stopped later s1 Hstop) as Hnothing.
    destruct (handle_all s1 later) as [s2 a2]. cbn [snd] in *.
    subst a1 a2. rewrite app_nil_r. reflexivity.
  - rewrite Hperm. exact Hsize.
  - intros id. rewrite Hperm, elem_of_elements. apply Hworkers.
  - apply Sorted_merge_sort. intros x y. unfold strict. lia.
Qed.

End PrimaryTrace.

(** * The theme script *)

Section ThemeScript.
Import JS Theme.
Variable JSON_parse : string → completion value.
Variable JSON_stringify : value → string.

Local Abbreviation getThemePreference := (getThemePreference JSON_parse).
Local Abbreviation getCurrentTheme := (getCurrentTheme JSON_parse).
Local Abbreviation initTheme := (initTheme JSON_parse).
Local Abbreviation toggleTheme := (toggleTheme JSON_stringify).
Local Abbreviation tick := (tick JSON_parse).
Local Abbreviation load := (load JSON_parse).
Local Abbreviation step := (step JSON_parse JSON_stringify).
Local Abbreviation run := (run JSON_parse JSON_stringify).
Local Abbreviation reads_back := (reads_back JSON_parse JSON_stringify).

Lemma isChristmas_spec (now : date) :
  isChristmas now = true ↔ getMonth now = 11 ∧ getDate now = 25.
Proof. unfold isChristmas. rewrite andb_true_iff, !Z.eqb_eq. reflexivity. Qed.

Lemma isDaytime_spec (now : date) :
  isDaytime now = true ↔ 6 ≤ getHours now < 18.
Proof.
  unfold isDaytime, DAY_START, DAY_END. cbv zeta.
  rewrite andb_true_iff, Z.leb_le, Z.ltb_lt. reflexivity.
Qed.

Lemma applyTheme_consistent (theme : value) (b : browser) :
  consistent (applyTheme theme b).
Proof.
  unfold applyTheme. destruct b as [stored attribute [text |] button];
    (destruct (is_string theme "christmas"); [| destruct (is_string theme "day")]);
    eexists; (split; [cbn; first [right; reflexivity | left; reflexivity] |]);
    cbn; auto.
Qed.

Lemma applyTheme_frame (theme : value) (b : browser) :
  localStorage (applyTheme theme b) = localStorage b ∧
  toggle_button (applyTheme theme b) = toggle_button b.
Proof.
  unfold applyTheme.
  destruct (is_string theme "christmas"); [| destruct (is_string theme "day")];
    split; reflexivity.
Qed.

Lemma toggleTheme_spec (b : browser) :
  ∃ newTheme : string,
    toggleTheme b
    = setItem (JSON_stringify (preference (VString "manual") (VString newTheme)))
              (applyTheme (VString newTheme) b) ∧
    (newTheme = "night" ∧ data_theme b = Some "day" ∨
     newTheme = "day" ∧ data_theme b ≠ Some "day").
Proof.
  unfold Theme.toggleTheme, saveThemePreference. cbv zeta.
  destruct (data_theme b) as [v |].
  - destruct (String.eqb_spec v "day") as [-> | Hv].
    + exists "night". split; [reflexivity | left; split; reflexivity].
    + exists "day". split; [reflexivity | right; split; [reflexivity | congruence]].
  - exists "day". split; [reflexivity | right; split; [reflexivity | congruence]].
Qed.

Lemma toggleTheme_consistent (b : browser) : consistent (toggleTheme b).
Proof.
  destruct (toggleTheme_spec b) as (newTheme & -> & _).
  destruct (applyTheme_consistent (VString newTheme) b) as (text & Hlabel & Htheme).
  exists text. split; [exact Hlabel | exact Htheme].
Qed.

Lemma step_consistent (p : page) (e : event) :
  consistent (dom p) → consistent (dom (step p e)).
Proof.
  intros Hp. destruct e as [| | d1 d2]; cbn [Theme.step].
  - destruct (awaits_DOMContentLoaded p && toggle_button (dom p)); exact Hp.
  - destruct (listens_to_click p); [apply toggleTheme_consistent | exact Hp].
  - destruct (interval_set p); [| exact Hp].
    unfold Theme.tick.
    destruct (getThemePreference (dom p)) as [pref | err]; cbn [bind]; [| exact Hp].
    destruct (get pref "mode") as [mode | err]; cbn [bind]; [| exact Hp].
    destruct (is_string mode "auto"); cbn [dom]; [apply applyTheme_consistent | exact Hp].
Qed.

(** X20: a visitor without a stored preference sees the theme of the
    clock, when the page loads and at every tick of the interval: the
    Christmas theme on the 25th of December, otherwise the day theme from
    6 to 18 o'clock and the night theme (no attribute) at other hours.
    Nothing is stored. *)
Theorem theme_follows_the_clock_without_a_preference :
  ∀ (b : browser) (christmas_reading daytime_reading : date),
    localStorage b = None ∨ localStorage b = Some "" →
    ∃ b' : browser,
      initTheme b christmas_reading daytime_reading = Return b' ∧
      tick b christmas_reading daytime_reading = Return b' ∧
      localStorage b' = localStorage b ∧
      let christmas := getMonth christmas_reading = 11 ∧ getDate christmas_reading = 25 in
      let daytime := 6 ≤ getHours daytime_reading < 18 in
      (christmas → data_theme b' = Some "christmas") ∧
      (¬ christmas → daytime → data_theme b' = Some "day") ∧
      (¬ christmas → ¬ daytime → data_theme b' = None).
Proof.
  intros b d1 d2 Hstored.
  assert (Hpref : getThemePreference b = Return (preference (VString "auto") VNull)).
  { unfold Theme.getThemePreference. destruct Hstored as [-> | ->]; reflexivity. }
  unfold Theme.initTheme, Theme.getCurrentTheme, Theme.tick. rewrite Hpref.
  cbn [bind get preference property String.eqb Ascii.eqb Bool.eqb is_string andb].
  pose proof (isChristmas_spec d1) as Hc. pose proof (isDaytime_spec d2) as Hd.
  destruct (isChristmas d1); [| destruct (isDaytime d2)]; cbn [bind];
    eexists; (split; [reflexivity |]); (split; [reflexivity |]);
    (split; [apply applyTheme_frame |]); cbv zeta;
    (split; [| split]); intros; try reflexivity; exfalso; intuition congruence.
Qed.

(** X21: a click on the toggle shows the day theme unless the day theme
    is shown, in which case it shows the night theme (so a click on
    Christmas shows the day theme), and stores the choice.  If the
    browser reads back what it stored, the choice holds against the
    clock: no tick changes the page, and a later load with this storage
    shows the chosen theme, on Christmas too. *)
Theorem manual_choice_holds_against_the_clock :
  ∀ b : browser,
    reads_back "day" → reads_back "night" →
    let chosen := toggleTheme b in
    (data_theme b = Some "day" → data_theme chosen = None) ∧
    (data_theme b ≠ Some "day" → data_theme chosen = Some "day") ∧
    ∀ christmas_reading daytime_reading : date,
      tick chosen christmas_reading daytime_reading = Return chosen ∧
      ∀ fresh : browser,
        localStorage fresh = localStorage chosen →
        ∃ b' : browser,
          initTheme fresh christmas_reading daytime_reading = Return b' ∧
          data_theme b' = data_theme chosen ∧
          localStorage b' = localStorage chosen.
Proof.
  intros b [Hday_text Hday] [Hnight_text Hnight] chosen.
  destruct (toggleTheme_spec b) as (newTheme & Hchosen & Hnew). fold chosen in Hchosen.
  assert (Hshown : data_theme chosen = (if String.eqb newTheme "day" then Some "day" else None)).
  { rewrite Hchosen. destruct Hnew as [[-> _] | [-> _]]; reflexivity. }
  assert (Hpref : ∀ fresh : browser,
             localStorage fresh = localStorage chosen →
             getThemePreference fresh
             = Return (preference (VString "manual") (VString newTheme))).
  { intros fresh Hsame. unfold Theme.getThemePreference. rewrite Hsame, Hchosen.
    cbn [localStorage setItem].
    destruct Hnew as [[-> _] | [-> _]].
    - apply String.eqb_neq in Hnight_text. rewrite Hnight_text. exact Hnight.
    - apply String.eqb_neq in Hday_text. rewrite Hday_text. exact Hday. }
  split; [| split].
  - intros Hd. rewrite Hshown. destruct Hnew as [[-> _] | [_ Hn]]; [reflexivity | contradiction].
  - intros Hd. rewrite Hshown. destruct Hnew as [[_ Hn] | [-> _]]; [contradiction | reflexivity].
  - intros d1 d2. split.
    + unfold Theme.tick. rewrite (Hpref chosen eq_refl). reflexivity.
    + intros fresh Hsame.
      unfold Theme.initTheme, Theme.getCurrentTheme. rewrite (Hpref fresh Hsame).
      cbn [bind get preference property String.eqb Ascii.eqb Bool.eqb is_string andb].
      eexists. split; [reflexivity |]. split.
      * rewrite Hshown. destruct Hnew as [[-> _] | [-> _]]; reflexivity.
      * rewrite <- Hsame. apply applyTheme_frame.
Qed.

(** X22: the theme and the label of the toggle go together, whatever
    happens to the page: after the script has loaded and handled any
    clicks and ticks, the root element has the Christmas theme and the
    label reads [Merry Christmas!], or it has the day theme and the label
    reads [Switch to Night], or it has no theme and the label reads
    [Switch to Day]. *)
Theorem theme_and_label_go_together :
  ∀ (b : browser) (christmas_reading daytime_reading : date) (events : list event),
    consistent b →
    consistent (dom (run (load b christmas_reading daytime_reading) events)).
Proof.
  intros b d1 d2 events Hb.
  assert (Hload : consistent (dom (load b d1 d2))).
  { unfold Theme.load, Theme.initTheme.
    destruct (Theme.getCurrentTheme JSON_parse b d1 d2) as [theme | err]; cbn [bind dom].
    - apply applyTheme_consistent.
    - exact Hb. }
  unfold Theme.run. revert Hload. generalize (load b d1 d2).
  induction events as [| e events IH]; intros p Hp; [exact Hp |].
  cbn [fold_left]. apply IH, step_consistent, Hp.
Qed.

(** X23: a stored preference that [JSON.parse] rejects, or that is the
    JSON [null], stops the script when the page loads: the page stays as
    it arrived, and neither a click on the toggle nor the passing of time
    changes it. *)
Theorem unreadable_preference_stops_the_script :
  ∀ (b : browser) (stored : string) (christmas_reading daytime_reading : date)
    (events : list event),
    localStorage b = Some stored → stored ≠ "" →
    (JSON_parse stored = Return VNull ∨ ∃ err, JSON_parse stored = Throw err) →
    dom (run (load b christmas_reading daytime_reading) events) = b.
Proof.
  intros b stored d1 d2 events Hstored Hnonempty Hparse.
  assert (Hload : load b d1 d2
                  = {| dom := b; awaits_DOMContentLoaded := false;
                       listens_to_click := false; interval_set := false |}).
  { unfold Theme.load, Theme.initTheme, Theme.getCurrentTheme, Theme.getThemePreference.
    rewrite Hstored. apply String.eqb_neq in Hnonempty. rewrite Hnonempty.
    destruct Hparse as [-> | [err ->]]; reflexivity. }
  rewrite Hload. unfold Theme.run.
  induction events as [| e events IH]; [reflexivity |].
  cbn [fold_left]. destruct e as [| | c d]; exact IH.
Qed.

End ThemeScript.

(** * More concrete figures *)

Section MoreWitnesses.
Import JS Exact.

Lemma getArg_witness :
  ("--" +:+ "duration" ∉ ["--url"; "http://localhost:8080"; "--rps"]) ∧
  LoadTest.getArg ["--url"; "http://localhost:8080"; "--rps"] "duration" "60" = Some "60" ∧
  LoadTest.getArg ["--url"; "http://localhost:8080"; "--rps"] "url" "http://localhost:3000"
  = Some "http://localhost:8080" ∧
  LoadTest.getArg ["--url"; "http://localhost:8080"; "--rps"] "rps" "1000" = None.
Proof.
  assert (Habsent : "--" +:+ "duration" ∉ ["--url"; "http://localhost:8080"; "--rps"]).
  { apply (bool_decide_eq_false_1 _). vm_compute. reflexivity. }
  split; [exact Habsent |].
  split; [exact (proj1 getArg_reads_the_argument_after_the_flag _ _ _ Habsent) |].
  split; reflexivity.
Defined.

Lemma statusCodes_witness :
  (∀ o : LoadTest.outcome, o ∈ Figures.three → status o ≠ None →
     decimal <$> status o ≠ Some "404") ∧
  LoadTest.statusCodes (LoadTest.run (num := xnum) Figures.three) !! "404" = None ∧
  LoadTest.statusCodes (LoadTest.run (num := xnum) Figures.three) !! "503" = Some 1%N.
Proof.
  assert (Hnever : ∀ o : LoadTest.outcome, o ∈ Figures.three → status o ≠ None →
                     decimal <$> status o ≠ Some "404").
  { intros o Ho _. unfold Figures.three in Ho.
    repeat (apply elem_of_cons in Ho as [-> | Ho]; [vm_compute; discriminate |]).
    apply elem_of_nil in Ho. destruct Ho. }
  split; [exact Hnever |].
  split; [exact (proj2 (statusCodes_counts_the_responses_by_code (num := xnum) Figures.three)
                   "404" Hnever) |].
  reflexivity.
Defined.

Lemma errors_witness :
  (∀ o : LoadTest.outcome, o ∈ three_pages → kind o = None) ∧
  LoadTest.errors (LoadTest.run (num := xnum) three_pages) = ∅ ∧
  ([LoadTest.RequestTimeout; LoadTest.ResponseEnd 200 0 1500000;
    LoadTest.RequestError LoadTest.socket_hang_up]
   ≡ₚ [LoadTest.Responded 200 0 1500000; LoadTest.TimedOut] ≫= LoadTest.callbacks) ∧
  LoadTest.errors
    (LoadTest.run (num := xnum)
       [LoadTest.RequestTimeout; LoadTest.ResponseEnd 200 0 1500000;
        LoadTest.RequestError LoadTest.socket_hang_up]) !! "ECONNRESET"
  = Some 1%N.
Proof.
  assert (Hnone : ∀ o : LoadTest.outcome, o ∈ three_pages → kind o = None).
  { intros o Ho. unfold three_pages in Ho.
    repeat (apply elem_of_cons in Ho as [-> | Ho]; [reflexivity |]).
    apply elem_of_nil in Ho. destruct Ho. }
  assert (Hfired : [LoadTest.RequestTimeout; LoadTest.ResponseEnd 200 0 1500000;
                    LoadTest.RequestError LoadTest.socket_hang_up]
                   ≡ₚ [LoadTest.Responded 200 0 1500000; LoadTest.TimedOut]
                      ≫= LoadTest.callbacks).
  { cbn. apply perm_swap. }
  split; [exact Hnone |].
  split; [exact (proj2 (proj2 (proj1 (errors_counts_the_failed_callbacks_by_kind (num := xnum))
                                 three_pages "TIMEOUT")) Hnone) |].
  split; [exact Hfired |].
  exact (proj2 (proj2 (errors_counts_the_failed_callbacks_by_kind (num := xnum))
                  [LoadTest.Responded 200 0 1500000; LoadTest.TimedOut] _ Hfired)).
Defined.

Lemma callbacks_counted_witness :
  ([LoadTest.RequestTimeout; LoadTest.ResponseEnd 200 0 1500000;
    LoadTest.RequestError LoadTest.socket_hang_up]
   ≡ₚ [LoadTest.Responded 200 0 1500000; LoadTest.TimedOut; LoadTest.Cut]
      ≫= LoadTest.callbacks) ∧
  (LoadTest.totalRequests
     (LoadTest.run (num := xnum)
        [LoadTest.RequestTimeout; LoadTest.ResponseEnd 200 0 1500000;
         LoadTest.RequestError LoadTest.socket_hang_up]) + 1 = 3 + 1)%N.
Proof.
  assert (Hfired : [LoadTest.RequestTimeout; LoadTest.ResponseEnd 200 0 1500000;
                    LoadTest.RequestError LoadTest.socket_hang_up]
                   ≡ₚ [LoadTest.Responded 200 0 1500000; LoadTest.TimedOut; LoadTest.Cut]
                      ≫= LoadTest.callbacks).
  { cbn. apply perm_swap. }
  split; [exact Hfired |].
  exact (proj2 (run_counts_every_callback_once (num := xnum))
           [LoadTest.Responded 200 0 1500000; LoadTest.TimedOut; LoadTest.Cut] _ Hfired).
Defined.

Lemma average_latency_witness :
  Figures.three ≠ [] ∧
  LoadTest.avgLatency (LoadTest.run (num := spec_float) Figures.three)
  = num_div (num_add (num_add (num_of_Z 0) (num_div (num_of_Z 1500000) (num_of_Z 1000000)))
                     (num_div (num_of_Z 2000000) (num_of_Z 1000000)))
            (num_of_Z 3).
Proof.
  assert (Hne : Figures.three ≠ []) by discriminate.
  split; [exact Hne |].
  exact (proj2 (proj2 (proj2 (average_latency_divides_by_all_callbacks (num := spec_float)
                                Figures.three))) Hne).
Defined.

Lemma extreme_latencies_witness :
  omap sample Figures.three ≠ [] ∧
  ∃ lowest : Q,
    LoadTest.minLatency (LoadTest.run (num := xnum) Figures.three) = Fin lowest ∧
    (∀ x, x ∈ omap sample Figures.three → (lowest <= x)%Q) ∧
    (∃ x, x ∈ omap sample Figures.three ∧ (lowest == x)%Q).
Proof.
  assert (Hne : omap sample Figures.three ≠ []) by discriminate.
  split; [exact Hne |].
  exact (proj2 (proj2 (min_and_max_latency_are_the_extreme_samples Figures.three)) Hne).
Defined.

Lemma percentile_separates_witness :
  (50 = 50 ∨ 50 = 95 ∨ 50 = 99) ∧
  Forall (λ x, latency_double x = true)
    (LoadTest.latencies (LoadTest.run (num := spec_float) three_pages)) ∧
  ∃ x : spec_float,
    LoadTest.percentile_of (LoadTest.run (num := spec_float) three_pages) 50 = Num x ∧
    x ∈ LoadTest.latencies (LoadTest.run (num := spec_float) three_pages).
Proof.
  assert (Hp : 50 = 50 ∨ 50 = 95 ∨ 50 = 99) by (left; reflexivity).
  assert (Hne : LoadTest.latencies (LoadTest.run (num := spec_float) three_pages) ≠ [])
    by (vm_compute; discriminate).
  assert (Hlen : Z.of_nat (length (LoadTest.latencies (LoadTest.run (num := spec_float)
                                                           three_pages))) < 2 ^ 32)
    by (vm_compute; reflexivity).
  assert (Hall : Forall (λ x, latency_double x = true)
                   (LoadTest.latencies (LoadTest.run (num := spec_float) three_pages))).
  { vm_compute. repeat constructor. }
  split; [exact Hp |]. split; [exact Hall |].
  destruct (percentile_separates_the_samples (LoadTest.run (num := spec_float) three_pages)
              50 Hp Hne Hlen Hall) as (x & Hx & Hin & _).
  exists x. split; [exact Hx | exact Hin].
Defined.

Lemma percentiles_increase_witness :
  LoadTest.latencies (LoadTest.run (num := xnum) three_pages)
  = Fin <$> [inject_Z 10; inject_Z 30; inject_Z 20] ∧
  50 ≤ 95 ∧ 95 ≤ 100 ∧
  ∃ x x' : Q,
    LoadTest.percentile_of (LoadTest.run (num := xnum) three_pages) 50 = Num (Fin x) ∧
    LoadTest.percentile_of (LoadTest.run (num := xnum) three_pages) 95 = Num (Fin x') ∧
    (x <= x')%Q.
Proof.
  assert (Hsamples : LoadTest.latencies (LoadTest.run (num := xnum) three_pages)
                     = Fin <$> [inject_Z 10; inject_Z 30; inject_Z 20]) by reflexivity.
  assert (Hp : 50 ≤ 95) by lia.
  assert (Hp' : 95 ≤ 100) by lia.
  split; [exact Hsamples |]. split; [exact Hp |]. split; [exact Hp' |].
  exact (percentiles_increase_with_p (LoadTest.run (num := xnum) three_pages)
           [inject_Z 10; inject_Z 30; inject_Z 20] 50 95 Hsamples Hp Hp').
Defined.

Lemma percentiles_between_witness :
  omap sample three_pages ≠ [] ∧ 95 ≤ 100 ∧
  ∃ lowest x highest : Q,
    LoadTest.minLatency (LoadTest.run (num := xnum) three_pages) = Fin lowest ∧
    LoadTest.percentile_of (LoadTest.run (num := xnum) three_pages) 95 = Num (Fin x) ∧
    LoadTest.maxLatency (LoadTest.run (num := xnum) three_pages) = Fin highest ∧
    (lowest <= x)%Q ∧ (x <= highest)%Q.
Proof.
  assert (Hne : omap sample three_pages ≠ []) by discriminate.
  assert (Hp : 95 ≤ 100) by lia.
  split; [exact Hne |]. split; [exact Hp |].
  exact (percentiles_lie_between_min_and_max three_pages 95 Hne Hp).
Defined.

Lemma worker_witness :
  Forall (λ it : Z * LoadTest.fate,
            num_lt (num_of_Z (fst it)) (Fin (inject_Z 60000)) = true ∧
            snd it ≠ LoadTest.Cut)
    [(0, LoadTest.TimedOut)] ∧
  num_lt (num_of_Z 60000) (Fin (inject_Z 60000)) = false ∧
  LoadTest.worker (Fin (inject_Z 60000))
    ([(0, LoadTest.TimedOut)]
     ++ (60000, LoadTest.TimedOut) :: [(1, LoadTest.TimedOut)])
    LoadTest.initial_metrics
  = (Resolved tt,
     fold_left LoadTest.record
       ((snd <$> [(0, LoadTest.TimedOut)]) ≫= LoadTest.callbacks)
       LoadTest.initial_metrics).
Proof.
  assert (Hbefore : Forall (λ it : Z * LoadTest.fate,
                              num_lt (num_of_Z (fst it)) (Fin (inject_Z 60000)) = true ∧
                              snd it ≠ LoadTest.Cut)
                      [(0, LoadTest.TimedOut)]).
  { apply Forall_cons. split; [split; [reflexivity | discriminate] | apply Forall_nil; exact I]. }
  assert (Hlate : num_lt (num_of_Z 60000) (Fin (inject_Z 60000)) = false) by reflexivity.
  split; [exact Hbefore |]. split; [exact Hlate |].
  exact (proj1 worker_issues_until_the_deadline (Fin (inject_Z 60000))
           [(0, LoadTest.TimedOut)] [(1, LoadTest.TimedOut)] 60000
           LoadTest.TimedOut LoadTest.initial_metrics Hbefore Hlate).
Defined.

Lemma delay_witness :
  JS.num_gt
    (LoadTest.delayBetweenRequests
       {| LoadTest.TARGET_URL := "http://localhost:3000";
          LoadTest.DURATION_SECONDS := JS.num_of_Z 60;
          LoadTest.CONCURRENCY := S754_finite false 7036874417766400 (-46);
          LoadTest.TARGET_RPS := S754_zero true |})
    (JS.num_of_Z 0) = false.
Proof.
  exact (proj2 (proj1 (proj2 delay_of_the_special_rates
                         {| LoadTest.TARGET_URL := "http://localhost:3000";
                            LoadTest.DURATION_SECONDS := JS.num_of_Z 60;
                            LoadTest.CONCURRENCY := S754_finite false 7036874417766400 (-46);
                            LoadTest.TARGET_RPS := S754_zero true |})
                  true 7036874417766400%positive (-46) eq_refl eq_refl)).
Defined.

Lemma connection_failure_witness :
  (∃ o, o ∈ Figures.three ∧ connection_failure o) ∧
  LoadTest.exit_code (LoadTest.runLoadTest (num := xnum) Figures.three) = 1%N.
Proof.
  assert (Hfailure : ∃ o, o ∈ Figures.three ∧ connection_failure o).
  { exists LoadTest.RequestTimeout. split.
    - unfold Figures.three. apply elem_of_cons. right. apply elem_of_cons. left. reflexivity.
    - right. right. reflexivity. }
  split; [exact Hfailure |].
  exact (proj1 (one_connection_failure_fails_the_run Figures.three) Hfailure).
Defined.

Lemma fast_successes_witness :
  three_pages ≠ [] ∧
  (∀ o, o ∈ three_pages →
     ∃ (statusCode : N) (t0 t1 : Z),
       o = LoadTest.ResponseEnd statusCode t0 t1 ∧ (200 ≤ statusCode < 400)%N ∧
       t1 - t0 < 500000000) ∧
  LoadTest.exit_code (LoadTest.runLoadTest (num := xnum) three_pages) = 0%N.
Proof.
  assert (Hne : three_pages ≠ []) by discriminate.
  assert (Hfast : ∀ o, o ∈ three_pages →
                    ∃ (statusCode : N) (t0 t1 : Z),
                      o = LoadTest.ResponseEnd statusCode t0 t1 ∧ (200 ≤ statusCode < 400)%N ∧
                      t1 - t0 < 500000000).
  { intros o Ho. unfold three_pages in Ho.
    repeat (apply elem_of_cons in Ho as [-> | Ho];
            [eexists _, _, _; split; [reflexivity | split; lia] |]).
    apply elem_of_nil in Ho. destruct Ho. }
  split; [exact Hne |]. split; [exact Hfast |].
  exact (run_of_fast_successes_passes three_pages Hne Hfast).
Defined.

Lemma page_answer_witness :
  page_request (Server.Worker.Request Figures.page_request_gzip Figures.clock) = true ∧
  "ETag" ≠ "Content-Encoding" ∧ "ETag" ≠ "Content-Length" ∧
  Server.Worker.response_headers
    (fst (Server.Worker.handler (num := xnum) Figures.unprinted Figures.page_text Figures.stored
            4242 Figures.page_request_gzip Figures.clock (Figures.busy (num := xnum))))
    !! "ETag"
  = Some (Server.Worker.HString
            (Server.Worker.quote +:+ "28" +:+ "-v1" +:+ Server.Worker.quote)).
Proof.
  assert (Hpage : page_request (Server.Worker.Request Figures.page_request_gzip Figures.clock)
                  = true) by reflexivity.
  assert (Hencoding : "ETag" ≠ "Content-Encoding") by discriminate.
  assert (Hlength : "ETag" ≠ "Content-Length") by discriminate.
  split; [exact Hpage |]. split; [exact Hencoding |]. split; [exact Hlength |].
  etransitivity.
  - exact (proj2 (proj2 (page_answer_depends_only_on_the_encoding (num := xnum)
                           Figures.unprinted Figures.page_text Figures.stored 4242))
             Figures.page_request_gzip Figures.clock (Figures.busy (num := xnum)) "ETag"
             Hpage Hencoding Hlength).
  - vm_compute. reflexivity.
Defined.

Lemma response_time_witness :
  omap (response_time (num := spec_float))
    [Server.Worker.Request Figures.page_request_plain Figures.clock;
     Server.Worker.Request Figures.health_request Figures.clock] ≠ [] ∧
  Server.Worker.url Figures.health_request = "/health" ∧
  Server.Worker.field "avg_response_time_ms"
    (fst (Server.Worker.handler (num := spec_float) Figures.unprinted Figures.page_text
            Figures.stored 4242 Figures.health_request Figures.clock
            (Server.Worker.serve Figures.unprinted Figures.page_text Figures.stored 4242 1000
               [Server.Worker.Request Figures.page_request_plain Figures.clock;
                Server.Worker.Request Figures.health_request Figures.clock])))
  = Some (Server.Worker.JString "0.25").
Proof.
  assert (Hsome : omap (response_time (num := spec_float))
                    [Server.Worker.Request Figures.page_request_plain Figures.clock;
                     Server.Worker.Request Figures.health_request Figures.clock] ≠ [])
    by discriminate.
  assert (Hu : Server.Worker.url Figures.health_request = "/health") by reflexivity.
  split; [exact Hsome |]. split; [exact Hu |].
  etransitivity.
  - exact (proj2 (proj2 (total_response_time_is_the_sum_over_the_pages (num := spec_float)
                           Figures.unprinted Figures.page_text Figures.stored 4242 1000
                           [Server.Worker.Request Figures.page_request_plain Figures.clock;
                            Server.Worker.Request Figures.health_request Figures.clock]))
             Hsome Figures.health_request Figures.clock Hu).
  - vm_compute. reflexivity.
Defined.

Lemma primary_forks_witness :
  (Server.Primary.SIGTERM ∉ [Server.Primary.WorkerExit 1 (Some 1) None]) ∧
  Server.Primary.possible_all (fst (Server.Primary.start 2))
    [Server.Primary.WorkerExit 1 (Some 1) None] ∧
  snd (Server.Primary.start 2)
  ++ snd (Server.Primary.handle_all (fst (Server.Primary.start 2))
            [Server.Primary.WorkerExit 1 (Some 1) None])
  = [Server.Primary.Fork 1; Server.Primary.Fork 2; Server.Primary.Fork 3].
Proof.
  assert (Hrunning : Server.Primary.SIGTERM ∉ [Server.Primary.WorkerExit 1 (Some 1) None]).
  { apply (bool_decide_eq_false_1 _). vm_compute. reflexivity. }
  assert (Hpossible : Server.Primary.possible_all (fst (Server.Primary.start 2))
                        [Server.Primary.WorkerExit 1 (Some 1) None]).
  { cbn [Server.Primary.possible_all Server.Primary.possible]. split; [| exact I].
    apply (bool_decide_unpack _). vm_compute. exact I. }
  split; [exact Hrunning |]. split; [exact Hpossible |].
  exact (proj1 (primary_forks_once_per_cpu_and_once_per_exit 2
                  [Server.Primary.WorkerExit 1 (Some 1) None] Hrunning Hpossible)).
Defined.

Lemma primary_stops_witness :
  (Server.Primary.SIGTERM ∉ [Server.Primary.WorkerExit 1 (Some 1) None]) ∧
  Server.Primary.possible_all (fst (Server.Primary.start 2))
    ([Server.Primary.WorkerExit 1 (Some 1) None]
     ++ Server.Primary.SIGTERM :: [Server.Primary.WorkerExit 2 None (Some "SIGTERM")]) ∧
  ∃ ids : list N,
    snd (Server.Primary.start 2)
    ++ snd (Server.Primary.handle_all (fst (Server.Primary.start 2))
              ([Server.Primary.WorkerExit 1 (Some 1) None]
               ++ Server.Primary.SIGTERM
                  :: [Server.Primary.WorkerExit 2 None (Some "SIGTERM")]))
    = [Server.Primary.Fork 1; Server.Primary.Fork 2; Server.Primary.Fork 3]
      ++ map (λ id, Server.Primary.Kill id "SIGTERM") ids ++ [Server.Primary.Exit 0] ∧
    length ids = 2%nat.
Proof.
  assert (Hrunning : Server.Primary.SIGTERM ∉ [Server.Primary.WorkerExit 1 (Some 1) None]).
  { apply (bool_decide_eq_false_1 _). vm_compute. reflexivity. }
  assert (Hpossible : Server.Primary.possible_all (fst (Server.Primary.start 2))
                        ([Server.Primary.WorkerExit 1 (Some 1) None]
                         ++ Server.Primary.SIGTERM
                            :: [Server.Primary.WorkerExit 2 None (Some "SIGTERM")])).
  { cbn [app Server.Primary.possible_all Server.Primary.possible].
    split; [apply (bool_decide_unpack _); vm_compute; exact I |].
    split; [exact I |].
    split; [apply (bool_decide_unpack _); vm_compute; exact I | exact I]. }
  split; [exact Hrunning |]. split; [exact Hpossible |].
  destruct (primary_stops_by_signalling_each_live_worker_once 2
              [Server.Primary.WorkerExit 1 (Some 1) None]
              [Server.Primary.WorkerExit 2 None (Some "SIGTERM")] Hrunning Hpossible)
    as (ids & Hactions & _ & Hlength & _).
  exists ids. split; [exact Hactions | exact Hlength].
Defined.

Lemma theme_of_the_clock_witness :
  (Theme.localStorage arrived = None ∨ Theme.localStorage arrived = Some "") ∧
  (Theme.getMonth christmas_noon = 11 ∧ Theme.getDate christmas_noon = 25) ∧
  ∃ b' : Theme.browser,
    Theme.initTheme parse_preference arrived christmas_noon summer_night = Return b' ∧
    Theme.data_theme b' = Some "christmas".
Proof.
  assert (Hnone : Theme.localStorage arrived = None ∨ Theme.localStorage arrived = Some "")
    by (left; reflexivity).
  assert (Hchristmas : Theme.getMonth christmas_noon = 11 ∧ Theme.getDate christmas_noon = 25)
    by (split; reflexivity).
  split; [exact Hnone |]. split; [exact Hchristmas |].
  destruct (theme_follows_the_clock_without_a_preference parse_preference arrived
              christmas_noon summer_night Hnone) as (b' & Hinit & _ & _ & Hshown & _).
  exists b'. split; [exact Hinit | exact (Hshown Hchristmas)].
Defined.

Lemma manual_choice_witness :
  Theme.reads_back parse_preference stringify_preference "day" ∧
  Theme.reads_back parse_preference stringify_preference "night" ∧
  Theme.data_theme arrived ≠ Some "day" ∧
  Theme.data_theme (Theme.toggleTheme stringify_preference arrived) = Some "day" ∧
  Theme.tick parse_preference (Theme.toggleTheme stringify_preference arrived)
    christmas_noon christmas_noon
  = Return (Theme.toggleTheme stringify_preference arrived).
Proof.
  assert (Hday : Theme.reads_back parse_preference stringify_preference "day")
    by (split; [discriminate | reflexivity]).
  assert (Hnight : Theme.reads_back parse_preference stringify_preference "night")
    by (split; [discriminate | reflexivity]).
  assert (Hshown : Theme.data_theme arrived ≠ Some "day") by discriminate.
  split; [exact Hday |]. split; [exact Hnight |]. split; [exact Hshown |].
  destruct (manual_choice_holds_against_the_clock parse_preference stringify_preference
              arrived Hday Hnight) as (_ & Hflip & Hholds).
  split; [exact (Hflip Hshown) | exact (proj1 (Hholds christmas_noon christmas_noon))].
Defined.

Lemma theme_and_label_witness :
  Theme.consistent arrived ∧
  Theme.consistent
    (Theme.dom
       (Theme.run parse_preference stringify_preference
          (Theme.load parse_preference arrived christmas_noon christmas_noon)
          [Theme.DOMContentLoaded; Theme.Click; Theme.Tick summer_night summer_night])).
Proof.
  assert (Harrived : Theme.consistent arrived).
  { exists "Switch to Day". split; [right; reflexivity |]. right. right. split; reflexivity. }
  split; [exact Harrived |].
  exact (theme_and_label_go_together parse_preference stringify_preference arrived
           christmas_noon christmas_noon
           [Theme.DOMContentLoaded; Theme.Click; Theme.Tick summer_night summer_night]
           Harrived).
Defined.

Lemma unreadable_preference_witness :
  Theme.localStorage broken = Some "{mode" ∧ "{mode" ≠ "" ∧
  (parse_preference "{mode" = Return Theme.VNull
   ∨ ∃ err, parse_preference "{mode" = Throw err) ∧
  Theme.dom
    (Theme.run parse_preference stringify_preference
       (Theme.load parse_preference broken summer_night summer_night)
       [Theme.DOMContentLoaded; Theme.Click; Theme.Tick christmas_noon christmas_noon])
  = broken.
Proof.
  assert (Hstored : Theme.localStorage broken = Some "{mode") by reflexivity.
  assert (Hnonempty : "{mode" ≠ "") by discriminate.
  assert (Hparse : parse_preference "{mode" = Return Theme.VNull
                   ∨ ∃ err, parse_preference "{mode" = Throw err)
    by (right; exists "SyntaxError"; reflexivity).
  split; [exact Hstored |]. split; [exact Hnonempty |]. split; [exact Hparse |].
  exact (unreadable_preference_stops_the_script parse_preference stringify_preference broken
           "{mode" summer_night summer_night
           [Theme.DOMContentLoaded; Theme.Click; Theme.Tick christmas_noon christmas_noon]
           Hstored Hnonempty Hparse).
Defined.

End MoreWitnesses.
